(** * Bayesian optimisation of the hybrid weight schedule

    A shallow embedding of [scripts/optimization/bayesian_optimize_weights.py]
    and [scripts/optimization/evaluate_config.py].

    Numbers.  Python's [float] values are modelled by exact rationals [Q]:
    a decimal literal of the source is the rational it denotes, and [+], [-],
    [*] are exact.  Rounding, NaN and the infinities of binary64 are outside
    this model.  The integer dimensions of a candidate are [Z].

    Effects.  The surrogate optimiser, the external simulation and the file
    system are oracles collected in a record [world]; the loop threads an
    explicit state that holds the local variables of [run_optimization]
    together with a chronological trace of what the program did. *)

From Stdlib Require Import QArith Qminmax ZArith List String Bool Arith Lia Lqa.
From Stdlib Require Import Floats Sorted Permutation.
Import ListNotations.

Set Warnings "-inexact-float".

Local Open Scope Q_scope.

(** ** Comparison of rationals as the interpreter evaluates it *)

(** [a > b] on numbers. *)
Definition Qgtb (a b : Q) : bool := negb (Qle_bool a b).

(** [a < b] on numbers. *)
Definition Qltb (a b : Q) : bool := negb (Qle_bool b a).

(** ** Configuration *)

(** Objective function weights. *)
Definition CORRELATION_WEIGHT : Q := 0.6.
Definition RMSE_WEIGHT : Q := 0.3.
Definition RMSE_TARGET : Q := 0.70.
Definition RMSE_PENALTY_THRESHOLD : Q := 0.75.

(** Early stopping: stop if no improvement for this many iterations. *)
Definition EARLY_STOP_PATIENCE : nat := 25.

(** A point of the parameter space, in the order of [PARAM_SPACE]:
    [[initial_weight, phase1_end, phase2_end, phase1_target, phase2_target,
    max_weight]].  The two [Integer] dimensions are integers, on which the
    source's [int(...)] is the identity. *)
Record candidate : Type := Candidate {
  initial_weight : Q;
  phase1_end : Z;
  phase2_end : Z;
  phase1_target : Q;
  phase2_target : Q;
  max_weight : Q
}.

(** ** Objective function *)

(** Python's [max(0, x)]: the first argument unless the second is strictly
    greater. *)
Definition py_max0 (x : Q) : Q := if Qgtb x 0 then x else 0.

(** The penalty term of [calculate_objective]. *)
Definition rmse_penalty (rmse : Q) : Q :=
  py_max0 ((rmse - RMSE_PENALTY_THRESHOLD) * 2.0).

Definition calculate_objective (correlation rmse : Q) : Q :=
  let correlation_score := correlation * CORRELATION_WEIGHT in
  let rmse_score := (0.80 - rmse) * RMSE_WEIGHT in
  let rmse_penalty := py_max0 ((rmse - RMSE_PENALTY_THRESHOLD) * 2.0) in
  let objective := correlation_score + rmse_score - rmse_penalty in
  objective.

(** ** Feasibility *)

Definition validate_config (params : candidate) : bool :=
  if (phase2_end params <=? phase1_end params + 3)%Z then false
  else if negb (Qltb (initial_weight params) (phase1_target params)
                && Qltb (phase1_target params) (phase2_target params)
                && Qltb (phase2_target params) (max_weight params))
  then false
  else true.

(** The two joint constraints of the data model, as propositions. *)
Definition phases_separated (c : candidate) : Prop :=
  (phase2_end c > phase1_end c + 3)%Z.

Definition weights_increasing (c : candidate) : Prop :=
  initial_weight c < phase1_target c /\
  phase1_target c < phase2_target c /\
  phase2_target c < max_weight c.

(** ** The penalty and the initial best *)

(** The fixed value returned for a candidate that was not scored, and the
    initial running best of the loop.  The source writes both literals in
    place; they are named here for the statements. *)
Definition PENALTY : Q := 999.0.

(** ** Exceptions *)

(** The exceptions the model distinguishes: [subprocess.TimeoutExpired] and
    any other instance of [Exception], with its class name and [str(e)]. *)
Inductive exn : Type :=
| TimeoutExpired (msg : string)
| Exception (cls : string) (msg : string).

Definition KeyError (key : string) : exn :=
  Exception "KeyError" ("'" ++ key ++ "'").
Definition TypeError (msg : string) : exn := Exception "TypeError" msg.
Definition ValueError (msg : string) : exn := Exception "ValueError" msg.

(** A computation that returns a value or raises. *)
Definition result (A : Type) : Type := (exn + A)%type.

Definition ret {A : Type} (a : A) : result A := inr a.
Definition raise {A : Type} (e : exn) : result A := inl e.
Definition bind {A B : Type} (m : result A) (k : A -> result B) : result B :=
  match m with
  | inl e => inl e
  | inr a => k a
  end.

Notation "x <- m ;; k" := (bind m (fun x => k))
  (at level 61, m at next level, right associativity).

(** ** Values read from JSON and held in result dictionaries *)

#[local] Unset Elimination Schemes.
Inductive json : Type :=
| JNull
| JBool (b : bool)
| JNum (q : Q)
| JStr (s : string)
| JArr (items : list json)
| JObj (members : list (string * json)).
#[local] Set Elimination Schemes.

(** A dictionary with string keys, in insertion order. *)
Definition pydict : Type := list (string * json).

(** [key in d]. *)
Definition has_key (key : string) (d : pydict) : bool :=
  existsb (fun kv => String.eqb (fst kv) key) d.

(** The value a dictionary built from [members] holds for [key]: a later
    member replaces an earlier one with the same name. *)
Definition dict_get (key : string) (members : list (string * json))
  : option json :=
  fold_left (fun acc kv => if String.eqb (fst kv) key then Some (snd kv) else acc)
            members None.

(** [v[key]] with a string key. *)
Definition getitem (v : json) (key : string) : result json :=
  match v with
  | JObj members =>
      match dict_get key members with
      | Some x => ret x
      | None => raise (KeyError key)
      end
  | JArr _ => raise (TypeError "list indices must be integers or slices, not str")
  | JStr _ => raise (TypeError "string indices must be integers")
  | JNull | JBool _ | JNum _ => raise (TypeError "object is not subscriptable")
  end.

(** ** EvaluationBridge: [evaluate_config] *)

(** What [subprocess.run] returns when the process ran to completion. *)
Record completed_process : Type := CompletedProcess {
  returncode : Z;
  stderr : string
}.

(** What one call of [evaluate_config] meets outside the program: the
    outcome of [subprocess.run] (with the 300 second timeout), of the glob
    for [cb-simulation-*.json], of [p.stat().st_mtime] and of opening and
    parsing a file. *)
Record evaluation_env : Type := EvaluationEnv {
  subprocess_run : result completed_process;
  glob_results : result (list string);
  st_mtime : string -> result Q;
  load_json : string -> result json
}.

(** [max(rest, key=st_mtime)] continued from the running maximum: a later
    file replaces the current one only when its key is strictly greater. *)
Fixpoint max_by_mtime (env : evaluation_env) (best : string) (best_key : Q)
    (rest : list string) : result string :=
  match rest with
  | [] => ret best
  | p :: rest' =>
      k <- st_mtime env p ;;
      if Qgtb k best_key then max_by_mtime env p k rest'
      else max_by_mtime env best best_key rest'
  end.

Definition latest_by_mtime (env : evaluation_env) (json_files : list string)
  : result string :=
  match json_files with
  | [] => raise (ValueError "max() arg is an empty sequence")
  | p :: rest => k <- st_mtime env p ;; max_by_mtime env p k rest
  end.

(** The dictionary returned on every failure path. *)
Definition failure_dict (error : json) : pydict :=
  [ ("correlation", JNum 0.0); ("rmse", JNum 999.0); ("mae", JNum 999.0);
    ("regret", JNum 999.0); ("error", error) ]%string.

(** The dictionary returned on success. *)
Definition metrics_dict (correlation rmse mae regret : json) : pydict :=
  [ ("correlation", correlation); ("rmse", rmse); ("mae", mae);
    ("regret", regret) ]%string.

(** The body of the [try] block. *)
Definition evaluate_config_try (env : evaluation_env) : result pydict :=
  result <- subprocess_run env ;;
  if negb (returncode result =? 0)%Z then
    ret (failure_dict (JStr (stderr result)))
  else
    json_files <- glob_results env ;;
    match json_files with
    | [] => ret (failure_dict (JStr "No results file"))
    | _ :: _ =>
        latest_file <- latest_by_mtime env json_files ;;
        data <- load_json env latest_file ;;
        modes <- getitem data "modes" ;;
        hybrid_metrics <- getitem modes "hybrid" ;;
        correlation <- getitem hybrid_metrics "correlation" ;;
        rmse <- getitem hybrid_metrics "rmse" ;;
        mae <- getitem hybrid_metrics "mae" ;;
        performance <- getitem hybrid_metrics "performance" ;;
        regret <- getitem performance "avgRegret" ;;
        ret (metrics_dict correlation rmse mae regret)
    end.

(** [evaluate_config]: the process environment built from the six
    parameters is what [launch] receives; the diagnostics printed to
    standard error are not part of the model. *)
Definition evaluate_config (launch : candidate -> evaluation_env)
    (initial_weight : Q) (phase1_end phase2_end : Z)
    (phase1_target phase2_target max_weight : Q) : pydict :=
  let env := launch (Candidate initial_weight phase1_end phase2_end
                               phase1_target phase2_target max_weight) in
  match evaluate_config_try env with
  | inr d => d
  | inl (TimeoutExpired _) => failure_dict (JStr "Timeout")
  | inl (Exception _ msg) => failure_dict (JStr msg)
  end.

(** The successful scenario, stated on the environment: the process exits
    with status 0, the glob is not empty, the most recent file parses, and
    the four values sit at their paths under [modes.hybrid]. *)
Definition evaluation_succeeds (env : evaluation_env)
    (correlation rmse mae regret : json) : Prop :=
  exists p files latest data modes hybrid performance,
    subprocess_run env = inr p /\ returncode p = 0%Z /\
    glob_results env = inr files /\ files <> [] /\
    latest_by_mtime env files = inr latest /\
    load_json env latest = inr data /\
    getitem data "modes" = inr modes /\
    getitem modes "hybrid" = inr hybrid /\
    getitem hybrid "correlation" = inr correlation /\
    getitem hybrid "rmse" = inr rmse /\
    getitem hybrid "mae" = inr mae /\
    getitem hybrid "performance" = inr performance /\
    getitem performance "avgRegret" = inr regret.

(** ** SurrogateOptimizer: the ask/tell interface *)

(** The optimiser object: how it was constructed and what it was told, the
    oldest observation first.  Everything else about it is opaque. *)
Record Optimizer : Type := mkOptimizer {
  n_initial_points : nat;
  observations : list (candidate * Q)
}.

(** [optimizer.tell(x, y)]. *)
Definition tell (o : Optimizer) (x : candidate) (y : Q) : Optimizer :=
  mkOptimizer (n_initial_points o) (observations o ++ [(x, y)]).

(** ** Trial records, snapshots and the trace of the program *)

(** One entry of [all_results]. *)
Record trial : Type := Trial {
  iteration : nat;
  params : candidate;
  objective : Q;
  is_valid : bool
}.

(** The content of one results file (the timestamp is left out). *)
Record snapshot : Type := Snapshot {
  snap_best_config : option candidate;
  snap_best_objective : option Q;
  snap_all_results : list trial
}.

(** The lines of output the model keeps. *)
Inductive message : Type :=
| Invalid_config
| Evaluation_failed (error : option json)
| New_best (objective : Q)
| Early_stopping
| Results_saved
| Plot_saved
| Could_not_create_plots (e : exn)
| Best_configuration_found (c : candidate) (objective : Q)
| No_valid_configuration_found.

(** What the program did, in order. *)
Inductive event : Type :=
| Called_evaluate_config (c : candidate)
| Called_calculate_objective (correlation rmse : json)
| Printed (m : message)
| Wrote_results (s : snapshot)
| Wrote_plot (objectives best_so_far : list Q).

(** The results files written so far. *)
Definition snapshots (tr : list event) : list snapshot :=
  flat_map (fun e => match e with Wrote_results s => [s] | _ => [] end) tr.

(** ** The world outside the loop *)

Record world : Type := World {
  (** [optimizer.ask()], a function of the optimiser's state *)
  ask : Optimizer -> candidate;
  (** what [evaluate_config] meets when called in iteration [i] (0-based) *)
  launch : nat -> candidate -> evaluation_env;
  (** the outcome of creating the results directory, opening and writing
      the JSON file in the [k]-th call of [save_results] (0-based): an
      exception, or [None] for success *)
  write_results : nat -> option exn;
  (** the same for drawing and saving the convergence plot *)
  write_plot : nat -> option exn
}.

(** ** [evaluate_with_objective] *)

(** A value used as a number in arithmetic: [bool] is a subclass of [int]. *)
Definition as_number (v : json) : option Q :=
  match v with
  | JNum q => Some q
  | JBool b => Some (if b then 1 else 0)
  | _ => None
  end.

(** [calculate_objective] applied to values taken from a dictionary: the
    first arithmetic operation on a value that is not a number raises. *)
Definition calculate_objective_on (correlation rmse : json) : result Q :=
  match as_number correlation with
  | None => raise (TypeError "unsupported operand type(s) for *")
  | Some c =>
      match as_number rmse with
      | None => raise (TypeError "unsupported operand type(s) for -")
      | Some r => ret (calculate_objective c r)
      end
  end.

(** [d[key]] on a result dictionary. *)
Definition subscript (d : pydict) (key : string) : result json :=
  match dict_get key d with
  | Some v => ret v
  | None => raise (KeyError key)
  end.

(** Returns the events of the call and the negated objective (for
    minimisation), or the exception that escapes. *)
Definition evaluate_with_objective (launch : candidate -> evaluation_env)
    (params : candidate) : list event * result Q :=
  if negb (validate_config params) then
    ([Printed Invalid_config], ret 999.0)
  else
    let results :=
      evaluate_config launch
        (initial_weight params) (phase1_end params) (phase2_end params)
        (phase1_target params) (phase2_target params) (max_weight params) in
    let called := [Called_evaluate_config params] in
    if has_key "error" results then
      (called ++ [Printed (Evaluation_failed (dict_get "error" results))],
       ret 999.0)
    else
      match subscript results "correlation" with
      | inl e => (called, raise e)
      | inr correlation =>
          match subscript results "rmse" with
          | inl e => (called, raise e)
          | inr rmse =>
              (called ++ [Called_calculate_objective correlation rmse],
               objective <- calculate_objective_on correlation rmse ;;
               ret (- objective))
          end
      end.

(** ** ResultStore: [save_results] *)

(** The red curve of the convergence plot. *)
Fixpoint best_so_far_curve (current_best : Q) (objectives : list Q) : list Q :=
  match objectives with
  | [] => []
  | obj :: rest =>
      let current_best := if Qgtb obj current_best then obj else current_best in
      current_best :: best_so_far_curve current_best rest
  end.

Definition snapshot_of (all_results : list trial)
    (best_config : option candidate) (best_metrics : option trial) : snapshot :=
  Snapshot best_config (option_map objective best_metrics) all_results.

(** [k] is the number of earlier calls.  A failure to write the JSON file
    is not handled here; a failure while plotting is caught and reported. *)
Definition save_results (w : world) (k : nat) (all_results : list trial)
    (best_config : option candidate) (best_metrics : option trial)
  : list event * result unit :=
  match write_results w k with
  | Some e => ([], raise e)
  | None =>
      let saved :=
        [Wrote_results (snapshot_of all_results best_config best_metrics);
         Printed Results_saved] in
      match write_plot w k with
      | Some e => (saved ++ [Printed (Could_not_create_plots e)], ret tt)
      | None =>
          let objectives :=
            map objective (filter is_valid all_results) in
          (saved ++ [Wrote_plot objectives (best_so_far_curve (-999) objectives);
                     Printed Plot_saved],
           ret tt)
      end
  end.

(** ** OptimizationLoop: [run_optimization] *)

(** The local variables of [run_optimization] and the trace so far. *)
Record loop_state : Type := LoopState {
  optimizer : Optimizer;
  all_results : list trial;
  best_objective : Q;
  best_config : option candidate;
  best_metrics : option trial;
  no_improvement_count : nat;
  trace : list event
}.

Definition emit (s : loop_state) (evs : list event) : loop_state :=
  LoopState (optimizer s) (all_results s) (best_objective s) (best_config s)
            (best_metrics s) (no_improvement_count s) (trace s ++ evs).

(** How one pass through the loop body ends. *)
Inductive step_result : Type :=
| Continue (s : loop_state)
| Break (s : loop_state)
| Raised (e : exn) (s : loop_state).

(** The body of [for i in range(n_iter)], with the early-stop patience it
    reads from the module. *)
Definition loop_body (patience : nat) (w : world) (i : nat) (s : loop_state)
  : step_result :=
  (* Get next configuration to try *)
  let suggested_params := ask w (optimizer s) in
  (* Evaluate *)
  let '(evs, evaluated) := evaluate_with_objective (launch w i) suggested_params in
  match evaluated with
  | inl e => Raised e (emit s evs)
  | inr neg_objective =>
      (* Update optimizer *)
      let optimizer := tell (optimizer s) suggested_params neg_objective in
      (* Track results *)
      let objective := - neg_objective in
      let entry :=
        Trial (i + 1) suggested_params objective
              (validate_config suggested_params) in
      let all_results := all_results s ++ [entry] in
      (* Check if new best *)
      let s :=
        if Qgtb objective (best_objective s) then
          LoopState optimizer all_results objective (Some suggested_params)
                    (Some entry) 0
                    (trace s ++ evs ++ [Printed (New_best objective)])
        else
          LoopState optimizer all_results (best_objective s) (best_config s)
                    (best_metrics s) (no_improvement_count s + 1)
                    (trace s ++ evs) in
      (* Early stopping *)
      if (patience <=? no_improvement_count s)%nat then
        Break (emit s [Printed Early_stopping])
      else
        (* Save checkpoint every 10 iterations *)
        if ((i + 1) mod 10 =? 0)%nat then
          let '(written, saved) :=
            save_results w (List.length (snapshots (trace s))) all_results
                         (best_config s) (best_metrics s) in
          match saved with
          | inl e => Raised e (emit s written)
          | inr _ => Continue (emit s written)
          end
        else Continue s
  end.

(** Why the loop ended. *)
Inductive stop_reason : Type := STOPPED_EARLY | STOPPED_BUDGET.

(** How [run_optimization] ended: it returned, or an exception escaped. *)
Inductive outcome : Type :=
| Finished (how : stop_reason) (s : loop_state)
| Crashed (e : exn) (s : loop_state).

Definition final_state (o : outcome) : loop_state :=
  match o with
  | Finished _ s => s
  | Crashed _ s => s
  end.

(** [for i in range(i, i + remaining)]. *)
Fixpoint for_range (patience : nat) (w : world) (i remaining : nat)
    (s : loop_state) : outcome :=
  match remaining with
  | O => Finished STOPPED_BUDGET s
  | S remaining' =>
      match loop_body patience w i s with
      | Continue s' => for_range patience w (S i) remaining' s'
      | Break s' => Finished STOPPED_EARLY s'
      | Raised e s' => Crashed e s'
      end
  end.

(** The state before the first iteration. *)
Definition initial_state (n_initial : nat) : loop_state :=
  LoopState (mkOptimizer n_initial []) [] (-999.0) None None 0 [].

(** The loop for a given patience; [n_iter] is a natural number, as
    [range] of a negative number is empty. *)
Definition optimization_loop (patience : nat) (w : world)
    (n_iter n_initial : nat) : outcome :=
  for_range patience w 0 n_iter (initial_state n_initial).

Definition run_optimization (w : world) (n_iter n_initial : nat) : outcome :=
  optimization_loop EARLY_STOP_PATIENCE w n_iter n_initial.

(** ** [main] *)

(** Defaults of the command line. *)
Definition DEFAULT_N_ITER : nat := 150.
Definition DEFAULT_N_INITIAL : nat := 25.

(** How the program ended: [main] returned, or an exception reached the
    top level. *)
Inductive program_end : Type :=
| Returned (s : loop_state)
| Uncaught (e : exn) (s : loop_state).

Definition end_state (p : program_end) : loop_state :=
  match p with
  | Returned s => s
  | Uncaught _ s => s
  end.

Definition main (w : world) (n_iter n_initial : nat) : program_end :=
  match run_optimization w n_iter n_initial with
  | Crashed e s => Uncaught e s
  | Finished _ s =>
      (* Save final results *)
      let '(written, saved) :=
        save_results w (List.length (snapshots (trace s))) (all_results s)
                     (best_config s) (best_metrics s) in
      match saved with
      | inl e => Uncaught e (emit s written)
      | inr _ =>
          let s := emit s written in
          (* Print summary *)
          match best_config s with
          | Some c =>
              match best_metrics s with
              | Some t =>
                  Returned (emit s [Printed (Best_configuration_found
                                               c (objective t))])
              | None =>
                  Uncaught (TypeError "'NoneType' object is not subscriptable") s
              end
          | None => Returned (emit s [Printed No_valid_configuration_found])
          end
      end
  end.

(** ** The loop body in two halves *)

(** The state once the trial is recorded and the best-so-far updated. *)
Definition record_trial (i : nat) (s : loop_state) (suggested_params : candidate)
    (evs : list event) (neg_objective : Q) : loop_state :=
  let objective := - neg_objective in
  let entry :=
    Trial (i + 1) suggested_params objective (validate_config suggested_params) in
  if Qgtb objective (best_objective s) then
    LoopState (tell (optimizer s) suggested_params neg_objective)
              (all_results s ++ [entry]) objective (Some suggested_params)
              (Some entry) 0
              (trace s ++ evs ++ [Printed (New_best objective)])
  else
    LoopState (tell (optimizer s) suggested_params neg_objective)
              (all_results s ++ [entry]) (best_objective s) (best_config s)
              (best_metrics s) (no_improvement_count s + 1)
              (trace s ++ evs).

(** The early-stopping test and the checkpoint that follow. *)
Definition stop_or_checkpoint (patience : nat) (w : world) (i : nat)
    (s : loop_state) : step_result :=
  if (patience <=? no_improvement_count s)%nat then
    Break (emit s [Printed Early_stopping])
  else if ((i + 1) mod 10 =? 0)%nat then
    match save_results w (List.length (snapshots (trace s))) (all_results s)
                       (best_config s) (best_metrics s) with
    | (written, inl e) => Raised e (emit s written)
    | (written, inr _) => Continue (emit s written)
    end
  else Continue s.

(** The local variables, without the trace. *)
Definition same_locals (s s' : loop_state) : Prop :=
  optimizer s' = optimizer s /\
  all_results s' = all_results s /\
  best_objective s' = best_objective s /\
  best_config s' = best_config s /\
  best_metrics s' = best_metrics s /\
  no_improvement_count s' = no_improvement_count s.

(** ** The invariant of the loop *)

(** What the local variables satisfy at every point of the loop: either no
    trial has improved on the initial value yet, or the best trial is the
    first one that attains the greatest objective; the counter is the
    number of trials since. *)
Definition best_tracking (s : loop_state) : Prop :=
  (best_config s = None /\ best_metrics s = None /\
   best_objective s = -999.0 /\
   Forall (fun t => objective t <= -999.0) (all_results s) /\
   no_improvement_count s = List.length (all_results s))
  \/
  (exists l1 t l2,
      all_results s = l1 ++ t :: l2 /\
      best_metrics s = Some t /\
      best_config s = Some (params t) /\
      best_objective s = objective t /\
      -999.0 < objective t /\
      Forall (fun t' => objective t' < objective t) l1 /\
      Forall (fun t' => objective t' <= objective t) l2 /\
      no_improvement_count s = List.length l2).

(** The state in which a pass through the body ends, whatever its end. *)
Definition state_of (r : step_result) : loop_state :=
  match r with
  | Continue s => s
  | Break s => s
  | Raised _ s => s
  end.

(** ** Concrete worlds *)

(** Two candidates inside the bounds of every dimension of the parameter
    space ([phase1_end] in [5..15], [phase2_end] in [15..30]): the first
    breaks the first constraint, since [15 <= 13 + 3]; the second is
    feasible. *)
Definition infeasible_candidate : candidate := Candidate 0.5 13 15 0.65 0.85 0.9.
Definition feasible_candidate : candidate := Candidate 0.5 10 20 0.65 0.85 0.9.

(** A results file with the given hybrid metrics. *)
Definition hybrid_file (correlation rmse : Q) : json :=
  JObj [("modes",
         JObj [("hybrid",
                JObj [("correlation", JNum correlation); ("rmse", JNum rmse);
                      ("mae", JNum 0.5);
                      ("performance", JObj [("avgRegret", JNum 0.1)])])])]%string.

(** An evaluation that succeeds with the given metrics. *)
Definition successful_env (correlation rmse : Q) : evaluation_env :=
  EvaluationEnv (inr (CompletedProcess 0 ""))
                (inr ["cb-simulation-1.json"%string])
                (fun _ => inr 1)
                (fun _ => inr (hybrid_file correlation rmse)).

(** An evaluation whose process runs out of time. *)
Definition timeout_env : evaluation_env :=
  EvaluationEnv (inl (TimeoutExpired "timed out after 300 seconds"))
                (inr []) (fun _ => inr 1) (fun _ => inr JNull).

(** The optimiser only proposes the infeasible candidate. *)
Definition infeasible_world : world :=
  World (fun _ => infeasible_candidate) (fun _ _ => successful_env 1 0.70)
        (fun _ => None) (fun _ => None).

(** Every evaluation succeeds with the same metrics. *)
Definition steady_world : world :=
  World (fun _ => feasible_candidate) (fun _ _ => successful_env 0.5 0.70)
        (fun _ => None) (fun _ => None).

(** As [steady_world], with a disk that refuses every results file. *)
Definition full_disk_world : world :=
  World (fun _ => feasible_candidate) (fun _ _ => successful_env 0.5 0.70)
        (fun _ => Some (Exception "OSError" "No space left on device"))
        (fun _ => None).

(** As [steady_world], with a plotting backend that always fails. *)
Definition no_plot_world : world :=
  World (fun _ => feasible_candidate) (fun _ _ => successful_env 0.5 0.70)
        (fun _ => None)
        (fun _ => Some (Exception "RuntimeError" "no display")).

(** Improvements in the first five iterations and none afterwards: the
    counter reaches 25 in iteration 30. *)
Definition plateau_world : world :=
  World (fun _ => feasible_candidate)
        (fun i _ => successful_env
                      (if (i <? 5)%nat then inject_Z (Z.of_nat i) / 10 else 0)
                      0.70)
        (fun _ => None) (fun _ => None).

(** Metrics that are not numbers are not caught anywhere: a results file
    whose correlation is null ends the run with a [TypeError]. *)
Definition null_metrics_world : world :=
  World (fun _ => feasible_candidate)
        (fun _ _ =>
           EvaluationEnv
             (inr (CompletedProcess 0 ""))
             (inr ["cb-simulation-1.json"%string])
             (fun _ => inr 1)
             (fun _ =>
                inr (JObj [("modes",
                            JObj [("hybrid",
                                   JObj [("correlation", JNull);
                                         ("rmse", JNum 0.70);
                                         ("mae", JNum 0.5);
                                         ("performance",
                                          JObj [("avgRegret", JNum 0.1)])])])]%string)))
        (fun _ => None) (fun _ => None).

(** ** Notions used in the statements *)

(** [m] is the greatest element of [l]. *)
Definition is_maximum (m : Q) (l : list Q) : Prop :=
  In m l /\ Forall (fun x => x <= m) l.

(** The dictionary [evaluate_config] returns for a candidate. *)
Definition evaluation_of (launch : candidate -> evaluation_env) (c : candidate)
  : pydict :=
  evaluate_config launch (initial_weight c) (phase1_end c) (phase2_end c)
                  (phase1_target c) (phase2_target c) (max_weight c).

(** A candidate that the loop does not score: it is infeasible, or its
    evaluation returns a dictionary with an ['error'] key. *)
Definition not_scored (launch : candidate -> evaluation_env) (c : candidate)
  : Prop :=
  validate_config c = false \/ has_key "error" (evaluation_of launch c) = true.

(** What the optimiser has been told after [k] penalised trials. *)
Fixpoint penalised_observations (w : world) (n_initial k : nat)
  : list (candidate * Q) :=
  match k with
  | O => []
  | S k' =>
      let told := penalised_observations w n_initial k' in
      told ++ [(ask w (mkOptimizer n_initial told), 999.0)]
  end.

(** The candidate of iteration [i] (0-based) when every earlier trial was
    penalised. *)
Definition penalised_candidate (w : world) (n_initial i : nat) : candidate :=
  ask w (mkOptimizer n_initial (penalised_observations w n_initial i)).

(** The locals after [k] penalised trials. *)
Definition penalised_locals (w : world) (n_initial k : nat) (s : loop_state)
  : Prop :=
  optimizer s = mkOptimizer n_initial (penalised_observations w n_initial k) /\
  List.length (all_results s) = k /\
  best_objective s = -999.0 /\
  best_config s = None /\
  best_metrics s = None /\
  no_improvement_count s = k.

(** The snapshot [save_results] writes for the locals of a state. *)
Definition state_snapshot (s : loop_state) : snapshot :=
  snapshot_of (all_results s) (best_config s) (best_metrics s).

(** The trace only grows. *)
Definition extends (tr tr' : list event) : Prop := exists evs, tr' = tr ++ evs.

(** ** The objective in binary64

    The same function on IEEE 754 binary64 numbers, each literal rounded
    to the nearest one, as the interpreter computes it. *)
Module Binary64.

Local Open Scope float_scope.

Definition py_max0 (x : float) : float := if 0 <? x then x else 0.

Definition calculate_objective (correlation rmse : float) : float :=
  let correlation_score := correlation * 0.6 in
  let rmse_score := (0.80 - rmse) * 0.3 in
  let rmse_penalty := py_max0 ((rmse - 0.75) * 2.0) in
  let objective := correlation_score + rmse_score - rmse_penalty in
  objective.

End Binary64.

(** ** Further notions used in the statements *)

(** The candidates the evaluator was called on, in order. *)
Definition evaluated (tr : list event) : list candidate :=
  flat_map (fun e => match e with Called_evaluate_config c => [c] | _ => [] end) tr.

(** The running best of a list of objectives, by the update rule of the
    loop (and of the plot): a value replaces the current best only when it
    is strictly greater. *)
Definition running_best (current_best : Q) (objectives : list Q) : Q :=
  fold_left (fun best obj => if Qgtb obj best then obj else best)
            objectives current_best.

(** What the trial history and the optimiser's observations satisfy at
    every point of the loop. *)
Definition history_consistent (s : loop_state) : Prop :=
  observations (optimizer s)
    = map (fun t => (params t, - objective t)) (all_results s) /\
  map iteration (all_results s) = seq 1 (List.length (all_results s)) /\
  Forall (fun t => is_valid t = validate_config (params t) /\
                   (is_valid t = false -> objective t = -999.0))
         (all_results s).

(** The snapshots of a state: taken after 10, 20, ... trials, each holding
    the first trials of the state. *)
Definition checkpoints_in_order (s : loop_state) : Prop :=
  map (fun x => List.length (snap_all_results x)) (snapshots (trace s))
  = map (fun j => (10 * j)%nat) (seq 1 (List.length (snapshots (trace s)))) /\
  Forall (fun x => exists later, all_results s = snap_all_results x ++ later)
         (snapshots (trace s)).

(** ** [compare_results.py] *)

Module CompareResults.

(** What the report prints, line by line; a metric is printed with its two
    values, the change in percent and, for the first four, a direction. *)
Inductive direction : Type := improvement | regression.

Inductive assessment : Type :=
| SIGNIFICANT_IMPROVEMENT
| MARGINAL_IMPROVEMENT
| NO_SIGNIFICANT_CHANGE
| REGRESSION.

Inductive report_line : Type :=
| Need_two_files
| Comparing (before_file after_file : string)
| Heading (title : string)
| Configuration_changes
| Metric (name : string) (before after : json) (change : Q)
         (dir : option direction)
| Objective_function (before after change : Q)
| Status (a : assessment).

(** A computation that prints lines and then returns or raises. *)
Definition report (A : Type) : Type := (list report_line * result A)%type.

Definition rret {A : Type} (a : A) : report A := ([], inr a).

Definition rbind {A B : Type} (m : report A) (k : A -> report B) : report B :=
  match m with
  | (out, inl e) => (out, inl e)
  | (out, inr a) => let '(out', r) := k a in (out ++ out', r)
  end.

Definition say (l : report_line) : report unit := ([l], inr tt).

Definition lift {A : Type} (r : result A) : report A := ([], r).

Notation "x <~ m ;; k" := (rbind m (fun x => k))
  (at level 61, m at next level, right associativity).

Definition ZeroDivisionError : exn :=
  Exception "ZeroDivisionError" "division by zero".

(** A value used as an operand of [-], [/] and [*]. *)
Definition number (v : json) : result Q :=
  match as_number v with
  | Some q => ret q
  | None => raise (TypeError "unsupported operand type(s)")
  end.

(** [((after - before) / before) * 100] on numbers. *)
Definition percent_change_of (before after : Q) : result Q :=
  if Qeq_bool before 0 then raise ZeroDivisionError
  else ret (((after - before) / before) * 100).

(** The same on values read from a file. *)
Definition percent_change (before after : json) : result Q :=
  a <- number after ;;
  b <- number before ;;
  percent_change_of b a.

(** [load_json]: open the file and parse it; [read] is the file system. *)
Definition load_json (read : string -> result json) (filepath : string)
  : result json :=
  read filepath.

(** One block of the report: look up both values, compute the change and
    the direction, print.  The source writes this block out once per
    metric; the blocks differ in the path of the value and in the rule for
    the direction. *)
Definition metric_block (name : string) (lookup_before lookup_after : result json)
    (direction_of : Q -> option direction) : report (json * json) :=
  before_value <~ lift lookup_before ;;
  after_value <~ lift lookup_after ;;
  change <~ lift (percent_change before_value after_value) ;;
  _ <~ say (Metric name before_value after_value change (direction_of change)) ;;
  rret (before_value, after_value).

(** ["improvement" if change < 0 else "regression"]. *)
Definition lower_is_better (change : Q) : option direction :=
  Some (if Qltb change 0 then improvement else regression).

(** ["improvement" if change > 0 else "regression"]. *)
Definition higher_is_better (change : Q) : option direction :=
  Some (if Qgtb change 0 then improvement else regression).

Definition no_direction (change : Q) : option direction := None.

(** [v[outer][inner]]. *)
Definition getitem2 (v : json) (outer inner : string) : result json :=
  x <- getitem v outer ;; getitem x inner.

(** The composite score of the report: [corr * 0.6 + (0.80 - rmse) * 0.3],
    in exact arithmetic.  The interpreter rounds each operation, so that a
    sum that is zero here need not be zero there, and conversely: whether
    the division by the baseline objective raises is decided by the rounded
    sum. *)
Definition report_objective (corr rmse : Q) : Q :=
  corr * 0.6 + (0.80 - rmse) * 0.3.

(** The chain of tests on the change of the objective. *)
Definition assess (obj_change : Q) : assessment :=
  if Qgtb obj_change 2 then SIGNIFICANT_IMPROVEMENT
  else if Qgtb obj_change 0 then MARGINAL_IMPROVEMENT
  else if Qgtb obj_change (-2) then NO_SIGNIFICANT_CHANGE
  else REGRESSION.

Definition print_comparison (read : string -> result json)
    (before_file after_file : string) : report unit :=
  before <~ lift (load_json read before_file) ;;
  after <~ lift (load_json read after_file) ;;
  (* Extract hybrid metrics *)
  before_hybrid <~ lift (getitem2 before "modes" "hybrid") ;;
  after_hybrid <~ lift (getitem2 after "modes" "hybrid") ;;
  _ <~ say (Heading "OPTIMIZATION VALIDATION RESULTS") ;;
  _ <~ say Configuration_changes ;;
  _ <~ say (Heading "ACCURACY METRICS") ;;
  rmse <~ metric_block "RMSE" (getitem before_hybrid "rmse")
                       (getitem after_hybrid "rmse") lower_is_better ;;
  corr <~ metric_block "Correlation" (getitem before_hybrid "correlation")
                       (getitem after_hybrid "correlation") higher_is_better ;;
  _ <~ metric_block "MAE" (getitem before_hybrid "mae")
                    (getitem after_hybrid "mae") lower_is_better ;;
  _ <~ say (Heading "PERFORMANCE METRICS") ;;
  _ <~ metric_block "Average Regret"
                    (getitem2 before_hybrid "performance" "avgRegret")
                    (getitem2 after_hybrid "performance" "avgRegret")
                    lower_is_better ;;
  _ <~ say (Heading "PERSONALIZATION METRICS") ;;
  _ <~ metric_block "Question Diversity"
                    (getitem2 before_hybrid "personalization" "questionDiversity")
                    (getitem2 after_hybrid "personalization" "questionDiversity")
                    no_direction ;;
  _ <~ metric_block "Student Overlap"
                    (getitem2 before_hybrid "personalization" "studentOverlap")
                    (getitem2 after_hybrid "personalization" "studentOverlap")
                    no_direction ;;
  _ <~ metric_block "Selection Concentration"
                    (getitem2 before_hybrid "personalization"
                              "selectionConcentration")
                    (getitem2 after_hybrid "personalization"
                              "selectionConcentration")
                    no_direction ;;
  _ <~ say (Heading "OVERALL ASSESSMENT") ;;
  (* Calculate composite score *)
  before_corr <~ lift (number (fst corr)) ;;
  before_rmse <~ lift (number (fst rmse)) ;;
  after_corr <~ lift (number (snd corr)) ;;
  after_rmse <~ lift (number (snd rmse)) ;;
  let before_obj := report_objective before_corr before_rmse in
  let after_obj := report_objective after_corr after_rmse in
  obj_change <~ lift (percent_change_of before_obj after_obj) ;;
  _ <~ say (Objective_function before_obj after_obj obj_change) ;;
  say (Status (assess obj_change)).

(** The results directory as the script meets it: the glob for
    [cb-simulation-testing-*.json], the modification time of a file and
    its parsed content. *)
Record results_directory : Type := ResultsDirectory {
  dir_glob : result (list string);
  dir_mtime : string -> result Q;
  dir_read : string -> result json
}.

(** The keys of [sorted], computed for every element in order. *)
Fixpoint with_keys (mtime : string -> result Q) (files : list string)
  : result (list (string * Q)) :=
  match files with
  | [] => ret []
  | p :: rest =>
      k <- mtime p ;;
      keyed <- with_keys mtime rest ;;
      ret ((p, k) :: keyed)
  end.

(** [sorted] is stable: an element goes before the first element whose key
    is not smaller than its own, so equal keys keep their order. *)
Fixpoint insert_sorted (x : string * Q) (l : list (string * Q))
  : list (string * Q) :=
  match l with
  | [] => [x]
  | y :: l' =>
      if Qltb (snd y) (snd x) then y :: insert_sorted x l' else x :: y :: l'
  end.

Definition py_sorted (l : list (string * Q)) : list (string * Q) :=
  fold_right insert_sorted [] l.

(** How the script ends. *)
Inductive script_end : Type :=
| Completed
| SystemExit (code : Z)
| Traceback (e : exn).

(** The block under [if __name__ == '__main__']. *)
Definition main (d : results_directory) : list report_line * script_end :=
  match (files <- dir_glob d ;; with_keys (dir_mtime d) files) with
  | inl e => ([], Traceback e)
  | inr keyed =>
      let json_files := map fst (py_sorted keyed) in
      if (List.length json_files <? 2)%nat then
        ([Need_two_files], SystemExit 1)
      else
        match rev json_files with
        | after_file :: before_file :: _ =>
            let '(out, r) :=
              print_comparison (dir_read d) before_file after_file in
            (Comparing before_file after_file :: out,
             match r with
             | inl e => Traceback e
             | inr _ => Completed
             end)
        | _ => ([], Traceback (Exception "IndexError" "list index out of range"))
        end
  end.

End CompareResults.

(** The report of a comparison that shows no change, block by block in
    the order of printing: every metric has the same value on both sides
    and a change of zero; RMSE, correlation, MAE and average regret carry
    the label "regression", the three personalization metrics carry no
    label; the objective is the same on both sides, its change is zero and
    the verdict is NO SIGNIFICANT CHANGE. *)
Definition unchanged_report (out : list CompareResults.report_line) : Prop :=
  exists (rmse corr mae regret diversity overlap concentration : json)
         (c1 c2 c3 c4 c5 c6 c7 objective c : Q),
    Forall (fun change => change == 0) [c1; c2; c3; c4; c5; c6; c7; c] /\
    out =
    [ CompareResults.Heading "OPTIMIZATION VALIDATION RESULTS";
      CompareResults.Configuration_changes;
      CompareResults.Heading "ACCURACY METRICS";
      CompareResults.Metric "RMSE" rmse rmse c1
        (Some CompareResults.regression);
      CompareResults.Metric "Correlation" corr corr c2
        (Some CompareResults.regression);
      CompareResults.Metric "MAE" mae mae c3
        (Some CompareResults.regression);
      CompareResults.Heading "PERFORMANCE METRICS";
      CompareResults.Metric "Average Regret" regret regret c4
        (Some CompareResults.regression);
      CompareResults.Heading "PERSONALIZATION METRICS";
      CompareResults.Metric "Question Diversity" diversity diversity c5 None;
      CompareResults.Metric "Student Overlap" overlap overlap c6 None;
      CompareResults.Metric "Selection Concentration"
        concentration concentration c7 None;
      CompareResults.Heading "OVERALL ASSESSMENT";
      CompareResults.Objective_function objective objective c;
      CompareResults.Status CompareResults.NO_SIGNIFICANT_CHANGE ]%string.

(** The values the report reads below [modes.hybrid], in the order in
    which it reads them. *)
Definition report_lookups : list (json -> result json) :=
  [ (fun h => getitem h "rmse");
    (fun h => getitem h "correlation");
    (fun h => getitem h "mae");
    (fun h => CompareResults.getitem2 h "performance" "avgRegret");
    (fun h => CompareResults.getitem2 h "personalization" "questionDiversity");
    (fun h => CompareResults.getitem2 h "personalization" "studentOverlap");
    (fun h => CompareResults.getitem2 h "personalization" "selectionConcentration")
  ]%string.

(** What two files must provide for the seven metric blocks of the report
    to be printed: both parse and have a [modes.hybrid] section in which
    every value the report reads is a number and the baseline values, as
    read from the file, are not zero. *)
Definition comparable (read : string -> result json)
    (before_file after_file : string) : Prop :=
  exists before after bh ah,
    read before_file = inr before /\ read after_file = inr after /\
    CompareResults.getitem2 before "modes" "hybrid" = inr bh /\
    CompareResults.getitem2 after "modes" "hybrid" = inr ah /\
    Forall (fun look =>
              exists bv av b a,
                look bh = inr bv /\ look ah = inr av /\
                as_number bv = Some b /\ as_number av = Some a /\ ~ b == 0)
           report_lookups.

(** A results file with everything the comparison reads. *)
Definition testing_file (correlation rmse : Q) : json :=
  JObj [("modes",
         JObj [("hybrid",
                JObj [("correlation", JNum correlation); ("rmse", JNum rmse);
                      ("mae", JNum 0.5);
                      ("performance", JObj [("avgRegret", JNum 0.1)]);
                      ("personalization",
                       JObj [("questionDiversity", JNum 42);
                             ("studentOverlap", JNum 0.3);
                             ("selectionConcentration", JNum 1.5)])])])]%string.

(** A results directory with three files, the oldest listed last. *)
Definition three_results : CompareResults.results_directory :=
  CompareResults.ResultsDirectory
    (inr ["c.json"; "a.json"; "b.json"]%string)
    (fun p => inr (if String.eqb p "a.json" then 2
                   else if String.eqb p "b.json" then 3 else 1))
    (fun p => inr (if String.eqb p "b.json" then testing_file 0.8 0.70
                   else testing_file 0.5 0.70)).

(** The order [sorted] establishes: by modification time. *)
Definition key_le (x y : string * Q) : Prop := snd x <= snd y.

(** * Properties *)

(** ** Comparison of rationals as the interpreter evaluates it *)

Lemma Qgtb_true (a b : Q) : Qgtb a b = true <-> b < a.
Proof.
  unfold Qgtb. rewrite negb_true_iff, <- not_true_iff_false, Qle_bool_iff.
  split; [apply Qnot_le_lt | apply Qlt_not_le].
Qed.

Lemma Qgtb_false (a b : Q) : Qgtb a b = false <-> a <= b.
Proof.
  unfold Qgtb. rewrite negb_false_iff. apply Qle_bool_iff.
Qed.

Lemma Qltb_true (a b : Q) : Qltb a b = true <-> a < b.
Proof. unfold Qltb. apply (Qgtb_true b a). Qed.

Lemma Qopp_opp_eq (q : Q) : - - q = q.
Proof. destruct q as [n d]. unfold Qopp. simpl. now rewrite Z.opp_involutive. Qed.

(** ** Properties of the pure functions *)

Lemma py_max0_Qmax (x : Q) : py_max0 x == Qmax 0 x.
Proof.
  unfold py_max0. destruct (Qgtb x 0) eqn:E.
  - apply Qgtb_true in E. symmetry. apply Q.max_r. now apply Qlt_le_weak.
  - apply Qgtb_false in E. symmetry. now apply Q.max_l.
Qed.

Lemma rmse_penalty_below (rmse : Q) :
  rmse <= 0.75 -> rmse_penalty rmse = 0.
Proof.
  intros H. unfold rmse_penalty, py_max0.
  destruct (Qgtb _ 0) eqn:E; [|reflexivity].
  apply Qgtb_true in E. unfold RMSE_PENALTY_THRESHOLD in E. exfalso. lra.
Qed.

Lemma rmse_penalty_above (rmse : Q) :
  0.75 < rmse -> rmse_penalty rmse = (rmse - 0.75) * 2.0.
Proof.
  intros H. unfold rmse_penalty, py_max0.
  destruct (Qgtb _ 0) eqn:E; [reflexivity|].
  apply Qgtb_false in E. unfold RMSE_PENALTY_THRESHOLD in E. exfalso. lra.
Qed.

Lemma validate_config_iff (c : candidate) :
  validate_config c = true <-> phases_separated c /\ weights_increasing c.
Proof.
  unfold validate_config, phases_separated, weights_increasing.
  destruct (Z.leb_spec (phase2_end c) (phase1_end c + 3)).
  - split; [discriminate | intros [? _]; lia].
  - destruct (Qltb (initial_weight c) (phase1_target c)) eqn:E1;
    destruct (Qltb (phase1_target c) (phase2_target c)) eqn:E2;
    destruct (Qltb (phase2_target c) (max_weight c)) eqn:E3; simpl;
    try (split; [discriminate | intros (_ & ? & ? & ?)];
         rewrite <- ?Qltb_true in *; congruence).
    apply Qltb_true in E1, E2, E3. split; [intros _ | reflexivity].
    repeat split; [lia | assumption ..].
Qed.

(** C4: [validate_config] returns feasible exactly when both joint
    constraints hold, that is [phase2_end > phase1_end + 3] and
    [initial_weight < phase1_target < phase2_target < max_weight]; hence a
    candidate with [phase2_end <= phase1_end + 3] is infeasible whatever its
    other fields are, and so is one that breaks the strict chain. *)
Theorem validate_config_exact :
  forall iw p1 p2 t1 t2 mw,
    let c := Candidate iw p1 p2 t1 t2 mw in
    (validate_config c = true <->
       (p2 > p1 + 3)%Z /\ iw < t1 /\ t1 < t2 /\ t2 < mw) /\
    ((p2 <= p1 + 3)%Z -> validate_config c = false) /\
    (~ (iw < t1 /\ t1 < t2 /\ t2 < mw) -> validate_config c = false).
Proof.
  intros iw p1 p2 t1 t2 mw c.
  pose proof (validate_config_iff c) as H.
  unfold phases_separated, weights_increasing in H. simpl in H.
  split; [exact H|]. split; intros Hbad.
  - apply not_true_is_false. rewrite H. intros [? _]. lia.
  - apply not_true_is_false. rewrite H. intros [_ ?]. now apply Hbad.
Qed.

(** In exact arithmetic [calculate_objective] is
    [correlation*0.6 + (0.80 - rmse)*0.3 - max(0, (rmse - 0.75)*2.0)]; the
    penalty is [0] up to [rmse = 0.75], equals [2*(rmse - 0.75)] above it
    and is strictly increasing there; on the rationals written [1.0],
    [0.70] and [0.5], [0.90] the formula gives [0.63] and [-0.03]. *)
Lemma calculate_objective_exact :
  (forall correlation rmse,
      calculate_objective correlation rmse ==
      correlation * 0.6 + (0.80 - rmse) * 0.3 - Qmax 0 ((rmse - 0.75) * 2.0)) /\
  (forall correlation rmse,
      calculate_objective correlation rmse =
      correlation * 0.6 + (0.80 - rmse) * 0.3 - rmse_penalty rmse) /\
  (forall rmse, rmse_penalty rmse == Qmax 0 ((rmse - 0.75) * 2.0)) /\
  (forall rmse, rmse <= 0.75 -> rmse_penalty rmse = 0) /\
  (forall rmse, 0.75 < rmse -> rmse_penalty rmse == 2 * (rmse - 0.75)) /\
  (forall r1 r2, 0.75 < r1 -> r1 < r2 -> rmse_penalty r1 < rmse_penalty r2) /\
  calculate_objective 1.0 0.70 == 0.63 /\
  calculate_objective 0.5 0.90 == -0.03.
Proof.
  split.
  { intros c r. unfold calculate_objective, CORRELATION_WEIGHT, RMSE_WEIGHT,
      RMSE_PENALTY_THRESHOLD.
    now rewrite py_max0_Qmax. }
  split; [reflexivity|].
  split; [intros; apply py_max0_Qmax|].
  split; [exact rmse_penalty_below|].
  split; [intros r H; rewrite (rmse_penalty_above r H); lra|].
  split; [|split; reflexivity].
  intros r1 r2 H1 H2.
  rewrite (rmse_penalty_above r1 H1).
  rewrite (rmse_penalty_above r2) by lra. lra.
Qed.






(** ** [evaluate_config] never raises *)

Section EvaluateConfig.

Variable launch : candidate -> evaluation_env.
Variables (iw : Q) (p1 p2 : Z) (t1 t2 mw : Q).

Local Abbreviation env := (launch (Candidate iw p1 p2 t1 t2 mw)).
Local Abbreviation returned := (evaluate_config launch iw p1 p2 t1 t2 mw).

Lemma evaluate_config_handlers :
  match evaluate_config_try env with
  | inr d => returned = d
  | inl (TimeoutExpired _) => returned = failure_dict (JStr "Timeout")
  | inl (Exception _ msg) => returned = failure_dict (JStr msg)
  end.
Proof.
  unfold evaluate_config.
  destruct (evaluate_config_try env) as [[m|cls m]|d]; reflexivity.
Qed.

Lemma evaluate_config_success (correlation rmse mae regret : json) :
  evaluation_succeeds env correlation rmse mae regret ->
  returned = metrics_dict correlation rmse mae regret.
Proof.
  intros (p & files & latest & data & modes & hybrid & perf &
          Hrun & Hrc & Hglob & Hne & Hlatest & Hload &
          Hm & Hh & Hc & Hr & Ha & Hp & Hg).
  pose proof evaluate_config_handlers as H.
  unfold evaluate_config_try in H. rewrite Hrun in H. simpl in H.
  rewrite Hrc in H. simpl in H. rewrite Hglob in H. simpl in H.
  destruct files as [|f files']; [congruence|].
  rewrite Hlatest in H. simpl in H. rewrite Hload in H. simpl in H.
  rewrite Hm in H. simpl in H. rewrite Hh in H. simpl in H.
  rewrite Hc in H. simpl in H. rewrite Hr in H. simpl in H.
  rewrite Ha in H. simpl in H. rewrite Hp in H. simpl in H.
  rewrite Hg in H. simpl in H. exact H.
Qed.

Lemma evaluate_config_dichotomy :
  (exists error, returned = failure_dict error) \/
  (exists correlation rmse mae regret,
      evaluation_succeeds env correlation rmse mae regret /\
      returned = metrics_dict correlation rmse mae regret).
Proof.
  pose proof evaluate_config_handlers as H.
  unfold evaluate_config_try in H.
  destruct (subprocess_run env) as [e|p] eqn:Hrun; simpl in H;
    [destruct e; left; eexists; exact H|].
  destruct (returncode p =? 0)%Z eqn:Hrc; simpl in H;
    [|left; eexists; exact H].
  apply Z.eqb_eq in Hrc.
  destruct (glob_results env) as [e|files] eqn:Hglob; simpl in H;
    [destruct e; left; eexists; exact H|].
  destruct files as [|f files'] eqn:Hfiles; [left; eexists; exact H|].
  rewrite <- Hfiles in *.
  destruct (latest_by_mtime env files) as [e|latest] eqn:Hlatest; simpl in H;
    [destruct e; left; eexists; exact H|].
  destruct (load_json env latest) as [e|data] eqn:Hload; simpl in H;
    [destruct e; left; eexists; exact H|].
  destruct (getitem data "modes") as [e|modes] eqn:Hm; simpl in H;
    [destruct e; left; eexists; exact H|].
  destruct (getitem modes "hybrid") as [e|hybrid] eqn:Hh; simpl in H;
    [destruct e; left; eexists; exact H|].
  destruct (getitem hybrid "correlation") as [e|c] eqn:Hc; simpl in H;
    [destruct e; left; eexists; exact H|].
  destruct (getitem hybrid "rmse") as [e|r] eqn:Hr; simpl in H;
    [destruct e; left; eexists; exact H|].
  destruct (getitem hybrid "mae") as [e|a] eqn:Ha; simpl in H;
    [destruct e; left; eexists; exact H|].
  destruct (getitem hybrid "performance") as [e|perf] eqn:Hp; simpl in H;
    [destruct e; left; eexists; exact H|].
  destruct (getitem perf "avgRegret") as [e|g] eqn:Hg; simpl in H;
    [destruct e; left; eexists; exact H|].
  right. exists c, r, a, g. split; [|exact H].
  exists p, files, latest, data, modes, hybrid, perf.
  repeat split; try assumption. subst files. discriminate.
Qed.

(** C10: [evaluate_config] always returns a dictionary.  On every failure
    path (nonzero exit status, no matching result file, timeout, any
    other exception of the [try] block) it is the failure dictionary,
    with an ['error'] key, [correlation = 0.0] and [rmse = mae = regret =
    999.0]; on success it holds exactly the parsed [correlation], [rmse],
    [mae] and [performance.avgRegret] values and no ['error'] key. *)
Theorem evaluate_config_total :
  (* the two shapes of the returned dictionary *)
  ((exists error,
       returned = failure_dict error /\
       has_key "error" returned = true /\
       dict_get "correlation" returned = Some (JNum 0.0) /\
       dict_get "rmse" returned = Some (JNum 999.0) /\
       dict_get "mae" returned = Some (JNum 999.0) /\
       dict_get "regret" returned = Some (JNum 999.0)) \/
   (exists correlation rmse mae regret,
       evaluation_succeeds env correlation rmse mae regret /\
       returned = [("correlation", correlation); ("rmse", rmse);
                   ("mae", mae); ("regret", regret)]%string /\
       has_key "error" returned = false)) /\
  (* success gives the parsed values *)
  (forall correlation rmse mae regret,
      evaluation_succeeds env correlation rmse mae regret ->
      returned = metrics_dict correlation rmse mae regret) /\
  (* the named failure paths *)
  (forall p, subprocess_run env = inr p -> returncode p <> 0%Z ->
             returned = failure_dict (JStr (stderr p))) /\
  (forall p, subprocess_run env = inr p -> returncode p = 0%Z ->
             glob_results env = inr [] ->
             returned = failure_dict (JStr "No results file")) /\
  (forall msg, evaluate_config_try env = inl (TimeoutExpired msg) ->
               returned = failure_dict (JStr "Timeout")) /\
  (forall cls msg, evaluate_config_try env = inl (Exception cls msg) ->
                   returned = failure_dict (JStr msg)).
Proof.
  split; [|split; [|split; [|split; [|split]]]].
  - destruct evaluate_config_dichotomy as [[err H]|(c & r & a & g & Hs & H)].
    + left. exists err. rewrite H. repeat split.
    + right. exists c, r, a, g. rewrite H. repeat split. exact Hs.
  - exact evaluate_config_success.
  - intros p Hrun Hrc. pose proof evaluate_config_handlers as H.
    unfold evaluate_config_try in H. rewrite Hrun in H. simpl in H.
    apply Z.eqb_neq in Hrc. rewrite Hrc in H. exact H.
  - intros p Hrun Hrc Hglob. pose proof evaluate_config_handlers as H.
    unfold evaluate_config_try in H. rewrite Hrun in H. simpl in H.
    rewrite Hrc in H. simpl in H. rewrite Hglob in H. exact H.
  - intros msg Ht. pose proof evaluate_config_handlers as H.
    rewrite Ht in H. exact H.
  - intros cls msg Ht. pose proof evaluate_config_handlers as H.
    rewrite Ht in H. exact H.
Qed.

End EvaluateConfig.

(** ** The loop body in two halves *)

Lemma loop_body_unfold (patience : nat) (w : world) (i : nat) (s : loop_state) :
  loop_body patience w i s =
  match evaluate_with_objective (launch w i) (ask w (optimizer s)) with
  | (evs, inl e) => Raised e (emit s evs)
  | (evs, inr neg_objective) =>
      stop_or_checkpoint patience w i
        (record_trial i s (ask w (optimizer s)) evs neg_objective)
  end.
Proof.
  unfold loop_body, stop_or_checkpoint, record_trial.
  destruct (evaluate_with_objective _ _) as [evs [e|y]]; [reflexivity|].
  destruct (Qgtb (- y) (best_objective s)); reflexivity.
Qed.

Lemma same_locals_refl (s : loop_state) : same_locals s s.
Proof. repeat split. Qed.

Lemma same_locals_emit (s : loop_state) (evs : list event) :
  same_locals s (emit s evs).
Proof. repeat split. Qed.

Lemma save_results_cases (w : world) (k : nat) (ar : list trial)
    (bc : option candidate) (bm : option trial) :
  (exists e, write_results w k = Some e /\
             save_results w k ar bc bm = ([], inl e)) \/
  (exists rest, write_results w k = None /\
                save_results w k ar bc bm =
                (Wrote_results (snapshot_of ar bc bm) :: rest, inr tt)).
Proof.
  unfold save_results. destruct (write_results w k) as [e|].
  - left. now exists e.
  - right. destruct (write_plot w k); eexists; split; reflexivity.
Qed.

(** The outcomes of the second half of the body: the locals are those of
    the recorded trial, and the loop stops exactly when the counter has
    reached the patience. *)
Lemma stop_or_checkpoint_cases (patience : nat) (w : world) (i : nat)
    (s : loop_state) :
  ((patience <= no_improvement_count s)%nat /\
   stop_or_checkpoint patience w i s = Break (emit s [Printed Early_stopping])) \/
  ((no_improvement_count s < patience)%nat /\
   ((exists s', stop_or_checkpoint patience w i s = Continue s' /\
                same_locals s s' /\
                exists evs, trace s' = trace s ++ evs /\
                  (((i + 1) mod 10 = 0)%nat ->
                   exists rest, evs =
                     Wrote_results (snapshot_of (all_results s) (best_config s)
                                                (best_metrics s)) :: rest)) \/
    (exists e, stop_or_checkpoint patience w i s = Raised e s /\
               ((i + 1) mod 10 = 0)%nat /\
               write_results w (List.length (snapshots (trace s))) = Some e))).
Proof.
  unfold stop_or_checkpoint.
  destruct (Nat.leb_spec patience (no_improvement_count s)) as [Hle|Hlt];
    [left; split; [exact Hle | reflexivity]|].
  right. split; [exact Hlt|].
  destruct (Nat.eqb_spec ((i + 1) mod 10) 0) as [Hm|Hm].
  - destruct (save_results_cases w (List.length (snapshots (trace s)))
                (all_results s) (best_config s) (best_metrics s))
      as [(e & Hw & ->)|(rest & Hw & ->)].
    + right. exists e. split; [|split; assumption].
      f_equal. destruct s; unfold emit; simpl. now rewrite app_nil_r.
    + left. eexists. split; [reflexivity|]. split; [apply same_locals_emit|].
      eexists. split; [reflexivity|]. intros _. now exists rest.
  - left. exists s. split; [reflexivity|]. split; [apply same_locals_refl|].
    exists []. split; [now rewrite app_nil_r | intros; contradiction].
Qed.

(** ** The loop as a whole *)

(** Running [a + b] iterations is running [a] and then, unless the loop has
    ended, [b] more. *)
Lemma for_range_add (patience : nat) (w : world) (a b i : nat) (s : loop_state) :
  for_range patience w i (a + b) s =
  match for_range patience w i a s with
  | Finished STOPPED_BUDGET s' => for_range patience w (i + a) b s'
  | o => o
  end.
Proof.
  revert i s. induction a as [|a IH]; intros i s; simpl.
  - now rewrite Nat.add_0_r.
  - destruct (loop_body patience w i s) as [s'|s'|e s']; try reflexivity.
    rewrite IH. now rewrite Nat.add_succ_r.
Qed.

(** One more unit of budget adds at most one pass through the body. *)
Lemma optimization_loop_succ (patience : nat) (w : world) (n n_initial : nat) :
  optimization_loop patience w (S n) n_initial =
  match optimization_loop patience w n n_initial with
  | Finished STOPPED_BUDGET s =>
      match loop_body patience w n s with
      | Continue s' => Finished STOPPED_BUDGET s'
      | Break s' => Finished STOPPED_EARLY s'
      | Raised e s' => Crashed e s'
      end
  | o => o
  end.
Proof.
  unfold optimization_loop. replace (S n) with (n + 1)%nat by lia.
  rewrite for_range_add. simpl.
  destruct (for_range patience w 0 n (initial_state n_initial)) as [[|] s|e s];
    try reflexivity.
Qed.

(** Once the loop has ended early or crashed, more budget changes nothing. *)
Lemma optimization_loop_stable (patience : nat) (w : world) (k n n_initial : nat) :
  (k <= n)%nat ->
  match optimization_loop patience w k n_initial with
  | Finished STOPPED_BUDGET s =>
      optimization_loop patience w n n_initial = for_range patience w k (n - k) s
  | o => optimization_loop patience w n n_initial = o
  end.
Proof.
  intros Hle. unfold optimization_loop.
  pose proof (for_range_add patience w k (n - k) 0 (initial_state n_initial)) as E.
  replace (k + (n - k))%nat with n in E by lia. simpl in E.
  destruct (for_range patience w 0 k (initial_state n_initial)) as [[|] s|e s];
    exact E.
Qed.

(** ** Best-so-far tracking *)

Lemma best_tracking_same_locals (s s' : loop_state) :
  same_locals s s' -> best_tracking s -> best_tracking s'.
Proof.
  intros (Ho & Ha & Hb & Hc & Hm & Hn) H. unfold best_tracking.
  rewrite Ha, Hb, Hc, Hm, Hn. exact H.
Qed.

Lemma best_tracking_initial (n_initial : nat) :
  best_tracking (initial_state n_initial).
Proof. left. simpl. repeat split. constructor. Qed.

Lemma best_tracking_lower (s : loop_state) :
  best_tracking s -> -999.0 <= best_objective s.
Proof.
  intros [(_ & _ & -> & _)|(l1 & t & l2 & _ & _ & _ & -> & H & _)].
  - apply Qle_refl.
  - now apply Qlt_le_weak.
Qed.

Lemma best_tracking_upper (s : loop_state) :
  best_tracking s ->
  Forall (fun t => objective t <= best_objective s) (all_results s).
Proof.
  intros [(_ & _ & -> & H & _)|(l1 & t & l2 & -> & _ & _ & -> & _ & H1 & H2 & _)].
  - exact H.
  - apply Forall_app. split.
    + eapply Forall_impl; [|exact H1]. intros a. apply Qlt_le_weak.
    + constructor; [apply Qle_refl | exact H2].
Qed.

Lemma best_tracking_record_trial (i : nat) (s : loop_state) (c : candidate)
    (evs : list event) (y : Q) :
  best_tracking s -> best_tracking (record_trial i s c evs y).
Proof.
  intros H. unfold record_trial.
  destruct (Qgtb (- y) (best_objective s)) eqn:E.
  - apply Qgtb_true in E. right.
    exists (all_results s), (Trial (i + 1) c (- y) (validate_config c)), [].
    simpl. repeat split; try constructor.
    + eapply Qle_lt_trans; [apply (best_tracking_lower s H) | exact E].
    + eapply Forall_impl; [|apply (best_tracking_upper s H)].
      intros a Ha. simpl in Ha. eapply Qle_lt_trans; [exact Ha | exact E].
  - apply Qgtb_false in E.
    destruct H as [(Hc & Hm & Hb & Hall & Hn)
                  |(l1 & t & l2 & Ha & Hm & Hc & Hb & Hlow & H1 & H2 & Hn)].
    + left. simpl. rewrite Hb in E. repeat split; try assumption.
      * apply Forall_app. split; [exact Hall|]. now constructor.
      * rewrite length_app, Hn. reflexivity.
    + right. exists l1, t, (l2 ++ [Trial (i + 1) c (- y) (validate_config c)]).
      simpl. rewrite Hb in E. repeat split; try assumption.
      * rewrite Ha, <- app_assoc. reflexivity.
      * apply Forall_app. split; [exact H2|]. now constructor.
      * rewrite length_app, Hn. reflexivity.
Qed.

Lemma record_trial_monotone (i : nat) (s : loop_state) (c : candidate)
    (evs : list event) (y : Q) :
  best_objective s <= best_objective (record_trial i s c evs y) /\
  (best_config s <> None -> best_config (record_trial i s c evs y) <> None).
Proof.
  unfold record_trial. destruct (Qgtb (- y) (best_objective s)) eqn:E; simpl.
  - apply Qgtb_true in E. split; [now apply Qlt_le_weak | discriminate].
  - split; [apply Qle_refl | trivial].
Qed.

(** A pass through the body either leaves the locals alone (the evaluation
    raised) or records one trial. *)
Lemma loop_body_locals (patience : nat) (w : world) (i : nat) (s : loop_state) :
  same_locals s (state_of (loop_body patience w i s)) \/
  exists evs y,
    evaluate_with_objective (launch w i) (ask w (optimizer s)) = (evs, inr y) /\
    same_locals (record_trial i s (ask w (optimizer s)) evs y)
                (state_of (loop_body patience w i s)).
Proof.
  rewrite loop_body_unfold.
  destruct (evaluate_with_objective _ _) as [evs [e|y]].
  - left. apply same_locals_emit.
  - right. exists evs, y. split; [reflexivity|].
    destruct (stop_or_checkpoint_cases patience w i
                (record_trial i s (ask w (optimizer s)) evs y))
      as [[_ ->]|[_ [(s' & -> & Hs & _)|(e & -> & _)]]]; simpl.
    + apply same_locals_emit.
    + exact Hs.
    + apply same_locals_refl.
Qed.

Lemma loop_body_best_tracking (patience : nat) (w : world) (i : nat)
    (s : loop_state) :
  best_tracking s -> best_tracking (state_of (loop_body patience w i s)).
Proof.
  intros H. destruct (loop_body_locals patience w i s) as [Hs|(evs & y & _ & Hs)].
  - exact (best_tracking_same_locals _ _ Hs H).
  - eapply best_tracking_same_locals; [exact Hs|].
    now apply best_tracking_record_trial.
Qed.

Lemma loop_body_monotone (patience : nat) (w : world) (i : nat) (s : loop_state) :
  best_objective s <= best_objective (state_of (loop_body patience w i s)) /\
  (best_config s <> None ->
   best_config (state_of (loop_body patience w i s)) <> None).
Proof.
  destruct (loop_body_locals patience w i s)
    as [(_ & _ & Hb & Hc & _)|(evs & y & _ & (_ & _ & Hb & Hc & _))];
    rewrite Hb, Hc.
  - split; [apply Qle_refl | trivial].
  - apply record_trial_monotone.
Qed.

(** The final state with one more unit of budget is the same state or the
    result of one more pass through the body. *)
Lemma final_state_succ (patience : nat) (w : world) (n n_initial : nat) :
  let s := final_state (optimization_loop patience w n n_initial) in
  let s' := final_state (optimization_loop patience w (S n) n_initial) in
  s' = s \/ s' = state_of (loop_body patience w n s).
Proof.
  simpl. rewrite optimization_loop_succ.
  destruct (optimization_loop patience w n n_initial) as [[|] s|e s]; simpl;
    try (now left).
  right. destruct (loop_body patience w n s); reflexivity.
Qed.

Lemma optimization_loop_best_tracking (patience : nat) (w : world)
    (n n_initial : nat) :
  best_tracking (final_state (optimization_loop patience w n n_initial)).
Proof.
  induction n as [|n IH].
  - apply best_tracking_initial.
  - destruct (final_state_succ patience w n n_initial) as [-> | ->].
    + exact IH.
    + now apply loop_body_best_tracking.
Qed.

(** ** Monotone best-so-far *)

(** C9, as stated, fails in its last part: after one penalised trial the
    running best [-999.0] is the maximum and the first trial attains it, yet
    [best_config] is [None], not that trial's candidate. *)
Lemma best_config_unset_at_maximum :
  exists t,
    all_results (final_state (run_optimization infeasible_world 1 25)) = [t] /\
    best_objective (final_state (run_optimization infeasible_world 1 25))
      = objective t /\
    is_maximum (objective t) [-999.0; objective t] /\
    best_config (final_state (run_optimization infeasible_world 1 25)) = None /\
    best_config (final_state (run_optimization infeasible_world 1 25))
      <> Some (params t).
Proof.
  eexists. split; [vm_compute; reflexivity|]. simpl.
  split; [reflexivity|]. split; [|split; [reflexivity | discriminate]].
  split; [right; left; reflexivity|].
  repeat constructor; discriminate.
Qed.

(** C9, amended: the running best never decreases from one iteration to
    the next, [best_config] once set is never reset to [None], and after
    every iteration [best_objective] is the maximum of [-999.0] and the
    objectives of all trials recorded so far; [best_config] is [None] as
    long as no trial's objective exceeds [-999.0], and otherwise it is the
    candidate of the first trial that attains the maximum.  The state after
    [n] iterations is the final state of the loop run with budget [n]. *)
Theorem best_so_far_monotone :
  forall (w : world) (n n_initial : nat),
    best_objective (final_state (run_optimization w n n_initial))
      <= best_objective (final_state (run_optimization w (S n) n_initial)) /\
    (best_config (final_state (run_optimization w n n_initial)) <> None ->
     best_config (final_state (run_optimization w (S n) n_initial)) <> None) /\
    is_maximum
      (best_objective (final_state (run_optimization w n n_initial)))
      (-999.0 :: map objective
                     (all_results (final_state (run_optimization w n n_initial)))) /\
    ((best_config (final_state (run_optimization w n n_initial)) = None /\
      Forall (fun t => objective t <= -999.0)
             (all_results (final_state (run_optimization w n n_initial))))
     \/
     (exists before t after,
         all_results (final_state (run_optimization w n n_initial))
           = before ++ t :: after /\
         best_config (final_state (run_optimization w n n_initial))
           = Some (params t) /\
         objective t
           = best_objective (final_state (run_optimization w n n_initial)) /\
         -999.0 < objective t /\
         Forall (fun t' => objective t' < objective t) before)).
Proof.
  intros w n n_initial. unfold run_optimization.
  pose proof (optimization_loop_best_tracking EARLY_STOP_PATIENCE w n n_initial)
    as Hinv.
  pose proof (final_state_succ EARLY_STOP_PATIENCE w n n_initial) as Hsucc.
  simpl in Hsucc.
  set (s := final_state (optimization_loop EARLY_STOP_PATIENCE w n n_initial)) in *.
  set (s' := final_state (optimization_loop EARLY_STOP_PATIENCE w (S n) n_initial)) in *.
  assert (Hmono : best_objective s <= best_objective s' /\
                  (best_config s <> None -> best_config s' <> None)).
  { destruct Hsucc as [-> | ->].
    - split; [apply Qle_refl | trivial].
    - apply loop_body_monotone. }
  destruct Hmono as [Hm1 Hm2].
  split; [exact Hm1|]. split; [exact Hm2|]. split.
  - split.
    + destruct Hinv as [(_ & _ & -> & _)
                       |(l1 & t & l2 & Ha & _ & _ & -> & _)].
      * left. reflexivity.
      * right. rewrite Ha. apply in_map_iff. exists t. split; [reflexivity|].
        apply in_or_app. right. left. reflexivity.
    + constructor; [apply (best_tracking_lower s Hinv)|].
      apply Forall_map. apply (best_tracking_upper s Hinv).
  - destruct Hinv as [(Hc & _ & _ & Hall & _)
                     |(l1 & t & l2 & Ha & _ & Hc & Hb & Hlow & H1 & _)].
    + left. split; assumption.
    + right. exists l1, t, l2. repeat split; try assumption. now symmetry.
Qed.

(** ** Early stopping *)

Lemma record_trial_improved (i : nat) (s : loop_state) (c : candidate)
    (evs : list event) (y : Q) :
  best_objective s < - y ->
  record_trial i s c evs y =
  LoopState (tell (optimizer s) c y)
            (all_results s ++ [Trial (i + 1) c (- y) (validate_config c)])
            (- y) (Some c)
            (Some (Trial (i + 1) c (- y) (validate_config c))) 0
            (trace s ++ evs ++ [Printed (New_best (- y))]).
Proof.
  intros H. apply Qgtb_true in H. unfold record_trial. now rewrite H.
Qed.

Lemma record_trial_not_improved (i : nat) (s : loop_state) (c : candidate)
    (evs : list event) (y : Q) :
  - y <= best_objective s ->
  record_trial i s c evs y =
  LoopState (tell (optimizer s) c y)
            (all_results s ++ [Trial (i + 1) c (- y) (validate_config c)])
            (best_objective s) (best_config s) (best_metrics s)
            (no_improvement_count s + 1) (trace s ++ evs).
Proof.
  intros H. apply Qgtb_false in H. unfold record_trial. now rewrite H.
Qed.

Lemma record_trial_results (i : nat) (s : loop_state) (c : candidate)
    (evs : list event) (y : Q) :
  all_results (record_trial i s c evs y) =
    all_results s ++ [Trial (i + 1) c (- y) (validate_config c)] /\
  optimizer (record_trial i s c evs y) = tell (optimizer s) c y /\
  (no_improvement_count (record_trial i s c evs y)
     <= no_improvement_count s + 1)%nat.
Proof.
  unfold record_trial. destruct (Qgtb (- y) (best_objective s)); simpl;
    repeat split; lia.
Qed.

(** Every way a pass through the body can end. *)
Lemma loop_body_cases (patience : nat) (w : world) (i : nat) (s : loop_state) :
  match evaluate_with_objective (launch w i) (ask w (optimizer s)) with
  | (evs, inl e) => loop_body patience w i s = Raised e (emit s evs)
  | (evs, inr y) =>
      let s1 := record_trial i s (ask w (optimizer s)) evs y in
      ((patience <= no_improvement_count s1)%nat /\
       loop_body patience w i s = Break (emit s1 [Printed Early_stopping])) \/
      ((no_improvement_count s1 < patience)%nat /\
       ((exists s', loop_body patience w i s = Continue s' /\
                    same_locals s1 s' /\
                    exists evs', trace s' = trace s1 ++ evs' /\
                      (((i + 1) mod 10 = 0)%nat ->
                       exists rest, evs' =
                         Wrote_results (snapshot_of (all_results s1)
                                          (best_config s1) (best_metrics s1))
                         :: rest)) \/
        (exists e, loop_body patience w i s = Raised e s1 /\
                   ((i + 1) mod 10 = 0)%nat /\
                   write_results w (List.length (snapshots (trace s1))) = Some e)))
  end.
Proof.
  rewrite loop_body_unfold.
  destruct (evaluate_with_objective _ _) as [evs [e|y]]; [reflexivity|].
  apply stop_or_checkpoint_cases.
Qed.

(** The shape of every run: a run that exhausts its budget made [n_iter]
    passes and its counter is below the patience; a run that stopped early
    or crashed did so in the pass that followed a shorter run that
    exhausted its budget. *)
Lemma optimization_loop_shape (patience : nat) (w : world) (n n_initial : nat) :
  match optimization_loop patience w n n_initial with
  | Finished STOPPED_BUDGET s =>
      List.length (all_results s) = n /\
      (n = 0%nat \/ (no_improvement_count s < patience)%nat)
  | Finished STOPPED_EARLY s =>
      exists k s_k,
        (k < n)%nat /\
        optimization_loop patience w k n_initial = Finished STOPPED_BUDGET s_k /\
        loop_body patience w k s_k = Break s
  | Crashed e s =>
      exists k s_k,
        (k < n)%nat /\
        optimization_loop patience w k n_initial = Finished STOPPED_BUDGET s_k /\
        loop_body patience w k s_k = Raised e s
  end.
Proof.
  induction n as [|n IH].
  - simpl. split; [reflexivity | now left].
  - rewrite optimization_loop_succ.
    destruct (optimization_loop patience w n n_initial) as [[|] s|e s] eqn:En.
    + destruct IH as (k & s_k & Hk & Hrun & Hbody).
      exists k, s_k. repeat split; [lia | assumption ..].
    + destruct IH as [Hlen _].
      pose proof (loop_body_cases patience w n s) as Hc.
      destruct (evaluate_with_objective _ _) as [evs [e|y]].
      * rewrite Hc. exists n, s. repeat split; [lia | assumption ..].
      * destruct Hc as [[_ Hb]|[Hlt [(s' & Hb & Hs & _)|(e & Hb & _)]]];
          rewrite Hb.
        -- exists n, s. repeat split; [lia | assumption ..].
        -- destruct Hs as (_ & Ha & _ & _ & _ & Hn).
           rewrite Ha, Hn.
           destruct (record_trial_results n s (ask w (optimizer s)) evs y)
             as (-> & _ & _).
           rewrite length_app, Hlen. simpl. split; [lia | now right].
        -- exists n, s. repeat split; [lia | assumption ..].
    + destruct IH as (k & s_k & Hk & Hrun & Hbody).
      exists k, s_k. repeat split; [lia | assumption ..].
Qed.


(** What one pass does to the best-so-far and to the counter, and when it
    leaves the loop. *)
Lemma loop_body_counter (patience : nat) (w : world) (i : nat) (s : loop_state)
    (evs : list event) (y : Q) :
  evaluate_with_objective (launch w i) (ask w (optimizer s)) = (evs, inr y) ->
  let c := ask w (optimizer s) in
  let entry := Trial (i + 1) c (- y) (validate_config c) in
  let s1 := state_of (loop_body patience w i s) in
  all_results s1 = all_results s ++ [entry] /\
  (best_objective s < - y ->
   best_objective s1 = - y /\ best_config s1 = Some c /\
   best_metrics s1 = Some entry /\ no_improvement_count s1 = 0%nat) /\
  (- y <= best_objective s ->
   best_objective s1 = best_objective s /\ best_config s1 = best_config s /\
   best_metrics s1 = best_metrics s /\
   no_improvement_count s1 = (no_improvement_count s + 1)%nat) /\
  ((patience <= no_improvement_count s1)%nat <->
   exists s', loop_body patience w i s = Break s').
Proof.
  intros He c entry s1.
  destruct (loop_body_locals patience w i s) as [Hs|(evs' & y' & He' & Hs)].
  - exfalso. pose proof (loop_body_cases patience w i s) as Hc.
    rewrite He in Hc. simpl in Hc.
    destruct (record_trial_results i s (ask w (optimizer s)) evs y)
      as (Hr & _ & _).
    assert (Hl : same_locals (record_trial i s (ask w (optimizer s)) evs y)
                             (state_of (loop_body patience w i s))).
    { destruct Hc as [[_ ->]|[_ [(s' & -> & Hs' & _)|(e & -> & _)]]]; simpl;
        [apply same_locals_emit | exact Hs' | apply same_locals_refl]. }
    destruct Hs as (_ & Ha & _). destruct Hl as (_ & Ha' & _).
    rewrite Ha' in Ha. rewrite Hr in Ha.
    apply (f_equal (@List.length trial)) in Ha. rewrite length_app in Ha.
    simpl in Ha. lia.
  - rewrite He in He'. injection He' as <- <-.
    destruct Hs as (Ho & Ha & Hb & Hc & Hm & Hn). fold s1 in Ho, Ha, Hb, Hc, Hm, Hn.
    rewrite Ha, Hb, Hc, Hm, Hn.
    split; [apply record_trial_results|].
    split; [intros H; rewrite (record_trial_improved i s _ evs y H);
            repeat split|].
    split; [intros H; rewrite (record_trial_not_improved i s _ evs y H);
            repeat split|].
    pose proof (loop_body_cases patience w i s) as Hcase.
    rewrite He in Hcase. simpl in Hcase.
    destruct Hcase as [[Hle Hbr]|[Hlt [(s' & Hbr & _)|(e & Hbr & _)]]].
    + split; [intros _; eexists; exact Hbr | intros _; exact Hle].
    + split; [lia | intros [s'' H]; congruence].
    + split; [lia | intros [s'' H]; congruence].
Qed.


(** ** What the surrogate is told *)

Lemma evaluate_with_objective_infeasible (launch : candidate -> evaluation_env)
    (c : candidate) :
  validate_config c = false ->
  evaluate_with_objective launch c = ([Printed Invalid_config], inr 999.0).
Proof. intros H. unfold evaluate_with_objective. now rewrite H. Qed.

Lemma evaluate_with_objective_failed (launch : candidate -> evaluation_env)
    (c : candidate) :
  validate_config c = true ->
  has_key "error" (evaluation_of launch c) = true ->
  evaluate_with_objective launch c =
  ([Called_evaluate_config c;
    Printed (Evaluation_failed (dict_get "error" (evaluation_of launch c)))],
   inr 999.0).
Proof.
  intros Hv He. unfold evaluate_with_objective. rewrite Hv. simpl.
  unfold evaluation_of in He. now rewrite He.
Qed.

Lemma evaluate_with_objective_scored (launch : candidate -> evaluation_env)
    (c : candidate) (correlation rmse mae regret : json) (corr r : Q) :
  validate_config c = true ->
  evaluation_of launch c = metrics_dict correlation rmse mae regret ->
  as_number correlation = Some corr ->
  as_number rmse = Some r ->
  evaluate_with_objective launch c =
  ([Called_evaluate_config c; Called_calculate_objective correlation rmse],
   inr (- calculate_objective corr r)).
Proof.
  intros Hv He Hc Hr. unfold evaluate_with_objective. rewrite Hv. simpl.
  unfold evaluation_of in He. rewrite He. simpl.
  unfold calculate_objective_on. now rewrite Hc, Hr.
Qed.

Lemma evaluate_with_objective_not_scored (launch : candidate -> evaluation_env)
    (c : candidate) :
  not_scored launch c ->
  exists evs,
    evaluate_with_objective launch c = (evs, inr 999.0) /\
    (forall a b, ~ In (Called_calculate_objective a b) evs) /\
    (validate_config c = false -> forall c', ~ In (Called_evaluate_config c') evs).
Proof.
  intros H. destruct (validate_config c) eqn:Hv.
  - destruct H as [H|H]; [congruence|].
    eexists. split; [now apply evaluate_with_objective_failed|].
    split; [|discriminate].
    intros a b [Hin|[Hin|[]]]; discriminate.
  - eexists. split; [now apply evaluate_with_objective_infeasible|].
    split; [intros a b [Hin|[]]; discriminate|].
    intros _ c' [Hin|[]]; discriminate.
Qed.

(** C2, as stated, fails in its last part: for the infeasible candidate of
    [infeasible_world] the recorded objective is [-999.0] and the
    surrogate is told [999.0], which is not [-999.0]. *)
Lemma surrogate_told_positive_penalty :
  validate_config infeasible_candidate = false /\
  observations (optimizer (final_state (run_optimization infeasible_world 1 25)))
    = [(infeasible_candidate, 999.0)] /\
  map objective (all_results (final_state (run_optimization infeasible_world 1 25)))
    = [-999.0] /\
  ~ 999.0 == -999.0.
Proof.
  split; [reflexivity|]. split; [reflexivity|]. split; [reflexivity|].
  intros H. unfold Qeq in H. simpl in H. discriminate H.
Qed.

(** C2, amended: in every iteration the value passed to [tell] is the
    negation of the objective recorded for that iteration's candidate; for
    an infeasible candidate and for one whose evaluation fails the value
    passed to [tell] is the fixed penalty [999.0], the recorded objective
    is its negation [-999.0], and [calculate_objective] is not called (nor
    is the evaluator, for an infeasible candidate); a candidate that is
    scored is told the negation of [calculate_objective]. *)
Theorem tell_negated_objective :
  forall (patience : nat) (w : world) (i : nat) (s : loop_state),
    (forall evs y,
        evaluate_with_objective (launch w i) (ask w (optimizer s)) = (evs, inr y) ->
        observations (optimizer (state_of (loop_body patience w i s)))
          = observations (optimizer s) ++ [(ask w (optimizer s), y)] /\
        exists t,
          all_results (state_of (loop_body patience w i s))
            = all_results s ++ [t] /\
          params t = ask w (optimizer s) /\
          y = - objective t) /\
    (not_scored (launch w i) (ask w (optimizer s)) ->
     exists evs,
       evaluate_with_objective (launch w i) (ask w (optimizer s))
         = (evs, inr PENALTY) /\
       (forall a b, ~ In (Called_calculate_objective a b) evs) /\
       (validate_config (ask w (optimizer s)) = false ->
        forall c', ~ In (Called_evaluate_config c') evs) /\
       observations (optimizer (state_of (loop_body patience w i s)))
         = observations (optimizer s) ++ [(ask w (optimizer s), 999.0)] /\
       all_results (state_of (loop_body patience w i s))
         = all_results s
             ++ [Trial (i + 1) (ask w (optimizer s)) (- PENALTY)
                       (validate_config (ask w (optimizer s)))]) /\
    (forall correlation rmse mae regret corr r,
        validate_config (ask w (optimizer s)) = true ->
        evaluation_of (launch w i) (ask w (optimizer s))
          = metrics_dict correlation rmse mae regret ->
        as_number correlation = Some corr ->
        as_number rmse = Some r ->
        observations (optimizer (state_of (loop_body patience w i s)))
          = observations (optimizer s)
              ++ [(ask w (optimizer s), - calculate_objective corr r)]).
Proof.
  intros patience w i s.
  assert (Htold : forall evs y,
    evaluate_with_objective (launch w i) (ask w (optimizer s)) = (evs, inr y) ->
    observations (optimizer (state_of (loop_body patience w i s)))
      = observations (optimizer s) ++ [(ask w (optimizer s), y)] /\
    all_results (state_of (loop_body patience w i s))
      = all_results s ++ [Trial (i + 1) (ask w (optimizer s)) (- y)
                                (validate_config (ask w (optimizer s)))]).
  { intros evs y He.
    destruct (loop_body_counter patience w i s evs y He) as (Ha & _).
    split; [|exact Ha].
    destruct (loop_body_locals patience w i s) as [Hs|(evs' & y' & He' & Hs)].
    - exfalso. destruct Hs as (_ & Ha' & _). rewrite Ha' in Ha.
      apply (f_equal (@List.length trial)) in Ha. rewrite length_app in Ha.
      simpl in Ha. lia.
    - rewrite He in He'. injection He' as <- <-.
      destruct Hs as (-> & _).
      destruct (record_trial_results i s (ask w (optimizer s)) evs y)
        as (_ & -> & _). reflexivity. }
  split; [|split].
  - intros evs y He. destruct (Htold evs y He) as [Ho Ha].
    split; [exact Ho|]. eexists. split; [exact Ha|]. simpl.
    split; [reflexivity | now rewrite Qopp_opp_eq].
  - intros Hns.
    destruct (evaluate_with_objective_not_scored _ _ Hns) as (evs & He & Hc & Hv).
    exists evs. destruct (Htold evs _ He) as [Ho Ha].
    repeat split; assumption.
  - intros correlation rmse mae regret corr r Hv Hd Hc Hr.
    exact (proj1 (Htold _ _ (evaluate_with_objective_scored
                               _ _ _ _ _ _ _ _ Hv Hd Hc Hr))).
Qed.

(** ** A run in which no candidate is scored *)

Lemma penalised_locals_same (w : world) (n_initial k : nat) (s s' : loop_state) :
  same_locals s s' -> penalised_locals w n_initial k s ->
  penalised_locals w n_initial k s'.
Proof.
  intros (Ho & Ha & Hb & Hc & Hm & Hn). unfold penalised_locals.
  now rewrite Ho, Ha, Hb, Hc, Hm, Hn.
Qed.

Lemma penalised_locals_record (w : world) (n_initial k : nat) (s : loop_state)
    (evs : list event) :
  penalised_locals w n_initial k s ->
  penalised_locals w n_initial (S k)
    (record_trial k s (ask w (optimizer s)) evs 999.0).
Proof.
  intros (Ho & Ha & Hb & Hc & Hm & Hn).
  rewrite record_trial_not_improved by (rewrite Hb; discriminate).
  unfold penalised_locals. simpl.
  rewrite Ho, Hb, Hc, Hm, Hn, length_app, Ha. simpl.
  repeat split; lia.
Qed.

Section AllPenalised.

Variables (patience : nat) (w : world) (n_initial : nat).
Hypothesis patience_positive : (0 < patience)%nat.

(** With every candidate unscored, the loop makes [min n patience]
    passes: it exhausts a budget below the patience and stops early
    otherwise, unless a checkpoint could not be written. *)
Lemma penalised_run (n : nat) :
  (forall i, (i < Nat.min n patience)%nat ->
             not_scored (launch w i) (penalised_candidate w n_initial i)) ->
  match optimization_loop patience w n n_initial with
  | Finished STOPPED_BUDGET s =>
      (n < patience)%nat /\ penalised_locals w n_initial n s
  | Finished STOPPED_EARLY s =>
      (patience <= n)%nat /\ penalised_locals w n_initial patience s
  | Crashed e s =>
      exists k j, (k <= Nat.min n patience)%nat /\
                  penalised_locals w n_initial k s /\
                  write_results w j = Some e
  end.
Proof.
  induction n as [|n IH]; intros Hall.
  - simpl. split; [exact patience_positive | repeat split].
  - assert (IH' := IH (fun i Hi => Hall i ltac:(lia))). clear IH.
    rewrite optimization_loop_succ.
    destruct (optimization_loop patience w n n_initial) as [[|] s|e s].
    + destruct IH' as [Hle Hloc]. split; [lia | exact Hloc].
    + destruct IH' as [Hlt Hloc].
      assert (Hns : not_scored (launch w n) (ask w (optimizer s))).
      { destruct Hloc as (-> & _). apply Hall. lia. }
      destruct (evaluate_with_objective_not_scored _ _ Hns) as (evs & He & _).
      pose proof (loop_body_cases patience w n s) as Hc.
      rewrite He in Hc. simpl in Hc.
      pose proof (penalised_locals_record w n_initial n s evs Hloc) as Hloc'.
      assert (Hcnt := Hloc'). destruct Hcnt as (_ & _ & _ & _ & _ & Hcnt).
      destruct Hc as [[Hle ->]|[Hlt' [(s' & -> & Hs & _)|(e & -> & _ & Hw)]]].
      * rewrite Hcnt in Hle. assert (patience = S n) as -> by lia.
        split; [lia|].
        eapply penalised_locals_same; [apply same_locals_emit | exact Hloc'].
      * rewrite Hcnt in Hlt'. split; [exact Hlt'|].
        eapply penalised_locals_same; [exact Hs | exact Hloc'].
      * eexists (S n), _. split; [lia|]. split; [exact Hloc' | exact Hw].
    + destruct IH' as (k & j & Hk & Hloc & Hw).
      exists k, j. split; [lia|]. split; assumption.
Qed.

End AllPenalised.

(** Saving at the end of [main], when the file can be written. *)
Lemma main_returns (w : world) (n_iter n_initial : nat) (how : stop_reason)
    (s : loop_state) :
  run_optimization w n_iter n_initial = Finished how s ->
  write_results w (List.length (snapshots (trace s))) = None ->
  exists rest,
    save_results w (List.length (snapshots (trace s))) (all_results s)
                 (best_config s) (best_metrics s)
      = (Wrote_results (snapshot_of (all_results s) (best_config s)
                                    (best_metrics s)) :: rest, inr tt) /\
    main w n_iter n_initial =
    match best_config s with
    | Some c =>
        match best_metrics s with
        | Some t =>
            Returned (emit (emit s (Wrote_results
                                      (snapshot_of (all_results s) (best_config s)
                                                   (best_metrics s)) :: rest))
                           [Printed (Best_configuration_found c (objective t))])
        | None =>
            Uncaught (TypeError "'NoneType' object is not subscriptable")
                     (emit s (Wrote_results
                                (snapshot_of (all_results s) (best_config s)
                                             (best_metrics s)) :: rest))
        end
    | None =>
        Returned (emit (emit s (Wrote_results
                                  (snapshot_of (all_results s) (best_config s)
                                               (best_metrics s)) :: rest))
                       [Printed No_valid_configuration_found])
    end.
Proof.
  intros Hrun Hw. unfold main. rewrite Hrun.
  destruct (save_results_cases w (List.length (snapshots (trace s)))
              (all_results s) (best_config s) (best_metrics s))
    as [(e & Hw' & _)|(rest & _ & Hsave)]; [congruence|].
  exists rest. split; [exact Hsave|]. rewrite Hsave. reflexivity.
Qed.

(** C1, as stated, fails: with the default budget of 150 and every
    candidate infeasible, the counter reaches the patience of 25 in
    iteration 25, and the loop stops early there, with 125 iterations of
    the budget left. *)
Lemma all_infeasible_stops_early :
  (forall i, not_scored (launch infeasible_world i)
                        (penalised_candidate infeasible_world DEFAULT_N_INITIAL i)) /\
  exists s,
    run_optimization infeasible_world DEFAULT_N_ITER DEFAULT_N_INITIAL
      = Finished STOPPED_EARLY s /\
    List.length (all_results s) = 25%nat /\
    (List.length (all_results s) < DEFAULT_N_ITER)%nat /\
    In (Printed Early_stopping) (trace s) /\
    best_config s = None.
Proof.
  split; [intros i; left; reflexivity|].
  eexists. split; [vm_compute; reflexivity|]. simpl.
  split; [reflexivity|]. split; [unfold DEFAULT_N_ITER; lia|].
  split; [|reflexivity].
  repeat (first [left; reflexivity | right]).
Qed.

(** C1, amended: if every iteration that runs produces a candidate that is
    infeasible or whose evaluation fails, then best-so-far stays unset
    ([best_config] is [None]); the loop makes [min n_iter 25] iterations,
    ending by exhaustion of the budget when [n_iter < 25] and by early
    stopping when [n_iter >= 25]; and, the results files being writable,
    [main] returns after printing "No valid configuration found!". *)
Theorem all_penalised_outcome :
  forall (w : world) (n_iter n_initial : nat),
    (forall i, (i < Nat.min n_iter EARLY_STOP_PATIENCE)%nat ->
               not_scored (launch w i) (penalised_candidate w n_initial i)) ->
    best_config (final_state (run_optimization w n_iter n_initial)) = None /\
    best_metrics (final_state (run_optimization w n_iter n_initial)) = None /\
    ((forall k, write_results w k = None) ->
     exists s written,
       run_optimization w n_iter n_initial
         = Finished (if (n_iter <? EARLY_STOP_PATIENCE)%nat
                     then STOPPED_BUDGET else STOPPED_EARLY) s /\
       List.length (all_results s) = Nat.min n_iter EARLY_STOP_PATIENCE /\
       main w n_iter n_initial
         = Returned (emit (emit s written)
                          [Printed No_valid_configuration_found])).
Proof.
  intros w n_iter n_initial Hall.
  assert (Hpos : (0 < EARLY_STOP_PATIENCE)%nat) by (unfold EARLY_STOP_PATIENCE; lia).
  pose proof (penalised_run EARLY_STOP_PATIENCE w n_initial Hpos n_iter Hall) as H.
  unfold run_optimization at 1 2.
  destruct (optimization_loop EARLY_STOP_PATIENCE w n_iter n_initial)
    as [[|] s|e s] eqn:Hrun; simpl.
  - destruct H as (Hle & _ & Hlen & _ & Hc & Hm & _).
    split; [exact Hc|]. split; [exact Hm|]. intros Hw.
    destruct (main_returns w n_iter n_initial _ s Hrun (Hw _))
      as (rest & _ & Hmain).
    rewrite Hc in Hmain. eexists s, _.
    split; [|split; [|exact Hmain]].
    + unfold run_optimization. rewrite Hrun.
      destruct (Nat.ltb_spec n_iter EARLY_STOP_PATIENCE); [lia | reflexivity].
    + rewrite Hlen. lia.
  - destruct H as (Hlt & _ & Hlen & _ & Hc & Hm & _).
    split; [exact Hc|]. split; [exact Hm|]. intros Hw.
    destruct (main_returns w n_iter n_initial _ s Hrun (Hw _))
      as (rest & _ & Hmain).
    rewrite Hc in Hmain. eexists s, _.
    split; [|split; [|exact Hmain]].
    + unfold run_optimization. rewrite Hrun.
      destruct (Nat.ltb_spec n_iter EARLY_STOP_PATIENCE); [reflexivity | lia].
    + rewrite Hlen. lia.
  - destruct H as (k & j & _ & (_ & _ & _ & Hc & Hm & _) & Hj).
    split; [exact Hc|]. split; [exact Hm|]. intros Hw.
    rewrite Hw in Hj. discriminate.
Qed.

Lemma all_penalised_outcome_witness :
  (forall i, (i < Nat.min 150 EARLY_STOP_PATIENCE)%nat ->
             not_scored (launch infeasible_world i)
                        (penalised_candidate infeasible_world 25 i)) /\
  best_config (final_state (run_optimization infeasible_world 150 25)) = None.
Proof.
  assert (H : forall i, (i < Nat.min 150 EARLY_STOP_PATIENCE)%nat ->
                        not_scored (launch infeasible_world i)
                                   (penalised_candidate infeasible_world 25 i))
    by (intros i _; left; reflexivity).
  split; [exact H|].
  exact (proj1 (all_penalised_outcome infeasible_world 150 25 H)).
Defined.

(** ** Persistence *)

(** C7, as stated, fails: with a disk that refuses the results file, the
    checkpoint of iteration 10 raises, the exception leaves
    [run_optimization] and [main], and iterations 11 to 20 never run. *)
Lemma checkpoint_failure_aborts :
  write_results full_disk_world 0
    = Some (Exception "OSError" "No space left on device") /\
  exists s,
    run_optimization full_disk_world 20 25
      = Crashed (Exception "OSError" "No space left on device") s /\
    List.length (all_results s) = 10%nat /\
    main full_disk_world 20 25
      = Uncaught (Exception "OSError" "No space left on device") s.
Proof.
  split; [reflexivity|].
  eexists. split; [vm_compute; reflexivity|].
  split; [reflexivity | vm_compute; reflexivity].
Qed.

(** C7, amended: a failure to write the results file is not handled:
    [save_results] raises, and the exception ends the loop in that
    iteration, whatever the remaining budget, and ends [main] when it
    happens in the final save; the locals keep the trial just recorded.
    Only a failure while the convergence plot is made is caught: it is
    reported after the results file is written, and the loop continues
    with its locals unchanged. *)
Theorem write_failure_aborts_loop :
  forall (patience : nat) (w : world),
    (forall k ar bc bm e,
        write_results w k = Some e ->
        save_results w k ar bc bm = ([], inl e)) /\
    (forall k ar bc bm e,
        write_results w k = None -> write_plot w k = Some e ->
        save_results w k ar bc bm =
        ([Wrote_results (snapshot_of ar bc bm); Printed Results_saved;
          Printed (Could_not_create_plots e)], inr tt)) /\
    (forall i s evs y e remaining,
        evaluate_with_objective (launch w i) (ask w (optimizer s)) = (evs, inr y) ->
        (no_improvement_count (record_trial i s (ask w (optimizer s)) evs y)
           < patience)%nat ->
        ((i + 1) mod 10 = 0)%nat ->
        write_results w
          (List.length (snapshots
             (trace (record_trial i s (ask w (optimizer s)) evs y)))) = Some e ->
        for_range patience w i (S remaining) s =
        Crashed e (emit (record_trial i s (ask w (optimizer s)) evs y) [])) /\
    (forall i s evs y e,
        evaluate_with_objective (launch w i) (ask w (optimizer s)) = (evs, inr y) ->
        (no_improvement_count (record_trial i s (ask w (optimizer s)) evs y)
           < patience)%nat ->
        ((i + 1) mod 10 = 0)%nat ->
        write_results w
          (List.length (snapshots
             (trace (record_trial i s (ask w (optimizer s)) evs y)))) = None ->
        write_plot w
          (List.length (snapshots
             (trace (record_trial i s (ask w (optimizer s)) evs y)))) = Some e ->
        exists s',
          loop_body patience w i s = Continue s' /\
          same_locals (record_trial i s (ask w (optimizer s)) evs y) s' /\
          In (Printed (Could_not_create_plots e)) (trace s')) /\
    (forall n_iter n_initial how s e,
        run_optimization w n_iter n_initial = Finished how s ->
        write_results w (List.length (snapshots (trace s))) = Some e ->
        main w n_iter n_initial = Uncaught e (emit s [])).
Proof.
  intros patience w.
  assert (Hfail : forall k ar bc bm e,
             write_results w k = Some e ->
             save_results w k ar bc bm = ([], inl e)).
  { intros k ar bc bm e H. unfold save_results. now rewrite H. }
  assert (Hplot : forall k ar bc bm e,
             write_results w k = None -> write_plot w k = Some e ->
             save_results w k ar bc bm =
             ([Wrote_results (snapshot_of ar bc bm); Printed Results_saved;
               Printed (Could_not_create_plots e)], inr tt)).
  { intros k ar bc bm e H1 H2. unfold save_results. now rewrite H1, H2. }
  split; [exact Hfail|]. split; [exact Hplot|]. split; [|split].
  - intros i s evs y e remaining He Hlt Hmod Hw. simpl.
    rewrite loop_body_unfold, He. unfold stop_or_checkpoint.
    destruct (Nat.leb_spec patience
                (no_improvement_count
                   (record_trial i s (ask w (optimizer s)) evs y))); [lia|].
    rewrite Hmod. simpl. now rewrite (Hfail _ _ _ _ _ Hw).
  - intros i s evs y e He Hlt Hmod Hw Hp.
    rewrite loop_body_unfold, He. unfold stop_or_checkpoint.
    destruct (Nat.leb_spec patience
                (no_improvement_count
                   (record_trial i s (ask w (optimizer s)) evs y))); [lia|].
    rewrite Hmod. simpl. rewrite (Hplot _ _ _ _ _ Hw Hp).
    eexists. split; [reflexivity|]. split; [apply same_locals_emit|].
    simpl. apply in_or_app. right. right. right. left. reflexivity.
  - intros n_iter n_initial how s e Hrun Hw.
    unfold main. rewrite Hrun. now rewrite (Hfail _ _ _ _ _ Hw).
Qed.

(** The plot failure is indeed survived: with a plotting backend that
    always fails, the run of [steady_world] is unchanged in its locals. *)
Example plot_failure_is_survived :
  exists s s',
    run_optimization no_plot_world 30 25 = Finished STOPPED_EARLY s /\
    run_optimization steady_world 30 25 = Finished STOPPED_EARLY s' /\
    all_results s = all_results s' /\
    List.length (all_results s) = 26%nat /\
    List.length (snapshots (trace s)) = 2%nat.
Proof.
  eexists. eexists. split; [vm_compute; reflexivity|].
  split; [vm_compute; reflexivity|]. repeat split.
Qed.

(** ** Checkpoints *)

Lemma state_snapshot_same (s s' : loop_state) :
  same_locals s s' -> state_snapshot s' = state_snapshot s.
Proof.
  intros (_ & Ha & _ & Hc & Hm & _). unfold state_snapshot.
  now rewrite Ha, Hc, Hm.
Qed.

Lemma snapshots_app (tr evs : list event) :
  snapshots (tr ++ evs) = snapshots tr ++ snapshots evs.
Proof. apply flat_map_app. Qed.

Lemma extends_refl (tr : list event) : extends tr tr.
Proof. exists []. now rewrite app_nil_r. Qed.

Lemma extends_trans (a b c : list event) : extends a b -> extends b c -> extends a c.
Proof. intros [x ->] [y ->]. exists (x ++ y). now rewrite app_assoc. Qed.

Lemma extends_snapshots (tr tr' : list event) (x : snapshot) :
  extends tr tr' -> In x (snapshots tr) -> In x (snapshots tr').
Proof.
  intros [evs ->] H. rewrite snapshots_app. apply in_or_app. now left.
Qed.

Lemma record_trial_extends (i : nat) (s : loop_state) (c : candidate)
    (evs : list event) (y : Q) :
  extends (trace s) (trace (record_trial i s c evs y)).
Proof.
  unfold record_trial. destruct (Qgtb (- y) (best_objective s)); simpl;
    eexists; reflexivity.
Qed.

Lemma loop_body_extends (patience : nat) (w : world) (i : nat) (s : loop_state) :
  extends (trace s) (trace (state_of (loop_body patience w i s))).
Proof.
  pose proof (loop_body_cases patience w i s) as Hc.
  destruct (evaluate_with_objective _ _) as [evs [e|y]].
  - rewrite Hc. simpl. eexists; reflexivity.
  - simpl in Hc.
    pose proof (record_trial_extends i s (ask w (optimizer s)) evs y) as Hr.
    destruct Hc as [[_ ->]|[_ [(s' & -> & _ & evs' & Htr & _)|(e & -> & _)]]];
      simpl.
    + eapply extends_trans; [exact Hr | eexists; reflexivity].
    + eapply extends_trans; [exact Hr | exists evs'; exact Htr].
    + exact Hr.
Qed.

Lemma for_range_extends (patience : nat) (w : world) (remaining i : nat)
    (s : loop_state) :
  extends (trace s) (trace (final_state (for_range patience w i remaining s))).
Proof.
  revert i s. induction remaining as [|r IH]; intros i s; simpl.
  - apply extends_refl.
  - pose proof (loop_body_extends patience w i s) as Hb.
    destruct (loop_body patience w i s) as [s'|s'|e s']; simpl in *;
      [|exact Hb|exact Hb].
    eapply extends_trans; [exact Hb | apply IH].
Qed.

Lemma main_extends (w : world) (n_iter n_initial : nat) :
  extends (trace (final_state (run_optimization w n_iter n_initial)))
          (trace (end_state (main w n_iter n_initial))).
Proof.
  unfold main.
  destruct (run_optimization w n_iter n_initial) as [how s|e s]; simpl;
    [|apply extends_refl].
  destruct (save_results _ _ _ _ _) as [written [e|[]]]; simpl;
    [eexists; reflexivity|].
  destruct (best_config s); [destruct (best_metrics s)|]; simpl;
    try (eexists; reflexivity).
  rewrite <- app_assoc. eexists; reflexivity.
  rewrite <- app_assoc. eexists; reflexivity.
Qed.

(** A run that exhausts a positive budget which is a multiple of 10 wrote
    the checkpoint of its last iteration. *)
Lemma checkpoint_written (patience : nat) (w : world) (k n_initial : nat)
    (s : loop_state) :
  optimization_loop patience w k n_initial = Finished STOPPED_BUDGET s ->
  (0 < k)%nat -> (k mod 10 = 0)%nat ->
  In (state_snapshot s) (snapshots (trace s)).
Proof.
  intros Hrun Hpos Hmod. destruct k as [|k]; [lia|].
  rewrite optimization_loop_succ in Hrun.
  destruct (optimization_loop patience w k n_initial) as [[|] s0|e s0];
    try discriminate.
  pose proof (loop_body_cases patience w k s0) as Hc.
  destruct (evaluate_with_objective _ _) as [evs [e|y]].
  - rewrite Hc in Hrun. discriminate.
  - simpl in Hc. replace (k + 1)%nat with (S k) in Hc by lia.
    destruct Hc as [[_ Hb]|[_ [(s' & Hb & Hs & evs' & Htr & Hck)|(e & Hb & _)]]];
      rewrite Hb in Hrun; try discriminate.
    injection Hrun as <-. destruct (Hck Hmod) as [rest ->].
    rewrite (state_snapshot_same _ _ Hs), Htr, snapshots_app.
    apply in_or_app. right. left. reflexivity.
Qed.

(** What a snapshot records is the in-memory best-so-far. *)
Lemma state_snapshot_best (s : loop_state) :
  best_tracking s ->
  snap_all_results (state_snapshot s) = all_results s /\
  snap_best_config (state_snapshot s) = best_config s /\
  snap_best_objective (state_snapshot s)
    = option_map objective (best_metrics s) /\
  (best_config s = None -> snap_best_objective (state_snapshot s) = None) /\
  (best_config s <> None ->
   snap_best_objective (state_snapshot s) = Some (best_objective s)).
Proof.
  intros H. split; [reflexivity|]. split; [reflexivity|].
  split; [reflexivity|].
  unfold state_snapshot, snapshot_of. simpl.
  destruct H as [(Hc & Hm & _)|(l1 & t & l2 & _ & Hm & Hc & Hb & _)];
    rewrite Hm, Hc; simpl.
  - split; [reflexivity | congruence].
  - split; [discriminate | intros _; now rewrite Hb].
Qed.

Lemma loop_body_results_extend (patience : nat) (w : world) (i : nat)
    (s : loop_state) :
  exists later,
    all_results (state_of (loop_body patience w i s)) = all_results s ++ later.
Proof.
  destruct (loop_body_locals patience w i s)
    as [(_ & Ha & _)|(evs & y & _ & (_ & Ha & _))]; rewrite Ha.
  - exists []. now rewrite app_nil_r.
  - destruct (record_trial_results i s (ask w (optimizer s)) evs y) as (-> & _).
    eexists; reflexivity.
Qed.

Lemma for_range_results_extend (patience : nat) (w : world) (remaining i : nat)
    (s : loop_state) :
  exists later,
    all_results (final_state (for_range patience w i remaining s))
      = all_results s ++ later.
Proof.
  revert i s. induction remaining as [|r IH]; intros i s; simpl.
  - exists []. now rewrite app_nil_r.
  - destruct (loop_body_results_extend patience w i s) as [l1 Hb].
    destruct (loop_body patience w i s) as [s'|s'|e s']; simpl in *;
      try (now exists l1).
    destruct (IH (S i) s') as [l2 ->]. rewrite Hb, <- app_assoc.
    eexists; reflexivity.
Qed.

(** When the loop has ended and the results file can be written, [main]
    writes the snapshot of the final state. *)
Lemma main_final_snapshot (w : world) (n_iter n_initial : nat)
    (how : stop_reason) (s : loop_state) :
  run_optimization w n_iter n_initial = Finished how s ->
  write_results w (List.length (snapshots (trace s))) = None ->
  exists after,
    trace (end_state (main w n_iter n_initial))
      = trace s ++ Wrote_results (state_snapshot s) :: after.
Proof.
  intros Hrun Hw.
  destruct (main_returns w n_iter n_initial how s Hrun Hw) as (rest & _ & Hmain).
  rewrite Hmain. unfold state_snapshot.
  destruct (best_config s) as [c|]; [destruct (best_metrics s) as [t|]|];
    simpl; rewrite <- ?app_assoc; simpl; eexists; reflexivity.
Qed.

(** C6: provided the results files can be written, for every iteration [k]
    that the loop reaches and whose 1-based index is a multiple of 10, a
    snapshot is persisted that holds exactly the trials and the
    best-so-far the loop has in memory at iteration [k]: [best_config] and
    the objective of [best_metrics], which is [best_objective] once there
    is a best candidate (and null before).
    This includes the iteration in which the loop ends; and [main]
    persists the final state when the loop has ended.  The state at
    iteration [k] is the final state of the loop run with budget [k]; its
    trials are the first [k] trials of the whole run. *)
Theorem checkpoints_persisted :
  forall (w : world) (n_iter n_initial : nat),
    (forall j, write_results w j = None) ->
    (forall k how s_k,
        (0 < k <= n_iter)%nat -> (k mod 10 = 0)%nat ->
        run_optimization w k n_initial = Finished how s_k ->
        List.length (all_results s_k) = k ->
        In (state_snapshot s_k)
           (snapshots (trace (end_state (main w n_iter n_initial)))) /\
        (exists later,
            all_results (final_state (run_optimization w n_iter n_initial))
              = all_results s_k ++ later) /\
        snap_all_results (state_snapshot s_k) = all_results s_k /\
        snap_best_config (state_snapshot s_k) = best_config s_k /\
        snap_best_objective (state_snapshot s_k)
          = option_map objective (best_metrics s_k) /\
        (best_config s_k = None ->
         snap_best_objective (state_snapshot s_k) = None) /\
        (best_config s_k <> None ->
         snap_best_objective (state_snapshot s_k) = Some (best_objective s_k))) /\
    (forall how s,
        run_optimization w n_iter n_initial = Finished how s ->
        exists s' after,
          main w n_iter n_initial = Returned s' /\
          trace s' = trace s ++ Wrote_results (state_snapshot s) :: after).
Proof.
  intros w n_iter n_initial Hw. split.
  - intros k how s_k [Hpos Hle] Hmod Hrun Hlen.
    pose proof (optimization_loop_best_tracking EARLY_STOP_PATIENCE w k n_initial)
      as Hbt.
    unfold run_optimization in Hrun. rewrite Hrun in Hbt. simpl in Hbt.
    pose proof (optimization_loop_stable EARLY_STOP_PATIENCE w k n_iter n_initial Hle)
      as Hst.
    rewrite Hrun in Hst.
    split; [|split; [|exact (state_snapshot_best s_k Hbt)]].
    + destruct how.
      * (* the loop stopped early at iteration [k]: the final save *)
        destruct (main_final_snapshot w n_iter n_initial _ s_k Hst (Hw _))
          as (after & ->).
        rewrite snapshots_app. apply in_or_app. right. left. reflexivity.
      * (* the loop went on: the checkpoint of iteration [k] *)
        eapply extends_snapshots; [apply main_extends|].
        unfold run_optimization. rewrite Hst.
        eapply extends_snapshots; [apply for_range_extends|].
        exact (checkpoint_written _ _ _ _ _ Hrun Hpos Hmod).
    + unfold run_optimization. destruct how; rewrite Hst.
      * exists []. now rewrite app_nil_r.
      * apply for_range_results_extend.
  - intros how s Hrun.
    pose proof (optimization_loop_best_tracking EARLY_STOP_PATIENCE w n_iter n_initial)
      as Hbt.
    unfold run_optimization in Hrun. rewrite Hrun in Hbt. simpl in Hbt.
    destruct (main_final_snapshot w n_iter n_initial _ s Hrun (Hw _))
      as (after & Htr).
    destruct (main_returns w n_iter n_initial _ s Hrun (Hw _))
      as (rest & _ & Hmain).
    destruct Hbt as [(Hc & Hm & _)|(l1 & t & l2 & _ & Hm & Hc & _)];
      rewrite Hc, ?Hm in Hmain; rewrite Hmain in Htr |- *;
      eexists; exists after; (split; [reflexivity | exact Htr]).
Qed.

Lemma checkpoints_persisted_witness :
  (forall j, write_results plateau_world j = None) /\
  exists s,
    run_optimization plateau_world 30 25 = Finished STOPPED_EARLY s /\
    List.length (all_results s) = 30%nat /\
    In (state_snapshot s)
       (snapshots (trace (end_state (main plateau_world 150 25)))).
Proof.
  assert (Hw : forall j, write_results plateau_world j = None)
    by (intros j; reflexivity).
  split; [exact Hw|].
  eexists. split; [vm_compute; reflexivity|].
  split; [reflexivity|].
  refine (proj1 (proj1 (checkpoints_persisted plateau_world 150 25 Hw)
                       30%nat STOPPED_EARLY _ _ _ _ _)).
  - split; [apply Nat.lt_0_succ | apply Nat.leb_le; reflexivity].
  - reflexivity.
  - vm_compute; reflexivity.
  - reflexivity.
Defined.

(** Inside the loop the early stop comes before the checkpoint: in
    [plateau_world] the loop itself writes the snapshots of iterations 10
    and 20 only, and the snapshot of iteration 30 is the one [main]
    writes. *)
Example early_stop_precedes_checkpoint :
  exists s,
    run_optimization plateau_world 150 25 = Finished STOPPED_EARLY s /\
    map (fun x => List.length (snap_all_results x)) (snapshots (trace s))
      = [10; 20]%nat /\
    map (fun x => List.length (snap_all_results x))
        (snapshots (trace (end_state (main plateau_world 150 25))))
      = [10; 20; 30]%nat.
Proof.
  eexists. split; [vm_compute; reflexivity|].
  split; vm_compute; reflexivity.
Qed.

(** ** Runs on the concrete worlds *)

(** With a patience of 3, one improving trial and three that do not
    improve: the loop stops in iteration 4, with the counter at 3. *)
Example patience_three :
  exists s,
    optimization_loop 3 steady_world 150 25 = Finished STOPPED_EARLY s /\
    List.length (all_results s) = 4%nat /\
    no_improvement_count s = 3%nat /\
    Forall (fun t => objective t == 0.33) (all_results s).
Proof.
  eexists. split; [vm_compute; reflexivity|].
  split; [reflexivity|]. split; [reflexivity|].
  repeat (constructor; [vm_compute; reflexivity|]). constructor.
Qed.

(** A budget of 5 with every trial improving is exhausted in iteration 5,
    and the best is the last trial. *)
Example budget_five :
  exists s t,
    optimization_loop 3 plateau_world 5 25 = Finished STOPPED_BUDGET s /\
    List.length (all_results s) = 5%nat /\
    best_metrics s = Some t /\ iteration t = 5%nat /\
    best_objective s = objective t.
Proof. eexists. eexists. split; [vm_compute; reflexivity|]. repeat split. Qed.

(** The successful evaluation and the timeout, as [evaluate_config]
    returns them. *)
Example evaluate_config_examples :
  evaluation_succeeds (successful_env 0.5 0.70)
                      (JNum 0.5) (JNum 0.70) (JNum 0.5) (JNum 0.1) /\
  evaluation_of (fun _ => successful_env 0.5 0.70) feasible_candidate
    = [("correlation", JNum 0.5); ("rmse", JNum 0.70); ("mae", JNum 0.5);
       ("regret", JNum 0.1)]%string /\
  evaluation_of (fun _ => timeout_env) feasible_candidate
    = [("correlation", JNum 0.0); ("rmse", JNum 999.0); ("mae", JNum 999.0);
       ("regret", JNum 999.0); ("error", JStr "Timeout")]%string.
Proof.
  split; [|split; reflexivity].
  eexists _, _, _, _, _, _, _. repeat split; try reflexivity. discriminate.
Qed.

Example null_metrics_crash :
  exists s,
    run_optimization null_metrics_world 150 25
      = Crashed (TypeError "unsupported operand type(s) for *") s /\
    all_results s = [].
Proof. eexists. split; [vm_compute; reflexivity | reflexivity]. Qed.

(** ** The objective in binary64 *)

(** C5, as stated, fails: the interpreter computes in binary64, and there
    [calculate_objective(0.5, 0.90)] is [-0.030000000000000027], which is
    not the number written [-0.03]; the comparison [==] of the two is
    false. *)
Example second_reference_value_inexact :
  (Binary64.calculate_objective 0.5 0.90 = -0.030000000000000027 /\
   (Binary64.calculate_objective 0.5 0.90 =? -0.03) = false /\
   Binary64.calculate_objective 0.5 0.90 <> -0.03)%float.
Proof.
  split; [reflexivity|]. split; [reflexivity|].
  intros H.
  assert (E : (Binary64.calculate_objective 0.5 0.90 =? -0.03)%float = false)
    by reflexivity.
  rewrite H in E. vm_compute in E. discriminate E.
Qed.

(** C5, amended: in exact arithmetic [calculate_objective] is
    [correlation*0.6 + (0.80 - rmse)*0.3 - max(0, (rmse - 0.75)*2.0)], the
    penalty is [0] up to [rmse = 0.75], equals [2*(rmse - 0.75)] above it
    and is strictly increasing there, and the formula gives [0.63] at
    [(1.0, 0.70)] and [-0.03] at [(0.5, 0.90)].  In binary64, in which the
    program computes, [calculate_objective(1.0, 0.70)] is exactly the
    number written [0.63], while [calculate_objective(0.5, 0.90)] is
    [-0.030000000000000027]: it is within [1e-16] of the number written
    [-0.03] and not equal to it. *)
Theorem calculate_objective_reference_values :
  (forall correlation rmse,
      calculate_objective correlation rmse ==
      correlation * 0.6 + (0.80 - rmse) * 0.3 - Qmax 0 ((rmse - 0.75) * 2.0)) /\
  (forall correlation rmse,
      calculate_objective correlation rmse =
      correlation * 0.6 + (0.80 - rmse) * 0.3 - rmse_penalty rmse) /\
  (forall rmse, rmse_penalty rmse == Qmax 0 ((rmse - 0.75) * 2.0)) /\
  (forall rmse, rmse <= 0.75 -> rmse_penalty rmse = 0) /\
  (forall rmse, 0.75 < rmse -> rmse_penalty rmse == 2 * (rmse - 0.75)) /\
  (forall r1 r2, 0.75 < r1 -> r1 < r2 -> rmse_penalty r1 < rmse_penalty r2) /\
  calculate_objective 1.0 0.70 == 0.63 /\
  calculate_objective 0.5 0.90 == -0.03 /\
  (Binary64.calculate_objective 1.0 0.70 = 0.63 /\
   Binary64.calculate_objective 0.5 0.90 = -0.030000000000000027 /\
   (PrimFloat.abs (Binary64.calculate_objective 0.5 0.90 - -0.03) <? 1e-16)
   = true /\
   (Binary64.calculate_objective 0.5 0.90 =? -0.03) = false)%float.
Proof.
  destruct calculate_objective_exact
    as (H1 & H2 & H3 & H4 & H5 & H6 & H7 & H8).
  repeat (split; [assumption|]).
  repeat split.
Qed.

(** * Further properties of the code *)

(** ** The objective is monotone *)




(** ** What [evaluate_with_objective] can raise *)

Lemma evaluation_of_shape (launch : candidate -> evaluation_env) (c : candidate) :
  (exists error, evaluation_of launch c = failure_dict error) \/
  (exists correlation rmse mae regret,
      evaluation_of launch c = metrics_dict correlation rmse mae regret).
Proof.
  unfold evaluation_of.
  destruct (evaluate_config_dichotomy launch (initial_weight c) (phase1_end c)
              (phase2_end c) (phase1_target c) (phase2_target c) (max_weight c))
    as [[err H]|(x & r & a & g & _ & H)].
  - left. now exists err.
  - right. now exists x, r, a, g.
Qed.

(** X2: [evaluate_with_objective] returns [999.0] for an infeasible
    candidate and for a failed evaluation, and the negated objective for
    parsed metrics that are numbers; it raises only when the evaluation
    succeeded with a correlation or an rmse that is not a number, and then
    it raises a [TypeError].  In particular no [KeyError] can come from
    reading ['correlation'] and ['rmse'] off the result. *)
Theorem evaluate_with_objective_outcomes :
  forall (launch : candidate -> evaluation_env) (c : candidate),
    (validate_config c = false /\
     snd (evaluate_with_objective launch c) = inr 999.0) \/
    (validate_config c = true /\
     has_key "error" (evaluation_of launch c) = true /\
     snd (evaluate_with_objective launch c) = inr 999.0) \/
    (validate_config c = true /\
     exists correlation rmse mae regret,
       evaluation_of launch c = metrics_dict correlation rmse mae regret /\
       ((exists x r,
            as_number correlation = Some x /\ as_number rmse = Some r /\
            snd (evaluate_with_objective launch c)
              = inr (- calculate_objective x r)) \/
        ((as_number correlation = None \/ as_number rmse = None) /\
         exists msg,
           snd (evaluate_with_objective launch c) = inl (TypeError msg)))).
Proof.
  intros launch c. destruct (validate_config c) eqn:Hv.
  - right. destruct (has_key "error" (evaluation_of launch c)) eqn:He.
    + left. rewrite (evaluate_with_objective_failed launch c Hv He).
      repeat split.
    + right. split; [reflexivity|].
      destruct (evaluation_of_shape launch c)
        as [[err H]|(x & r & a & g & H)].
      * rewrite H in He. discriminate.
      * exists x, r, a, g. split; [exact H|].
        unfold evaluate_with_objective. rewrite Hv. simpl.
        unfold evaluation_of in H. rewrite H. simpl.
        unfold calculate_objective_on.
        destruct (as_number x) as [x0|]; [destruct (as_number r) as [r0|]|];
          simpl.
        -- left. exists x0, r0. repeat split.
        -- right. split; [now right | eexists; reflexivity].
        -- right. split; [now left | eexists; reflexivity].
  - left. rewrite (evaluate_with_objective_infeasible launch c Hv).
    repeat split.
Qed.

(** ** Invariants of the loop *)

(** A property that holds before the first iteration and is kept by every
    pass through the body holds in the final state of every run.  The pass
    with index [n] starts from the state a run with budget [n] ends in,
    which holds [n] trials. *)
Lemma loop_invariant (patience : nat) (w : world) (n_initial : nat)
    (P : loop_state -> Prop) :
  P (initial_state n_initial) ->
  (forall n s,
      optimization_loop patience w n n_initial = Finished STOPPED_BUDGET s ->
      List.length (all_results s) = n ->
      P s -> P (state_of (loop_body patience w n s))) ->
  forall n, P (final_state (optimization_loop patience w n n_initial)).
Proof.
  intros H0 Hstep n. induction n as [|n IH]; [exact H0|].
  rewrite optimization_loop_succ.
  pose proof (optimization_loop_shape patience w n n_initial) as Hsh.
  destruct (optimization_loop patience w n n_initial) as [[|] s|e s] eqn:En;
    try exact IH.
  destruct Hsh as [Hlen _]. specialize (Hstep n s En Hlen IH).
  destruct (loop_body patience w n s); exact Hstep.
Qed.

(** Every pass either stops at the evaluation, leaving the locals alone, or
    ends in a state with the locals of the recorded trial. *)
Lemma loop_body_recorded (patience : nat) (w : world) (i : nat) (s : loop_state) :
  (exists evs e,
      evaluate_with_objective (launch w i) (ask w (optimizer s)) = (evs, inl e) /\
      loop_body patience w i s = Raised e (emit s evs)) \/
  (exists evs y,
      evaluate_with_objective (launch w i) (ask w (optimizer s)) = (evs, inr y) /\
      same_locals (record_trial i s (ask w (optimizer s)) evs y)
                  (state_of (loop_body patience w i s))).
Proof.
  pose proof (loop_body_cases patience w i s) as Hc.
  destruct (evaluate_with_objective _ _) as [evs [e|y]] eqn:He.
  - left. now exists evs, e.
  - right. exists evs, y. split; [reflexivity|]. simpl in Hc.
    destruct Hc as [[_ ->]|[_ [(s' & -> & Hs & _)|(e & -> & _)]]]; simpl.
    + apply same_locals_emit.
    + exact Hs.
    + apply same_locals_refl.
Qed.

Lemma history_consistent_same (s s' : loop_state) :
  same_locals s s' -> history_consistent s -> history_consistent s'.
Proof.
  intros (Ho & Ha & _) H. unfold history_consistent. now rewrite Ho, Ha.
Qed.

Lemma history_consistent_record (i : nat) (s : loop_state)
    (launch : candidate -> evaluation_env) (c : candidate)
    (evs : list event) (y : Q) :
  List.length (all_results s) = i ->
  evaluate_with_objective launch c = (evs, inr y) ->
  history_consistent s ->
  history_consistent (record_trial i s c evs y).
Proof.
  intros Hlen He (Hobs & Hit & Hall).
  destruct (record_trial_results i s c evs y) as (Hr & Ho & _).
  unfold history_consistent. rewrite Hr, Ho. unfold tell. simpl.
  rewrite !map_app, length_app, Hobs, Hit, Hlen. simpl.
  rewrite Qopp_opp_eq. split; [reflexivity|]. split.
  - replace (i + 1)%nat with (S i) by lia. rewrite seq_S. reflexivity.
  - apply Forall_app. split; [exact Hall|]. constructor; [|constructor].
    simpl. split; [reflexivity|]. intros Hv.
    rewrite (evaluate_with_objective_infeasible launch c Hv) in He.
    injection He as _ <-. reflexivity.
Qed.

(** X3: in the final state of every run, for every patience, the
    optimiser has been told exactly one observation per recorded trial, in
    order, each the candidate with the negated objective; the trials are
    numbered 1, 2, ... and there are at most [n_iter] of them; every trial
    records whether its candidate is feasible, and an infeasible one
    carries the objective [-999.0]. *)
Theorem trial_history_consistent :
  forall (patience : nat) (w : world) (n_iter n_initial : nat),
    observations
      (optimizer (final_state (optimization_loop patience w n_iter n_initial)))
    = map (fun t => (params t, - objective t))
          (all_results (final_state (optimization_loop patience w n_iter n_initial))) /\
    map iteration
        (all_results (final_state (optimization_loop patience w n_iter n_initial)))
    = seq 1 (List.length
               (all_results
                  (final_state (optimization_loop patience w n_iter n_initial)))) /\
    (List.length
       (all_results (final_state (optimization_loop patience w n_iter n_initial)))
     <= n_iter)%nat /\
    Forall (fun t => is_valid t = validate_config (params t) /\
                     (is_valid t = false -> objective t = -999.0))
           (all_results
              (final_state (optimization_loop patience w n_iter n_initial))).
Proof.
  intros patience w n_iter n_initial.
  assert (H : history_consistent
                (final_state (optimization_loop patience w n_iter n_initial))).
  { apply loop_invariant.
    - repeat split. constructor.
    - intros n s _ Hlen Hs.
      destruct (loop_body_recorded patience w n s)
        as [(evs & e & _ & ->)|(evs & y & He & Hsame)].
      + simpl. eapply history_consistent_same; [apply same_locals_emit | exact Hs].
      + eapply history_consistent_same; [exact Hsame|].
        eapply history_consistent_record; eassumption. }
  destruct H as (H1 & H2 & H3).
  split; [exact H1|]. split; [exact H2|]. split; [|exact H3].
  pose proof (optimization_loop_shape patience w n_iter n_initial) as Hsh.
  destruct (optimization_loop patience w n_iter n_initial) as [[|] s|e s] eqn:En;
    simpl.
  - destruct Hsh as (k & s_k & Hk & Hrun & Hb).
    pose proof (optimization_loop_shape patience w k n_initial) as Hk'.
    rewrite Hrun in Hk'. destruct Hk' as [Hlen _].
    destruct (loop_body_results_extend patience w k s_k) as [later Hl].
    destruct (loop_body_recorded patience w k s_k)
      as [(evs & e & _ & Hr)|(evs & y & _ & (_ & Ha & _))].
    + rewrite Hr in Hb. discriminate.
    + rewrite Hb in Ha. simpl in Ha. rewrite Ha.
      destruct (record_trial_results k s_k (ask w (optimizer s_k)) evs y)
        as (-> & _). rewrite length_app, Hlen. simpl. lia.
  - destruct Hsh as [Hlen _]. lia.
  - destruct Hsh as (k & s_k & Hk & Hrun & Hb).
    pose proof (optimization_loop_shape patience w k n_initial) as Hk'.
    rewrite Hrun in Hk'. destruct Hk' as [Hlen _].
    destruct (loop_body_recorded patience w k s_k)
      as [(evs & e' & _ & Hr)|(evs & y & _ & (_ & Ha & _))].
    + rewrite Hr in Hb. injection Hb as _ <-. simpl. lia.
    + rewrite Hb in Ha. simpl in Ha. rewrite Ha.
      destruct (record_trial_results k s_k (ask w (optimizer s_k)) evs y)
        as (-> & _). rewrite length_app, Hlen. simpl. lia.
Qed.

(** ** The best configuration *)

(** X4: in the final state of every run a best configuration, when there is
    one, is feasible; it is the candidate of the trial held in
    [best_metrics], which is one of the recorded trials, is marked valid,
    and whose objective is [best_objective] and exceeds [-999.0].  When
    there is none, [best_metrics] is [None] too and no recorded objective
    exceeds [-999.0]. *)
Theorem best_config_feasible :
  forall (patience : nat) (w : world) (n_iter n_initial : nat),
    match best_config (final_state (optimization_loop patience w n_iter n_initial)) with
    | Some c =>
        validate_config c = true /\
        exists t,
          best_metrics (final_state (optimization_loop patience w n_iter n_initial))
            = Some t /\
          In t (all_results
                  (final_state (optimization_loop patience w n_iter n_initial))) /\
          params t = c /\ is_valid t = true /\
          objective t
            = best_objective
                (final_state (optimization_loop patience w n_iter n_initial)) /\
          -999.0 < objective t
    | None =>
        best_metrics (final_state (optimization_loop patience w n_iter n_initial))
          = None /\
        Forall (fun t => objective t <= -999.0)
               (all_results
                  (final_state (optimization_loop patience w n_iter n_initial)))
    end.
Proof.
  intros patience w n_iter n_initial.
  pose proof (optimization_loop_best_tracking patience w n_iter n_initial) as Hbt.
  destruct (trial_history_consistent patience w n_iter n_initial)
    as (_ & _ & _ & Hall).
  set (s := final_state (optimization_loop patience w n_iter n_initial)) in *.
  destruct Hbt as [(Hc & Hm & _ & Hle & _)
                  |(l1 & t & l2 & Ha & Hm & Hc & Hb & Hlow & _)]; rewrite Hc.
  - split; assumption.
  - assert (Hin : In t (all_results s))
      by (rewrite Ha; apply in_or_app; right; left; reflexivity).
    rewrite Forall_forall in Hall. destruct (Hall t Hin) as [Hv Hpen].
    assert (Hvalid : is_valid t = true).
    { destruct (is_valid t); [reflexivity|].
      rewrite (Hpen eq_refl) in Hlow. exfalso. revert Hlow. apply Qlt_irrefl. }
    split; [now rewrite <- Hv|].
    exists t. repeat split; try assumption. now symmetry.
Qed.

(** X5: [main] ends with an uncaught exception only when the loop itself
    crashed or the final results file could not be written; reading the
    objective of [best_metrics] in the summary never fails.  When [main]
    returns, the last message of its summary (the footer with the elapsed
    time, printed after it, is not part of the trace) reports the best
    configuration, which is feasible, with the objective [best_objective],
    or that no valid configuration was found, and the locals are those the
    loop ended with. *)
Theorem main_summary :
  forall (w : world) (n_iter n_initial : nat),
    match main w n_iter n_initial with
    | Returned s' =>
        exists how s,
          run_optimization w n_iter n_initial = Finished how s /\
          same_locals s s' /\
          match best_config s with
          | Some c =>
              validate_config c = true /\
              exists tr,
                trace s' = tr ++ [Printed (Best_configuration_found
                                             c (best_objective s))]
          | None =>
              exists tr, trace s' = tr ++ [Printed No_valid_configuration_found]
          end
    | Uncaught e s' =>
        run_optimization w n_iter n_initial = Crashed e s' \/
        exists how s,
          run_optimization w n_iter n_initial = Finished how s /\
          write_results w (List.length (snapshots (trace s))) = Some e /\
          same_locals s s'
    end.
Proof.
  intros w n_iter n_initial.
  pose proof (best_config_feasible EARLY_STOP_PATIENCE w n_iter n_initial) as Hbest.
  unfold main. fold (run_optimization w n_iter n_initial) in Hbest.
  destruct (run_optimization w n_iter n_initial) as [how s|e s] eqn:Hrun;
    [|now left].
  simpl in Hbest.
  destruct (save_results_cases w (List.length (snapshots (trace s)))
              (all_results s) (best_config s) (best_metrics s))
    as [(e & Hw & ->)|(rest & Hw & ->)].
  - simpl. right. exists how, s. repeat split; assumption.
  - simpl. destruct (best_config s) as [c|] eqn:Hbc.
    + destruct Hbest as (Hv & t & -> & _ & _ & _ & Hobj & _).
      exists how, s. split; [reflexivity|]. split; [repeat split|].
      rewrite Hbc. split; [exact Hv|]. rewrite Hobj. simpl.
      eexists. reflexivity.
    + exists how, s. split; [reflexivity|]. split; [repeat split|].
      rewrite Hbc. simpl. eexists. reflexivity.
Qed.

(** ** The states a run can end in *)

(** A property of the states at the head of the loop. *)
Lemma loop_head_invariant (patience : nat) (w : world) (n_initial : nat)
    (P : nat -> loop_state -> Prop) :
  P 0%nat (initial_state n_initial) ->
  (forall n s s',
      optimization_loop patience w n n_initial = Finished STOPPED_BUDGET s ->
      List.length (all_results s) = n ->
      P n s -> loop_body patience w n s = Continue s' -> P (S n) s') ->
  forall n s,
    optimization_loop patience w n n_initial = Finished STOPPED_BUDGET s ->
    P n s.
Proof.
  intros H0 Hstep n. induction n as [|n IH]; intros s Hrun.
  - unfold optimization_loop in Hrun. simpl in Hrun. injection Hrun as <-.
    exact H0.
  - rewrite optimization_loop_succ in Hrun.
    pose proof (optimization_loop_shape patience w n n_initial) as Hsh.
    destruct (optimization_loop patience w n n_initial) as [[|] s0|e s0] eqn:En;
      try discriminate.
    destruct Hsh as [Hlen _].
    destruct (loop_body patience w n s0) as [s'|s'|e s'] eqn:Hb;
      try discriminate.
    injection Hrun as <-. exact (Hstep n s0 s' En Hlen (IH s0 eq_refl) Hb).
Qed.

(** The final state of a run is a state at the head of the loop, or the
    state in which one pass from such a state ended. *)
Lemma final_state_cases (patience : nat) (w : world) (n n_initial : nat) :
  (exists s,
      optimization_loop patience w n n_initial = Finished STOPPED_BUDGET s /\
      List.length (all_results s) = n) \/
  (exists k s_k,
      (k < n)%nat /\
      optimization_loop patience w k n_initial = Finished STOPPED_BUDGET s_k /\
      List.length (all_results s_k) = k /\
      (exists s, loop_body patience w k s_k = Break s /\
                 optimization_loop patience w n n_initial
                   = Finished STOPPED_EARLY s) \/
      (k < n)%nat /\
      optimization_loop patience w k n_initial = Finished STOPPED_BUDGET s_k /\
      List.length (all_results s_k) = k /\
      (exists e s, loop_body patience w k s_k = Raised e s /\
                   optimization_loop patience w n n_initial = Crashed e s)).
Proof.
  pose proof (optimization_loop_shape patience w n n_initial) as Hsh.
  destruct (optimization_loop patience w n n_initial) as [[|] s|e s].
  - right. destruct Hsh as (k & s_k & Hk & Hrun & Hb). exists k, s_k. left.
    pose proof (optimization_loop_shape patience w k n_initial) as Hk'.
    rewrite Hrun in Hk'. destruct Hk' as [Hlen _].
    repeat split; try assumption. now exists s.
  - left. exists s. split; [reflexivity | apply Hsh].
  - right. destruct Hsh as (k & s_k & Hk & Hrun & Hb). exists k, s_k. right.
    pose proof (optimization_loop_shape patience w k n_initial) as Hk'.
    rewrite Hrun in Hk'. destruct Hk' as [Hlen _].
    repeat split; try assumption. now exists e, s.
Qed.

(** ** Calls of the evaluator *)

Lemma evaluated_app (a b : list event) :
  evaluated (a ++ b) = evaluated a ++ evaluated b.
Proof. apply flat_map_app. Qed.

Lemma evaluated_evaluate_with_objective (launch : candidate -> evaluation_env)
    (c : candidate) :
  evaluated (fst (evaluate_with_objective launch c))
  = if validate_config c then [c] else [].
Proof.
  unfold evaluate_with_objective. destruct (validate_config c); simpl;
    [|reflexivity].
  destruct (has_key "error" _); [reflexivity|].
  destruct (subscript _ "correlation"); [reflexivity|].
  destruct (subscript _ "rmse"); reflexivity.
Qed.

Lemma evaluated_save_results (w : world) (k : nat) (ar : list trial)
    (bc : option candidate) (bm : option trial) :
  evaluated (fst (save_results w k ar bc bm)) = [].
Proof.
  unfold save_results. destruct (write_results w k); [reflexivity|].
  destruct (write_plot w k); reflexivity.
Qed.

Lemma evaluated_record_trial (i : nat) (s : loop_state) (c : candidate)
    (evs : list event) (y : Q) :
  evaluated (trace (record_trial i s c evs y))
  = evaluated (trace s) ++ evaluated evs.
Proof.
  unfold record_trial. destruct (Qgtb (- y) (best_objective s)); simpl;
    rewrite !evaluated_app; simpl; now rewrite ?app_nil_r.
Qed.

Lemma evaluated_stop_or_checkpoint (patience : nat) (w : world) (i : nat)
    (s : loop_state) :
  evaluated (trace (state_of (stop_or_checkpoint patience w i s)))
  = evaluated (trace s).
Proof.
  unfold stop_or_checkpoint.
  destruct (patience <=? no_improvement_count s)%nat.
  - simpl. rewrite evaluated_app. simpl. now rewrite app_nil_r.
  - destruct ((i + 1) mod 10 =? 0)%nat; [|reflexivity].
    pose proof (evaluated_save_results w (List.length (snapshots (trace s)))
                  (all_results s) (best_config s) (best_metrics s)) as H.
    destruct (save_results _ _ _ _ _) as [written [e|u]]; simpl in *;
      rewrite evaluated_app, H; now rewrite app_nil_r.
Qed.

(** One pass calls the evaluator once when the candidate is feasible and
    not at all when it is not. *)
Lemma evaluated_loop_body (patience : nat) (w : world) (i : nat) (s : loop_state) :
  evaluated (trace (state_of (loop_body patience w i s)))
  = evaluated (trace s)
      ++ (if validate_config (ask w (optimizer s))
          then [ask w (optimizer s)] else []).
Proof.
  rewrite loop_body_unfold.
  pose proof (evaluated_evaluate_with_objective (launch w i) (ask w (optimizer s)))
    as He.
  destruct (evaluate_with_objective _ _) as [evs [e|y]]; simpl in *.
  - now rewrite evaluated_app, He.
  - now rewrite evaluated_stop_or_checkpoint, evaluated_record_trial, He.
Qed.

Lemma valid_params_snoc (l : list trial) (i : nat) (c : candidate) (obj : Q) :
  map params (filter is_valid (l ++ [Trial i c obj (validate_config c)]))
  = map params (filter is_valid l) ++ (if validate_config c then [c] else []).
Proof.
  rewrite filter_app, map_app. simpl.
  destruct (validate_config c); reflexivity.
Qed.

(** X6: the evaluator is called exactly once for every recorded trial with
    a feasible candidate, in order, and never for an infeasible one: in
    the final state of a run the candidates passed to [evaluate_config] are
    the candidates of the valid trials.  The one exception is a run that
    crashed inside [evaluate_with_objective]: the candidate evaluated last
    is feasible and has no trial. *)
Theorem evaluator_calls :
  forall (patience : nat) (w : world) (n_iter n_initial : nat),
    (evaluated (trace (final_state (optimization_loop patience w n_iter n_initial)))
     = map params
           (filter is_valid
              (all_results
                 (final_state (optimization_loop patience w n_iter n_initial))))
     \/
     exists c e s,
       optimization_loop patience w n_iter n_initial = Crashed e s /\
       validate_config c = true /\
       evaluated (trace s)
       = map params (filter is_valid (all_results s)) ++ [c]) /\
    Forall (fun c => validate_config c = true)
           (evaluated
              (trace (final_state (optimization_loop patience w n_iter n_initial)))).
Proof.
  intros patience w n_iter n_initial.
  assert (Hhead : forall n s,
             optimization_loop patience w n n_initial = Finished STOPPED_BUDGET s ->
             evaluated (trace s) = map params (filter is_valid (all_results s))).
  { apply (loop_head_invariant patience w n_initial
             (fun _ s => evaluated (trace s)
                         = map params (filter is_valid (all_results s))));
      [reflexivity|].
    intros n s s' _ _ Hs Hb.
    pose proof (evaluated_loop_body patience w n s) as He.
    destruct (loop_body_recorded patience w n s)
      as [(evs & e & _ & Hr)|(evs & y & _ & (_ & Ha & _))];
      [congruence|].
    rewrite Hb in He, Ha. simpl in He, Ha. rewrite He, Ha, Hs.
    destruct (record_trial_results n s (ask w (optimizer s)) evs y) as (-> & _).
    now rewrite valid_params_snoc. }
  assert (Hmain :
    evaluated (trace (final_state (optimization_loop patience w n_iter n_initial)))
    = map params
          (filter is_valid
             (all_results
                (final_state (optimization_loop patience w n_iter n_initial))))
    \/
    exists c e s,
      optimization_loop patience w n_iter n_initial = Crashed e s /\
      validate_config c = true /\
      evaluated (trace s) = map params (filter is_valid (all_results s)) ++ [c]).
  { destruct (final_state_cases patience w n_iter n_initial)
      as [(s & Hrun & _)
         |(k & s_k & [(_ & Hk & _ & s & Hb & Hrun)
                     |(_ & Hk & _ & e & s & Hb & Hrun)])];
      rewrite Hrun; simpl.
    - left. exact (Hhead _ _ Hrun).
    - left. pose proof (evaluated_loop_body patience w k s_k) as He.
      destruct (loop_body_recorded patience w k s_k)
        as [(evs & e & _ & Hr)|(evs & y & _ & (_ & Ha & _))];
        [congruence|].
      rewrite Hb in He, Ha. simpl in He, Ha. rewrite He, Ha, (Hhead _ _ Hk).
      destruct (record_trial_results k s_k (ask w (optimizer s_k)) evs y)
        as (-> & _).
      now rewrite valid_params_snoc.
    - pose proof (evaluated_loop_body patience w k s_k) as He.
      destruct (loop_body_recorded patience w k s_k)
        as [(evs & e' & Hev & Hr)|(evs & y & _ & (_ & Ha & _))].
      + rewrite Hb in He. simpl in He.
        rewrite Hb in Hr. injection Hr as _ Hs.
        destruct (validate_config (ask w (optimizer s_k))) eqn:Hv.
        * right. exists (ask w (optimizer s_k)), e, s.
          split; [reflexivity|]. split; [exact Hv|].
          rewrite He, (Hhead _ _ Hk), Hs. reflexivity.
        * rewrite (evaluate_with_objective_infeasible _ _ Hv) in Hev.
          discriminate.
      + left. rewrite Hb in He, Ha. simpl in He, Ha.
        rewrite He, Ha, (Hhead _ _ Hk).
        destruct (record_trial_results k s_k (ask w (optimizer s_k)) evs y)
          as (-> & _).
        now rewrite valid_params_snoc. }
  split; [exact Hmain|].
  destruct (trial_history_consistent patience w n_iter n_initial)
    as (_ & _ & _ & Hall).
  assert (Hvalid : forall l,
             Forall (fun t => is_valid t = validate_config (params t) /\
                              (is_valid t = false -> objective t = -999.0)) l ->
             Forall (fun c => validate_config c = true)
                    (map params (filter is_valid l))).
  { induction l as [|t l IH]; intros H; [constructor|].
    inversion H as [|? ? [Ht _] Hl]; subst. simpl.
    destruct (is_valid t) eqn:Hv; [|now apply IH].
    simpl. constructor; [now rewrite <- Ht | now apply IH]. }
  destruct Hmain as [-> | (c & e & s & Hrun & Hv & Hs)].
  - now apply Hvalid.
  - rewrite Hrun in Hall |- *. simpl in *. rewrite Hs.
    apply Forall_app. split; [now apply Hvalid | now constructor].
Qed.

(** ** The checkpoints the loop writes *)

Lemma div10_succ (n : nat) :
  ((S n) mod 10 = 0 -> (S n) / 10 = n / 10 + 1 /\ 10 * (n / 10 + 1) = S n)%nat.
Proof.
  intros H.
  pose proof (Nat.div_mod_eq (S n) 10) as H1.
  pose proof (Nat.div_mod_eq n 10) as H2.
  pose proof (Nat.mod_upper_bound n 10 ltac:(lia)) as H3.
  rewrite H in H1. lia.
Qed.

Lemma div10_succ_no (n : nat) :
  ((S n) mod 10 <> 0 -> (S n) / 10 = n / 10)%nat.
Proof.
  intros H.
  pose proof (Nat.div_mod_eq (S n) 10) as H1.
  pose proof (Nat.div_mod_eq n 10) as H2.
  pose proof (Nat.mod_upper_bound n 10 ltac:(lia)) as H3.
  pose proof (Nat.mod_upper_bound (S n) 10 ltac:(lia)) as H4.
  lia.
Qed.

Lemma snapshots_evaluate_with_objective (launch : candidate -> evaluation_env)
    (c : candidate) :
  snapshots (fst (evaluate_with_objective launch c)) = [].
Proof.
  unfold evaluate_with_objective. destruct (validate_config c); simpl;
    [|reflexivity].
  destruct (has_key "error" _); [reflexivity|].
  destruct (subscript _ "correlation"); [reflexivity|].
  destruct (subscript _ "rmse"); reflexivity.
Qed.

Lemma snapshots_record_trial (i : nat) (s : loop_state) (c : candidate)
    (evs : list event) (y : Q) :
  snapshots (trace (record_trial i s c evs y))
  = snapshots (trace s) ++ snapshots evs.
Proof.
  unfold record_trial. destruct (Qgtb (- y) (best_objective s)); simpl;
    rewrite !snapshots_app; simpl; now rewrite ?app_nil_r.
Qed.

(** The second half of the body writes one snapshot, that of its state,
    when it goes on after an iteration whose number is a multiple of 10,
    and none otherwise. *)
Lemma snapshots_stop_or_checkpoint (patience : nat) (w : world) (i : nat)
    (s : loop_state) :
  snapshots (trace (state_of (stop_or_checkpoint patience w i s)))
  = snapshots (trace s)
      ++ match stop_or_checkpoint patience w i s with
         | Continue _ =>
             if ((i + 1) mod 10 =? 0)%nat then [state_snapshot s] else []
         | _ => []
         end.
Proof.
  unfold stop_or_checkpoint, state_snapshot.
  destruct (patience <=? no_improvement_count s)%nat.
  - simpl. rewrite snapshots_app. reflexivity.
  - destruct ((i + 1) mod 10 =? 0)%nat; [|simpl; now rewrite app_nil_r].
    unfold save_results. destruct (write_results w _).
    + simpl. rewrite snapshots_app. reflexivity.
    + destruct (write_plot w _); simpl; rewrite snapshots_app; reflexivity.
Qed.

Lemma checkpoints_at_head (patience : nat) (w : world) (n n_initial : nat)
    (s : loop_state) :
  optimization_loop patience w n n_initial = Finished STOPPED_BUDGET s ->
  checkpoints_in_order s /\
  List.length (snapshots (trace s)) = (n / 10)%nat.
Proof.
  revert n s.
  apply (loop_head_invariant patience w n_initial
           (fun n s => checkpoints_in_order s /\
                       List.length (snapshots (trace s)) = (n / 10)%nat)).
  - split; [split; [reflexivity | constructor] | reflexivity].
  - intros n s s' _ Hlen [[Hlens Hpre] Hcount] Hb.
    rewrite loop_body_unfold in Hb.
    pose proof (snapshots_evaluate_with_objective (launch w n) (ask w (optimizer s)))
      as Hev.
    destruct (evaluate_with_objective _ _) as [evs [e|y]]; [discriminate|].
    simpl in Hev.
    set (s1 := record_trial n s (ask w (optimizer s)) evs y) in *.
    pose proof (snapshots_stop_or_checkpoint patience w n s1) as Hsnap.
    rewrite Hb in Hsnap. cbn [state_of] in Hsnap.
    assert (Hs1 : snapshots (trace s1) = snapshots (trace s))
      by (unfold s1; rewrite snapshots_record_trial, Hev; apply app_nil_r).
    rewrite Hs1 in Hsnap.
    assert (Hres : all_results s1 = all_results s
                     ++ [Trial (n + 1) (ask w (optimizer s)) (- y)
                               (validate_config (ask w (optimizer s)))])
      by apply record_trial_results.
    assert (Hsame : all_results s' = all_results s1).
    { destruct (stop_or_checkpoint_cases patience w n s1)
        as [[_ H]|[_ [(s'' & H & (_ & Ha & _) & _)|(e & H & _)]]];
        rewrite H in Hb; try discriminate.
      injection Hb as <-. exact Ha. }
    assert (Hpre' : Forall (fun x => exists later,
                               all_results s' = snap_all_results x ++ later)
                           (snapshots (trace s))).
    { eapply Forall_impl; [|exact Hpre]. intros x [later Hx].
      rewrite Hsame, Hres, Hx, <- app_assoc. eexists; reflexivity. }
    replace (n + 1)%nat with (S n) in Hsnap by lia.
    revert Hsnap.
    destruct (Nat.eqb_spec (S n mod 10) 0) as [Hm|Hm]; intros Hsnap.
    + destruct (div10_succ n Hm) as [Hd1 Hd2].
      unfold checkpoints_in_order. rewrite Hsnap. split; [split|].
      * rewrite length_app, !map_app, Hlens, Hcount. cbn [List.length map].
        rewrite Nat.add_1_r, seq_S, map_app. cbn [map]. f_equal. f_equal.
        unfold state_snapshot, snapshot_of. cbn [snap_all_results].
        rewrite Hres, length_app, Hlen. cbn [List.length]. lia.
      * apply Forall_app. split; [exact Hpre'|]. constructor; [|constructor].
        exists []. unfold state_snapshot, snapshot_of. cbn [snap_all_results].
        rewrite Hsame. now rewrite app_nil_r.
      * rewrite length_app, Hcount, Hd1. reflexivity.
    + rewrite app_nil_r in Hsnap. unfold checkpoints_in_order. rewrite Hsnap.
      split; [split; assumption|]. rewrite Hcount. symmetry.
      now apply div10_succ_no.
Qed.

(** X7: the results files the loop writes are taken after exactly 10, 20,
    30, ... trials, in that order, and each holds the first trials of the
    final history, which is therefore only ever appended to.  A run that
    exhausts its budget wrote [n_iter / 10] of them; a run that stopped
    early after [m] trials wrote [(m - 1) / 10], the checkpoint of its last
    iteration being skipped. *)
Theorem loop_checkpoints :
  forall (patience : nat) (w : world) (n_iter n_initial : nat),
    checkpoints_in_order
      (final_state (optimization_loop patience w n_iter n_initial)) /\
    match optimization_loop patience w n_iter n_initial with
    | Finished STOPPED_BUDGET s =>
        List.length (snapshots (trace s)) = (n_iter / 10)%nat
    | Finished STOPPED_EARLY s =>
        List.length (snapshots (trace s))
        = ((List.length (all_results s) - 1) / 10)%nat
    | Crashed _ s =>
        List.length (snapshots (trace s)) = (List.length (all_results s) / 10)%nat \/
        List.length (snapshots (trace s))
        = ((List.length (all_results s) - 1) / 10)%nat
    end.
Proof.
  intros patience w n_iter n_initial.
  assert (Hstop : forall k s_k,
    optimization_loop patience w k n_initial = Finished STOPPED_BUDGET s_k ->
    List.length (all_results s_k) = k ->
    forall s, (exists e, loop_body patience w k s_k = Raised e s) \/
              loop_body patience w k s_k = Break s ->
    checkpoints_in_order s /\
    List.length (snapshots (trace s)) = (k / 10)%nat /\
    (List.length (all_results s) = k \/ List.length (all_results s) = S k) /\
    (loop_body patience w k s_k = Break s -> List.length (all_results s) = S k)).
  { intros k s_k Hk Hlen s Hend.
    destruct (checkpoints_at_head patience w k n_initial s_k Hk)
      as [[Hlens Hpre] Hcount].
    assert (Hsnap : snapshots (trace s) = snapshots (trace s_k)).
    { destruct Hend as [[e Hb]|Hb]; rewrite loop_body_unfold in Hb;
        pose proof (snapshots_evaluate_with_objective
                      (launch w k) (ask w (optimizer s_k))) as Hev;
        destruct (evaluate_with_objective _ _) as [evs [e'|y]]; simpl in Hev;
        try discriminate.
      - injection Hb as _ <-. simpl. rewrite snapshots_app, Hev.
        apply app_nil_r.
      - pose proof (snapshots_stop_or_checkpoint patience w k
                      (record_trial k s_k (ask w (optimizer s_k)) evs y)) as H.
        rewrite Hb in H. simpl in H.
        rewrite H, app_nil_r, snapshots_record_trial, Hev. apply app_nil_r.
      - pose proof (snapshots_stop_or_checkpoint patience w k
                      (record_trial k s_k (ask w (optimizer s_k)) evs y)) as H.
        rewrite Hb in H. simpl in H.
        rewrite H, app_nil_r, snapshots_record_trial, Hev. apply app_nil_r. }
    assert (Hext : exists later, all_results s = all_results s_k ++ later /\
                                 (List.length later <= 1)%nat /\
                                 (loop_body patience w k s_k = Break s ->
                                  List.length later = 1%nat)).
    { destruct (loop_body_recorded patience w k s_k)
        as [(evs & e & _ & Hr)|(evs & y & _ & (_ & Ha & _))].
      - exists []. rewrite app_nil_r.
        destruct Hend as [[e' Hb]|Hb]; rewrite Hr in Hb; [|discriminate].
        injection Hb as _ <-. split; [reflexivity|]. split; [simpl; lia|].
        intros Hbr. rewrite Hr in Hbr. discriminate.
      - destruct (record_trial_results k s_k (ask w (optimizer s_k)) evs y)
          as (Hres & _).
        assert (Hst : state_of (loop_body patience w k s_k) = s)
          by (destruct Hend as [[e' Hb]|Hb]; rewrite Hb; reflexivity).
        rewrite Hst, Hres in Ha.
        eexists. split; [exact Ha|]. split; [simpl; lia | reflexivity]. }
    destruct Hext as (later & Hlater & Hshort & Hone).
    unfold checkpoints_in_order. rewrite Hsnap.
    split; [split; [exact Hlens|]|split; [exact Hcount|split]].
    - eapply Forall_impl; [|exact Hpre]. intros x [l Hx].
      rewrite Hlater, Hx, <- app_assoc. eexists; reflexivity.
    - rewrite Hlater, length_app, Hlen.
      destruct later as [|t [|t' later]]; simpl in *; [left|right|]; lia.
    - intros Hb. rewrite Hlater, length_app, Hlen, (Hone Hb). lia. }
  destruct (final_state_cases patience w n_iter n_initial)
    as [(s & Hrun & _)
       |(k & s_k & [(_ & Hk & Hlen & s & Hb & Hrun)
                   |(_ & Hk & Hlen & e & s & Hb & Hrun)])];
    rewrite Hrun; cbn [final_state].
  - exact (checkpoints_at_head patience w n_iter n_initial s Hrun).
  - destruct (Hstop k s_k Hk Hlen s (or_intror Hb)) as (H1 & H2 & _ & H3).
    split; [exact H1|]. rewrite H2, (H3 Hb).
    replace (S k - 1)%nat with k by lia. reflexivity.
  - destruct (Hstop k s_k Hk Hlen s (or_introl (ex_intro _ e Hb)))
      as (H1 & H2 & [H3|H3] & _).
    + split; [exact H1|]. left. now rewrite H2, H3.
    + split; [exact H1|]. right. rewrite H2, H3.
      replace (S k - 1)%nat with k by lia. reflexivity.
Qed.

(** ** The convergence plot *)

Lemma Qgtb_compat (x b b' : Q) : b == b' -> Qgtb x b = Qgtb x b'.
Proof.
  intros H. destruct (Qgtb x b') eqn:E.
  - apply Qgtb_true. apply Qgtb_true in E. now rewrite H.
  - apply Qgtb_false. apply Qgtb_false in E. now rewrite H.
Qed.

Lemma last_default {A : Type} (l : list A) (x d d' : A) :
  last (x :: l) d = last (x :: l) d'.
Proof.
  revert x. induction l as [|y l IH]; intros x; [reflexivity|].
  change (last (y :: l) d = last (y :: l) d'). apply IH.
Qed.

Lemma best_so_far_curve_last (current_best : Q) (objectives : list Q) :
  last (best_so_far_curve current_best objectives) current_best
  = running_best current_best objectives.
Proof.
  revert current_best. induction objectives as [|obj rest IH]; intros b;
    [reflexivity|].
  unfold running_best. cbn [fold_left best_so_far_curve].
  fold (running_best (if Qgtb obj b then obj else b) rest).
  rewrite <- IH.
  destruct (best_so_far_curve (if Qgtb obj b then obj else b) rest) as [|c l];
    [reflexivity|].
  exact (last_default l c b (if Qgtb obj b then obj else b)).
Qed.

(** X8: the red curve of the convergence plot has one point per
    objective, never decreases from the initial value on, lies on or above
    every objective, takes only the initial value or objectives plotted so
    far, and ends at the running best of the whole list. *)
Theorem best_so_far_curve_shape :
  forall (current_best : Q) (objectives : list Q),
    List.length (best_so_far_curve current_best objectives)
      = List.length objectives /\
    Sorted Qle (current_best :: best_so_far_curve current_best objectives) /\
    Forall2 Qle objectives (best_so_far_curve current_best objectives) /\
    Forall (fun v => v = current_best \/ In v objectives)
           (best_so_far_curve current_best objectives) /\
    last (best_so_far_curve current_best objectives) current_best
      = running_best current_best objectives.
Proof.
  intros b l. split; [|split; [|split; [|split]]].
  - revert b. induction l as [|x l IH]; intros b; simpl; [reflexivity|].
    now rewrite IH.
  - revert b. induction l as [|x l IH]; intros b; simpl.
    + repeat constructor.
    + constructor; [apply IH|]. constructor.
      destruct (Qgtb x b) eqn:E; [|apply Qle_refl].
      apply Qgtb_true in E. now apply Qlt_le_weak.
  - revert b. induction l as [|x l IH]; intros b; simpl; constructor.
    + destruct (Qgtb x b) eqn:E; [apply Qle_refl|]. now apply Qgtb_false in E.
    + apply IH.
  - revert b. induction l as [|x l IH]; intros b; simpl; constructor.
    + destruct (Qgtb x b); [right; now left | now left].
    + eapply Forall_impl; [|apply IH]. intros v [->|Hin].
      * destruct (Qgtb x b); [right; now left | now left].
      * right. now right.
  - apply best_so_far_curve_last.
Qed.

Lemma running_best_lower (b : Q) (l : list Q) : b <= running_best b l.
Proof.
  revert b. induction l as [|x l IH]; intros b; [apply Qle_refl|].
  unfold running_best. simpl. fold (running_best (if Qgtb x b then x else b) l).
  eapply Qle_trans; [|apply IH].
  destruct (Qgtb x b) eqn:E; [|apply Qle_refl].
  apply Qgtb_true in E. now apply Qlt_le_weak.
Qed.

(** Leaving out values that are not above the current best does not
    change the running best. *)
Lemma running_best_valid_only (l : list trial) (b b' : Q) :
  b == b' ->
  Forall (fun t => is_valid t = false -> objective t <= b) l ->
  running_best b (map objective (filter is_valid l))
  == running_best b' (map objective l).
Proof.
  revert b b'. induction l as [|t l IH]; intros b b' Hb Hall;
    [exact Hb|].
  inversion Hall as [|? ? Ht Hl]; subst. simpl.
  assert (Hnext : forall c c', c == c' -> b <= c ->
            running_best c (map objective (filter is_valid l))
            == running_best c' (map objective l)).
  { intros c c' Hc Hle. apply IH; [exact Hc|].
    eapply Forall_impl; [|exact Hl]. intros a Ha Hv.
    eapply Qle_trans; [exact (Ha Hv) | exact Hle]. }
  unfold running_best at 2. simpl.
  fold (running_best (if Qgtb (objective t) b' then objective t else b')
                     (map objective l)).
  destruct (is_valid t) eqn:Hv.
  - simpl. unfold running_best at 1. simpl.
    fold (running_best (if Qgtb (objective t) b then objective t else b)
                       (map objective (filter is_valid l))).
    rewrite (Qgtb_compat (objective t) b b' Hb).
    destruct (Qgtb (objective t) b') eqn:E.
    + apply Hnext; [reflexivity|]. apply Qgtb_true in E.
      rewrite Hb. now apply Qlt_le_weak.
    + apply Hnext; [exact Hb | apply Qle_refl].
  - assert (E : Qgtb (objective t) b' = false)
      by (apply Qgtb_false; rewrite <- Hb; now apply Ht).
    rewrite E. apply Hnext; [exact Hb | apply Qle_refl].
Qed.

(** X9: in the final state of every run, [best_objective] is the running
    best of the recorded objectives from [-999.0] on, so it can be
    recomputed from the trial history alone; and the last point of the
    plot's red curve, which is computed from the valid trials only and
    from [-999], is equal to it. *)
Theorem plot_agrees_with_loop :
  forall (patience : nat) (w : world) (n_iter n_initial : nat),
    best_objective (final_state (optimization_loop patience w n_iter n_initial))
    = running_best (-999.0)
        (map objective
           (all_results
              (final_state (optimization_loop patience w n_iter n_initial)))) /\
    last (best_so_far_curve (-999)
            (map objective
               (filter is_valid
                  (all_results
                     (final_state
                        (optimization_loop patience w n_iter n_initial))))))
         (-999)
    == best_objective
         (final_state (optimization_loop patience w n_iter n_initial)).
Proof.
  intros patience w n_iter n_initial.
  assert (H : best_objective
                (final_state (optimization_loop patience w n_iter n_initial))
              = running_best (-999.0)
                  (map objective
                     (all_results
                        (final_state
                           (optimization_loop patience w n_iter n_initial))))).
  { apply (loop_invariant patience w n_initial
             (fun s => best_objective s
                       = running_best (-999.0) (map objective (all_results s))));
      [reflexivity|].
    intros n s _ _ Hs.
    destruct (loop_body_recorded patience w n s)
      as [(evs & e & _ & ->)|(evs & y & _ & (_ & Ha & Hb & _))].
    - exact Hs.
    - rewrite Ha, Hb.
      destruct (record_trial_results n s (ask w (optimizer s)) evs y) as (-> & _).
      rewrite map_app. unfold running_best. rewrite fold_left_app. simpl.
      fold (running_best (-999.0) (map objective (all_results s))).
      rewrite <- Hs. unfold record_trial.
      destruct (Qgtb (- y) (best_objective s)); reflexivity. }
  split; [exact H|].
  rewrite best_so_far_curve_last, H.
  apply running_best_valid_only; [reflexivity|].
  destruct (trial_history_consistent patience w n_iter n_initial)
    as (_ & _ & _ & Hall).
  eapply Forall_impl; [|exact Hall]. intros t [_ Hpen] Hv.
  rewrite (Hpen Hv). discriminate.
Qed.

(** ** The most recent results file *)

Lemma max_by_mtime_spec (env : evaluation_env) (rest : list string) :
  forall (best : string) (best_key : Q) (before after : list string),
    st_mtime env best = inr best_key ->
    Forall (fun p => exists k, st_mtime env p = inr k /\ k < best_key) before ->
    Forall (fun p => exists k, st_mtime env p = inr k /\ k <= best_key) after ->
    match max_by_mtime env best best_key rest with
    | inr latest =>
        exists before' after' key,
          before ++ best :: after ++ rest = before' ++ latest :: after' /\
          st_mtime env latest = inr key /\
          Forall (fun p => exists k, st_mtime env p = inr k /\ k < key) before' /\
          Forall (fun p => exists k, st_mtime env p = inr k /\ k <= key) after'
    | inl e => exists p, In p rest /\ st_mtime env p = inl e
    end.
Proof.
  induction rest as [|p rest IH]; intros best bk before after Hbest Hb Ha.
  - simpl. exists before, after, bk. rewrite app_nil_r. repeat split; assumption.
  - simpl. destruct (st_mtime env p) as [e|k] eqn:Hp; simpl.
    + exists p. split; [now left | exact Hp].
    + destruct (Qgtb k bk) eqn:E.
      * apply Qgtb_true in E.
        specialize (IH p k (before ++ best :: after) [] Hp).
        assert (Hall : Forall (fun q => exists k', st_mtime env q = inr k' /\ k' < k)
                              (before ++ best :: after)).
        { apply Forall_app. split; [|constructor].
          - eapply Forall_impl; [|exact Hb]. intros q (k' & Hq & Hlt).
            exists k'. split; [exact Hq|]. eapply Qlt_trans; eassumption.
          - exists bk. split; assumption.
          - eapply Forall_impl; [|exact Ha]. intros q (k' & Hq & Hle).
            exists k'. split; [exact Hq|]. eapply Qle_lt_trans; eassumption. }
        specialize (IH Hall (Forall_nil _)).
        destruct (max_by_mtime env p k rest) as [e|latest].
        -- destruct IH as (q & Hin & Hq). exists q. split; [now right | exact Hq].
        -- destruct IH as (b' & a' & key & Heq & Hrest).
           exists b', a', key. split; [|exact Hrest].
           rewrite <- Heq. simpl. rewrite <- ?app_assoc. reflexivity.
      * apply Qgtb_false in E.
        specialize (IH best bk before (after ++ [p]) Hbest Hb).
        assert (Hall : Forall (fun q => exists k', st_mtime env q = inr k' /\ k' <= bk)
                              (after ++ [p])).
        { apply Forall_app. split; [exact Ha|]. constructor; [|constructor].
          exists k. split; assumption. }
        specialize (IH Hall).
        destruct (max_by_mtime env best bk rest) as [e|latest].
        -- destruct IH as (q & Hin & Hq). exists q. split; [now right | exact Hq].
        -- destruct IH as (b' & a' & key & Heq & Hrest).
           exists b', a', key. split; [|exact Hrest].
           rewrite <- Heq. simpl. rewrite <- ?app_assoc. reflexivity.
Qed.

(** X10: the file [evaluate_config] parses is the most recently modified
    of the matching files and, among files modified at the same time, the
    first in the order of the glob: every file before it is strictly
    older and every file after it is not newer.  The selection raises
    only on an empty list or when the modification time of one of the
    files cannot be read, whichever file that is. *)
Theorem latest_by_mtime_spec :
  forall (env : evaluation_env) (json_files : list string),
    match latest_by_mtime env json_files with
    | inr latest =>
        exists before after key,
          json_files = before ++ latest :: after /\
          st_mtime env latest = inr key /\
          Forall (fun p => exists k, st_mtime env p = inr k /\ k < key) before /\
          Forall (fun p => exists k, st_mtime env p = inr k /\ k <= key) after
    | inl e =>
        json_files = [] \/
        exists p, In p json_files /\ st_mtime env p = inl e
    end.
Proof.
  intros env [|p rest]; simpl; [now left|].
  destruct (st_mtime env p) as [e|k] eqn:Hp; simpl.
  - right. exists p. split; [now left | exact Hp].
  - pose proof (max_by_mtime_spec env rest p k [] [] Hp (Forall_nil _)
                  (Forall_nil _)) as H.
    destruct (max_by_mtime env p k rest) as [e|latest].
    + right. destruct H as (q & Hin & Hq). exists q.
      split; [now right | exact Hq].
    + exact H.
Qed.

(** ** The comparison report *)


Lemma percent_change_of_value (before after : Q) :
  ~ before == 0 ->
  CompareResults.percent_change_of before after
  = inr (((after - before) / before) * 100).
Proof.
  intros H. unfold CompareResults.percent_change_of.
  destruct (Qeq_bool before 0) eqn:E; [|reflexivity].
  apply Qeq_bool_iff in E. contradiction.
Qed.

Lemma percent_change_sign (before after : Q) :
  0 < before ->
  forall t, (t < ((after - before) / before) * 100
             <-> before * (100 + t) < 100 * after).
Proof.
  intros Hb t.
  assert (Hne : ~ before == 0) by lra.
  assert (E : ((after - before) / before) * 100 * before
              == (after - before) * 100) by (field; exact Hne).
  split; intros H.
  - assert (t * before < ((after - before) / before) * 100 * before)
      by (apply Qmult_lt_compat_r; assumption).
    lra.
  - apply (Qmult_lt_r _ _ before Hb). lra.
Qed.

Lemma percent_change_sign_neg (before after : Q) :
  before < 0 ->
  forall t, (t < ((after - before) / before) * 100
             <-> 100 * after < before * (100 + t)).
Proof.
  intros Hb t.
  assert (Hne : ~ before == 0) by lra.
  assert (E : ((after - before) / before) * 100 * (- before)
              == - ((after - before) * 100)) by (field; exact Hne).
  assert (Hpos : 0 < - before) by lra.
  split; intros H.
  - assert (t * (- before) < ((after - before) / before) * 100 * (- before))
      by (apply Qmult_lt_compat_r; assumption).
    lra.
  - apply (Qmult_lt_r _ _ (- before) Hpos). lra.
Qed.

(** X12: the overall assessment in terms of the two objectives.  With a
    positive baseline it is SIGNIFICANT IMPROVEMENT exactly when the new
    objective exceeds the baseline by more than 2 percent, MARGINAL
    IMPROVEMENT when it exceeds it by at most that, NO SIGNIFICANT CHANGE
    when it is equal or lower by less than 2 percent, and REGRESSION
    otherwise.  With a negative baseline the sign of the change is
    reversed: a higher objective is never reported as an improvement and
    a lower one always is.  A baseline of zero raises
    [ZeroDivisionError]. *)
Theorem assessment_thresholds :
  forall before_obj after_obj,
    (0 < before_obj ->
     exists change,
       CompareResults.percent_change_of before_obj after_obj = inr change /\
       (CompareResults.assess change = CompareResults.SIGNIFICANT_IMPROVEMENT
        <-> 1.02 * before_obj < after_obj) /\
       (CompareResults.assess change = CompareResults.MARGINAL_IMPROVEMENT
        <-> before_obj < after_obj /\ after_obj <= 1.02 * before_obj) /\
       (CompareResults.assess change = CompareResults.NO_SIGNIFICANT_CHANGE
        <-> 0.98 * before_obj < after_obj /\ after_obj <= before_obj) /\
       (CompareResults.assess change = CompareResults.REGRESSION
        <-> after_obj <= 0.98 * before_obj)) /\
    (before_obj < 0 ->
     exists change,
       CompareResults.percent_change_of before_obj after_obj = inr change /\
       (before_obj < after_obj ->
        CompareResults.assess change = CompareResults.NO_SIGNIFICANT_CHANGE \/
        CompareResults.assess change = CompareResults.REGRESSION) /\
       (after_obj < before_obj ->
        CompareResults.assess change = CompareResults.SIGNIFICANT_IMPROVEMENT \/
        CompareResults.assess change = CompareResults.MARGINAL_IMPROVEMENT)) /\
    (before_obj == 0 ->
     CompareResults.percent_change_of before_obj after_obj
     = inl CompareResults.ZeroDivisionError).
Proof.
  intros b a. split; [|split].
  - intros Hb. eexists. split; [apply percent_change_of_value; lra|].
    pose proof (percent_change_sign b a Hb) as Hs.
    assert (H2 : Qgtb ((a - b) / b * 100) 2 = true <-> 102 * b < 100 * a)
      by (rewrite Qgtb_true, Hs; split; intros; lra).
    assert (H0 : Qgtb ((a - b) / b * 100) 0 = true <-> b < a)
      by (rewrite Qgtb_true, Hs; split; intros; lra).
    assert (Hm : Qgtb ((a - b) / b * 100) (-2) = true <-> 98 * b < 100 * a)
      by (rewrite Qgtb_true, Hs; split; intros; lra).
    unfold CompareResults.assess.
    destruct (Qgtb ((a - b) / b * 100) 2);
      [pose proof (proj1 H2 eq_refl)
      |assert (~ 102 * b < 100 * a) by (intros X; apply H2 in X; discriminate)];
    (destruct (Qgtb ((a - b) / b * 100) 0);
      [pose proof (proj1 H0 eq_refl)
      |assert (~ b < a) by (intros X; apply H0 in X; discriminate)]);
    (destruct (Qgtb ((a - b) / b * 100) (-2));
      [pose proof (proj1 Hm eq_refl)
      |assert (~ 98 * b < 100 * a) by (intros X; apply Hm in X; discriminate)]);
    clear H2 H0 Hm Hs;
    repeat split; intros; try discriminate; try reflexivity;
      try (exfalso; lra); try lra;
      match goal with
      | H : _ /\ _ |- _ => destruct H; exfalso; lra
      end.
  - intros Hb. eexists. split; [apply percent_change_of_value; lra|].
    pose proof (percent_change_sign_neg b a Hb) as Hs.
    unfold CompareResults.assess. split.
    + intros Hlt.
      assert (H0 : ~ 0 < (a - b) / b * 100) by (rewrite Hs; lra).
      assert (E0 : Qgtb ((a - b) / b * 100) 0 = false)
        by (apply Qgtb_false; now apply Qnot_lt_le).
      assert (E2 : Qgtb ((a - b) / b * 100) 2 = false).
      { apply Qgtb_false. apply Qnot_lt_le. rewrite Hs. lra. }
      rewrite E2, E0. destruct (Qgtb _ (-2)); [now left | now right].
    + intros Hlt.
      assert (E0 : Qgtb ((a - b) / b * 100) 0 = true)
        by (apply Qgtb_true; rewrite Hs; lra).
      rewrite E0. destruct (Qgtb _ 2); [now left | now right].
  - intros Hz. unfold CompareResults.percent_change_of.
    apply Qeq_bool_iff in Hz. now rewrite Hz.
Qed.

Lemma rbind_inr {A B : Type} (m : CompareResults.report A)
    (k : A -> CompareResults.report B) (out : list CompareResults.report_line)
    (b : B) :
  CompareResults.rbind m k = (out, inr b) ->
  exists out1 a out2,
    m = (out1, inr a) /\ k a = (out2, inr b) /\ out = out1 ++ out2.
Proof.
  unfold CompareResults.rbind. destruct m as [out1 [e|a]]; [discriminate|].
  destruct (k a) as [out2 r] eqn:Hk. intros H. injection H as <- ->.
  now exists out1, a, out2.
Qed.

Lemma lift_inr {A : Type} (r : result A) (out : list CompareResults.report_line)
    (a : A) :
  CompareResults.lift r = (out, inr a) -> out = [] /\ r = inr a.
Proof. unfold CompareResults.lift. intros H. injection H as <- ->. now split. Qed.

Lemma say_inr (l : CompareResults.report_line)
    (out : list CompareResults.report_line) (u : unit) :
  CompareResults.say l = (out, inr u) -> out = [l].
Proof. unfold CompareResults.say. intros H. now injection H as <-. Qed.

Lemma number_inr (v : json) (q : Q) :
  CompareResults.number v = inr q <-> as_number v = Some q.
Proof.
  unfold CompareResults.number. destruct (as_number v); split; intros H;
    try discriminate; injection H as ->; reflexivity.
Qed.

(** A block that prints looked both values up, found numbers, and a
    baseline different from zero. *)
Lemma metric_block_inr (name : string) (lb la : result json)
    (dir : Q -> option CompareResults.direction)
    (out : list CompareResults.report_line) (bv av : json) :
  CompareResults.metric_block name lb la dir = (out, inr (bv, av)) ->
  lb = inr bv /\ la = inr av /\
  exists b a,
    as_number bv = Some b /\ as_number av = Some a /\ ~ b == 0 /\
    out = [CompareResults.Metric name bv av (((a - b) / b) * 100)
                                 (dir (((a - b) / b) * 100))].
Proof.
  unfold CompareResults.metric_block. intros H.
  apply rbind_inr in H. destruct H as (o1 & x & o2 & H1 & H & ->).
  apply lift_inr in H1. destruct H1 as [-> ->].
  apply rbind_inr in H. destruct H as (o1 & y & o3 & H1 & H & ->).
  apply lift_inr in H1. destruct H1 as [-> ->].
  apply rbind_inr in H. destruct H as (o1 & ch & o4 & H1 & H & ->).
  apply lift_inr in H1. destruct H1 as [-> Hch].
  apply rbind_inr in H. destruct H as (o1 & u & o5 & H1 & H & ->).
  apply say_inr in H1. subst o1.
  unfold CompareResults.rret in H. injection H as <- <- <-.
  split; [reflexivity|]. split; [reflexivity|].
  unfold CompareResults.percent_change in Hch.
  destruct (CompareResults.number y) as [e|a] eqn:Ha; [discriminate|].
  destruct (CompareResults.number x) as [e|b] eqn:Hb; [discriminate|].
  simpl in Hch. unfold CompareResults.percent_change_of in Hch.
  destruct (Qeq_bool b 0) eqn:Hz; [discriminate|].
  injection Hch as <-.
  exists b, a. apply number_inr in Ha, Hb.
  split; [exact Hb|]. split; [exact Ha|]. split; [|reflexivity].
  intros Heq. apply Qeq_bool_iff in Heq. congruence.
Qed.

Lemma zero_change (b : Q) : ~ b == 0 -> ((b - b) / b) * 100 == 0.
Proof. intros H. field. exact H. Qed.

Lemma lower_is_better_zero (ch : Q) :
  ch == 0 ->
  CompareResults.lower_is_better ch = Some CompareResults.regression.
Proof.
  intros H. unfold CompareResults.lower_is_better.
  destruct (Qltb ch 0) eqn:E; [|reflexivity].
  apply Qltb_true in E. rewrite H in E. discriminate.
Qed.

Lemma higher_is_better_zero (ch : Q) :
  ch == 0 ->
  CompareResults.higher_is_better ch = Some CompareResults.regression.
Proof.
  intros H. unfold CompareResults.higher_is_better.
  destruct (Qgtb ch 0) eqn:E; [|reflexivity].
  apply Qgtb_true in E. rewrite H in E. discriminate.
Qed.

(** A block that compares a value with itself prints that value twice and
    a change of zero. *)
Lemma unchanged_block (name : string) (look : result json)
    (dir : Q -> option CompareResults.direction)
    (out : list CompareResults.report_line) (bv av : json) :
  CompareResults.metric_block name look look dir = (out, inr (bv, av)) ->
  bv = av /\
  exists ch, ch == 0 /\ out = [CompareResults.Metric name bv bv ch (dir ch)].
Proof.
  intros H. apply metric_block_inr in H.
  destruct H as (Hb & Ha & b & a & Hnb & Hna & Hz & ->).
  assert (bv = av) by congruence. subst av.
  assert (a = b) by congruence. subst a.
  split; [reflexivity|]. eexists. split; [|reflexivity].
  now apply zero_change.
Qed.

Lemma assess_zero (ch : Q) :
  ch == 0 -> CompareResults.assess ch = CompareResults.NO_SIGNIFICANT_CHANGE.
Proof.
  intros H. unfold CompareResults.assess.
  assert (E2 : Qgtb ch 2 = false) by (apply Qgtb_false; rewrite H; discriminate).
  assert (E0 : Qgtb ch 0 = false) by (apply Qgtb_false; rewrite H; discriminate).
  assert (Em : Qgtb ch (-2) = true) by (apply Qgtb_true; rewrite H; reflexivity).
  now rewrite E2, E0, Em.
Qed.

Tactic Notation "report_step" hyp(H) "as" ident(o) ident(v) ident(Hs) :=
  let o2 := fresh "rest" in
  apply rbind_inr in H; destruct H as (o & v & o2 & Hs & H & ->);
  first [ apply lift_inr in Hs; destruct Hs as [-> Hs]
        | apply say_inr in Hs; subst o
        | idtac ].

(** Everything a report that was printed to the end went through. *)
Lemma print_comparison_inr (read : string -> result json)
    (before_file after_file : string) (out : list CompareResults.report_line) :
  CompareResults.print_comparison read before_file after_file = (out, inr tt) ->
  exists before after bh ah,
    read before_file = inr before /\ read after_file = inr after /\
    CompareResults.getitem2 before "modes" "hybrid" = inr bh /\
    CompareResults.getitem2 after "modes" "hybrid" = inr ah /\
    exists o1 o2 o3 o4 o5 o6 o7 rmse corr p3 p4 p5 p6 p7,
      CompareResults.metric_block "RMSE" (getitem bh "rmse") (getitem ah "rmse")
        CompareResults.lower_is_better = (o1, inr rmse) /\
      CompareResults.metric_block "Correlation" (getitem bh "correlation")
        (getitem ah "correlation") CompareResults.higher_is_better
        = (o2, inr corr) /\
      CompareResults.metric_block "MAE" (getitem bh "mae") (getitem ah "mae")
        CompareResults.lower_is_better = (o3, inr p3) /\
      CompareResults.metric_block "Average Regret"
        (CompareResults.getitem2 bh "performance" "avgRegret")
        (CompareResults.getitem2 ah "performance" "avgRegret")
        CompareResults.lower_is_better = (o4, inr p4) /\
      CompareResults.metric_block "Question Diversity"
        (CompareResults.getitem2 bh "personalization" "questionDiversity")
        (CompareResults.getitem2 ah "personalization" "questionDiversity")
        CompareResults.no_direction = (o5, inr p5) /\
      CompareResults.metric_block "Student Overlap"
        (CompareResults.getitem2 bh "personalization" "studentOverlap")
        (CompareResults.getitem2 ah "personalization" "studentOverlap")
        CompareResults.no_direction = (o6, inr p6) /\
      CompareResults.metric_block "Selection Concentration"
        (CompareResults.getitem2 bh "personalization" "selectionConcentration")
        (CompareResults.getitem2 ah "personalization" "selectionConcentration")
        CompareResults.no_direction = (o7, inr p7) /\
      exists bc br ac ar ch,
        as_number (fst corr) = Some bc /\ as_number (fst rmse) = Some br /\
        as_number (snd corr) = Some ac /\ as_number (snd rmse) = Some ar /\
        CompareResults.percent_change_of
          (CompareResults.report_objective bc br)
          (CompareResults.report_objective ac ar) = inr ch /\
        out = [CompareResults.Heading "OPTIMIZATION VALIDATION RESULTS";
               CompareResults.Configuration_changes;
               CompareResults.Heading "ACCURACY METRICS"]
              ++ o1 ++ o2 ++ o3
              ++ [CompareResults.Heading "PERFORMANCE METRICS"] ++ o4
              ++ [CompareResults.Heading "PERSONALIZATION METRICS"]
              ++ o5 ++ o6 ++ o7
              ++ [CompareResults.Heading "OVERALL ASSESSMENT";
                  CompareResults.Objective_function
                    (CompareResults.report_objective bc br)
                    (CompareResults.report_objective ac ar) ch;
                  CompareResults.Status (CompareResults.assess ch)].
Proof.
  unfold CompareResults.print_comparison, CompareResults.load_json. intros H.
  report_step H as x0 before Hb.
  report_step H as x1 after Ha.
  report_step H as x2 bh Hbh.
  report_step H as x3 ah Hah.
  report_step H as x4 u4 Hu4.
  report_step H as x5 u5 Hu5.
  report_step H as x6 u6 Hu6.
  report_step H as o1 rmse H1.
  report_step H as o2 corr H2.
  report_step H as o3 p3 H3.
  report_step H as x7 u7 Hu7.
  report_step H as o4 p4 H4.
  report_step H as x8 u8 Hu8.
  report_step H as o5 p5 H5.
  report_step H as o6 p6 H6.
  report_step H as o7 p7 H7.
  report_step H as x9 u9 Hu9.
  report_step H as y1 bc Hbc.
  report_step H as y2 br Hbr.
  report_step H as y3 ac Hac.
  report_step H as y4 ar Har.
  report_step H as y5 ch Hch.
  report_step H as y6 u10 Hu10.
  apply say_inr in H. subst.
  exists before, after, bh, ah. repeat (split; [assumption|]).
  exists o1, o2, o3, o4, o5, o6, o7, rmse, corr, p3, p4, p5, p6, p7.
  repeat (split; [assumption|]).
  exists bc, br, ac, ar, ch. rewrite number_inr in Hbc, Hbr, Hac, Har.
  repeat (split; [assumption|]).
  simpl. rewrite <- ?app_assoc. simpl. reflexivity.
Qed.

Lemma metric_block_ok (name : string) (lb la : result json)
    (dir : Q -> option CompareResults.direction) (bv av : json) (b a : Q) :
  lb = inr bv -> la = inr av ->
  as_number bv = Some b -> as_number av = Some a -> ~ b == 0 ->
  CompareResults.metric_block name lb la dir
  = ([CompareResults.Metric name bv av (((a - b) / b) * 100)
                            (dir (((a - b) / b) * 100))],
     inr (bv, av)).
Proof.
  intros -> -> Hb Ha Hz.
  unfold CompareResults.metric_block, CompareResults.percent_change,
    CompareResults.number. simpl. rewrite Ha, Hb. simpl.
  rewrite (percent_change_of_value b a Hz). reflexivity.
Qed.

(** X13: comparing a file with itself, when the report is printed to the
    end, prints for every metric the same value on both sides and a change
    of zero; each of RMSE, correlation, MAE and average regret is labelled
    "regression", since only a strict change in the good direction counts
    as an improvement, and the three personalization metrics carry no
    label; the objective is the same on both sides with a change of zero,
    and the verdict is NO SIGNIFICANT CHANGE. *)
Theorem self_comparison :
  forall (read : string -> result json) (file : string)
         (out : list CompareResults.report_line),
    CompareResults.print_comparison read file file = (out, inr tt) ->
    unchanged_report out.
Proof.
  intros read file out H.
  destruct (print_comparison_inr read file file out H)
    as (before & after & bh & ah & Hb & Ha & Hbh & Hah &
        o1 & o2 & o3 & o4 & o5 & o6 & o7 & rmse & corr & p3 & p4 & p5 & p6 & p7 &
        H1 & H2 & H3 & H4 & H5 & H6 & H7 &
        bc & br & ac & ar & ch & Hbc & Hbr & Hac & Har & Hch & ->).
  assert (after = before) by congruence. subst after.
  assert (ah = bh) by congruence. subst ah.
  destruct rmse as [rb ra], corr as [cb ca], p3 as [b3 a3], p4 as [b4 a4],
    p5 as [b5 a5], p6 as [b6 a6], p7 as [b7 a7].
  apply unchanged_block in H1, H2, H3, H4, H5, H6, H7.
  destruct H1 as (<- & c1 & Z1 & ->), H2 as (<- & c2 & Z2 & ->),
    H3 as (<- & c3 & Z3 & ->), H4 as (<- & c4 & Z4 & ->),
    H5 as (<- & c5 & Z5 & ->), H6 as (<- & c6 & Z6 & ->),
    H7 as (<- & c7 & Z7 & ->).
  simpl in Hbc, Hbr, Hac, Har.
  assert (ac = bc) by congruence. subst ac.
  assert (ar = br) by congruence. subst ar.
  unfold CompareResults.percent_change_of in Hch.
  destruct (Qeq_bool (CompareResults.report_objective bc br) 0) eqn:Hz;
    [discriminate|].
  injection Hch as <-.
  assert (Hzero : ((CompareResults.report_objective bc br
                    - CompareResults.report_objective bc br)
                   / CompareResults.report_objective bc br) * 100 == 0).
  { apply zero_change. intros Heq. apply Qeq_bool_iff in Heq. congruence. }
  rewrite (assess_zero _ Hzero).
  rewrite (lower_is_better_zero c1 Z1), (higher_is_better_zero c2 Z2),
    (lower_is_better_zero c3 Z3), (lower_is_better_zero c4 Z4).
  unfold CompareResults.no_direction.
  exists rb, cb, b3, b4, b5, b6, b7, c1, c2, c3, c4, c5, c6, c7.
  eexists. eexists. split; [|reflexivity].
  repeat (constructor; [assumption|]). constructor.
Qed.

Lemma self_comparison_witness :
  exists out,
    CompareResults.print_comparison (fun _ => inr (testing_file 0.5 0.70))
                                    "a.json" "a.json" = (out, inr tt) /\
    unchanged_report out.
Proof.
  eexists. split; [vm_compute; reflexivity|].
  apply (self_comparison (fun _ => inr (testing_file 0.5 0.70)) "a.json").
  vm_compute. reflexivity.
Defined.

Lemma lift_ok {A : Type} (r : result A) (a : A) :
  r = inr a -> CompareResults.lift r = ([], inr a).
Proof. now intros ->. Qed.

Lemma rbind_fst_in {A B : Type} (l : CompareResults.report_line)
    (m : CompareResults.report A) (k : A -> CompareResults.report B) :
  In l (fst (CompareResults.rbind m k)) ->
  In l (fst m) \/ exists a, snd m = inr a /\ In l (fst (k a)).
Proof.
  unfold CompareResults.rbind. destruct m as [o [e|a]]; simpl; [now left|].
  destruct (k a) as [o' r] eqn:Hk. simpl. intros H.
  apply in_app_or in H. destruct H as [H|H]; [now left|].
  right. exists a. rewrite Hk. now split.
Qed.

Lemma in_rbind_now {A B : Type} (l : CompareResults.report_line)
    (m : CompareResults.report A) (k : A -> CompareResults.report B) :
  In l (fst m) -> In l (fst (CompareResults.rbind m k)).
Proof.
  unfold CompareResults.rbind. destruct m as [o [e|a]]; simpl; [trivial|].
  destruct (k a) as [o' r]. simpl. intros H. apply in_or_app. now left.
Qed.

Lemma in_rbind_later {A B : Type} (l : CompareResults.report_line)
    (m : CompareResults.report A) (k : A -> CompareResults.report B)
    (o : list CompareResults.report_line) (a : A) :
  m = (o, inr a) -> In l (fst (k a)) -> In l (fst (CompareResults.rbind m k)).
Proof.
  intros -> H. unfold CompareResults.rbind.
  destruct (k a) as [o' r]. simpl in *. apply in_or_app. now right.
Qed.

Lemma snd_rbind_ok {A B : Type} (m : CompareResults.report A)
    (k : A -> CompareResults.report B)
    (o : list CompareResults.report_line) (a : A) :
  m = (o, inr a) -> snd (CompareResults.rbind m k) = snd (k a).
Proof.
  intros ->. unfold CompareResults.rbind. now destruct (k a).
Qed.

(** A metric block prints no heading. *)
Lemma metric_block_no_heading (name : string) (lb la : result json)
    (dir : Q -> option CompareResults.direction) (title : string) :
  ~ In (CompareResults.Heading title)
       (fst (CompareResults.metric_block name lb la dir)).
Proof.
  unfold CompareResults.metric_block.
  destruct lb as [e|bv]; [simpl; tauto|].
  destruct la as [e|av]; [simpl; tauto|].
  simpl. destruct (CompareResults.percent_change bv av) as [e|ch];
    simpl; [tauto|].
  intros [H|[]]. discriminate H.
Qed.

(** A metric block that returns printed its line. *)
Lemma metric_block_snd (name : string) (lb la : result json)
    (dir : Q -> option CompareResults.direction) (p : json * json) :
  snd (CompareResults.metric_block name lb la dir) = inr p ->
  exists b a,
    lb = inr (fst p) /\ la = inr (snd p) /\
    as_number (fst p) = Some b /\ as_number (snd p) = Some a /\ ~ b == 0.
Proof.
  destruct (CompareResults.metric_block name lb la dir) as [o r] eqn:E.
  simpl. intros ->. destruct p as [bv av].
  apply metric_block_inr in E.
  destruct E as (Hb & Ha & b & a & Hnb & Hna & Hz & _).
  exists b, a. simpl. repeat split; assumption.
Qed.

Ltac reach_lift H a Hs :=
  apply rbind_fst_in in H;
  destruct H as [H | (a & Hs & H)]; [destruct H|]; simpl in Hs.

Ltac reach_say H :=
  let u := fresh "u" in
  let Hu := fresh "Hu" in
  apply rbind_fst_in in H;
  destruct H as [H | (u & Hu & H)];
  [destruct H as [H|[]]; discriminate H|]; clear u Hu.

Ltac reach_block H p Hs :=
  apply rbind_fst_in in H;
  destruct H as [H | (p & Hs & H)];
  [exfalso; exact (metric_block_no_heading _ _ _ _ _ H)|];
  apply metric_block_snd in Hs.

(** The heading of the assessment is printed only after the seven metric
    blocks. *)
Lemma assessment_heading_comparable (read : string -> result json)
    (before_file after_file : string) :
  In (CompareResults.Heading "OVERALL ASSESSMENT")
     (fst (CompareResults.print_comparison read before_file after_file)) ->
  comparable read before_file after_file.
Proof.
  unfold CompareResults.print_comparison, CompareResults.load_json. intros H.
  reach_lift H before Hb.
  reach_lift H after Ha.
  reach_lift H bh Hbh.
  reach_lift H ah Hah.
  reach_say H. reach_say H. reach_say H.
  reach_block H rmse H1.
  reach_block H corr H2.
  reach_block H p3 H3.
  reach_say H.
  reach_block H p4 H4.
  reach_say H.
  reach_block H p5 H5.
  reach_block H p6 H6.
  reach_block H p7 H7.
  clear H.
  destruct H1 as (x1 & y1 & L1 & R1 & X1 & Y1 & Z1).
  destruct H2 as (x2 & y2 & L2 & R2 & X2 & Y2 & Z2).
  destruct H3 as (x3 & y3 & L3 & R3 & X3 & Y3 & Z3).
  destruct H4 as (x4 & y4 & L4 & R4 & X4 & Y4 & Z4).
  destruct H5 as (x5 & y5 & L5 & R5 & X5 & Y5 & Z5).
  destruct H6 as (x6 & y6 & L6 & R6 & X6 & Y6 & Z6).
  destruct H7 as (x7 & y7 & L7 & R7 & X7 & Y7 & Z7).
  exists before, after, bh, ah. repeat (split; [assumption|]).
  unfold report_lookups.
  constructor; [exists (fst rmse), (snd rmse), x1, y1; repeat split; assumption|].
  constructor; [exists (fst corr), (snd corr), x2, y2; repeat split; assumption|].
  constructor; [exists (fst p3), (snd p3), x3, y3; repeat split; assumption|].
  constructor; [exists (fst p4), (snd p4), x4, y4; repeat split; assumption|].
  constructor; [exists (fst p5), (snd p5), x5, y5; repeat split; assumption|].
  constructor; [exists (fst p6), (snd p6), x6, y6; repeat split; assumption|].
  constructor; [exists (fst p7), (snd p7), x7, y7; repeat split; assumption|].
  constructor.
Qed.

(** X14: [print_comparison] prints its seven metric blocks and reaches the
    heading of the overall assessment exactly when both files parse and
    have a [modes.hybrid] section in which the seven values it reads (rmse,
    correlation, mae, performance.avgRegret and the three personalization
    values) are numbers and no baseline value is zero: a missing key, a
    value that is not a number and a baseline value of zero each end the
    report before that heading.  Once the heading is printed, either the
    report is printed to the end or the division by a baseline objective
    of zero raises ZeroDivisionError; and a report printed to the end has
    passed the heading. *)
Theorem print_comparison_reaches_assessment :
  forall (read : string -> result json) (before_file after_file : string),
    (In (CompareResults.Heading "OVERALL ASSESSMENT")
        (fst (CompareResults.print_comparison read before_file after_file))
     <-> comparable read before_file after_file) /\
    (comparable read before_file after_file ->
     snd (CompareResults.print_comparison read before_file after_file)
     = inr tt \/
     snd (CompareResults.print_comparison read before_file after_file)
     = inl CompareResults.ZeroDivisionError) /\
    (snd (CompareResults.print_comparison read before_file after_file)
     = inr tt ->
     In (CompareResults.Heading "OVERALL ASSESSMENT")
        (fst (CompareResults.print_comparison read before_file after_file))).
Proof.
  intros read bf af.
  assert (Hprefix :
    comparable read bf af ->
    In (CompareResults.Heading "OVERALL ASSESSMENT")
       (fst (CompareResults.print_comparison read bf af)) /\
    (snd (CompareResults.print_comparison read bf af) = inr tt \/
     snd (CompareResults.print_comparison read bf af)
     = inl CompareResults.ZeroDivisionError)).
  { intros (before & after & bh & ah & Hb & Ha & Hbh & Hah & Hall).
    unfold report_lookups in Hall.
    inversion Hall as [|? ? (rb & ra & nrb & nra & R1 & R2 & R3 & R4 & R5) Hall1];
      subst.
    inversion Hall1 as [|? ? (cb & ca & ncb & nca & C1 & C2 & C3 & C4 & C5) Hall2];
      subst.
    inversion Hall2 as [|? ? (b3 & a3 & n3 & m3 & M1 & M2 & M3 & M4 & M5) Hall3];
      subst.
    inversion Hall3 as [|? ? (b4 & a4 & n4 & m4 & G1 & G2 & G3 & G4 & G5) Hall4];
      subst.
    inversion Hall4 as [|? ? (b5 & a5 & n5 & m5 & D1 & D2 & D3 & D4 & D5) Hall5];
      subst.
    inversion Hall5 as [|? ? (b6 & a6 & n6 & m6 & O1 & O2 & O3 & O4 & O5) Hall6];
      subst.
    inversion Hall6 as [|? ? (b7 & a7 & n7 & m7 & S1 & S2 & S3 & S4 & S5) _];
      subst.
    unfold CompareResults.print_comparison, CompareResults.load_json. split.
    - eapply in_rbind_later; [apply lift_ok; exact Hb|].
      eapply in_rbind_later; [apply lift_ok; exact Ha|].
      eapply in_rbind_later; [apply lift_ok; exact Hbh|].
      eapply in_rbind_later; [apply lift_ok; exact Hah|].
      eapply in_rbind_later; [reflexivity|].
      eapply in_rbind_later; [reflexivity|].
      eapply in_rbind_later; [reflexivity|].
      eapply in_rbind_later; [eapply metric_block_ok; eassumption|].
      eapply in_rbind_later; [eapply metric_block_ok; eassumption|].
      eapply in_rbind_later; [eapply metric_block_ok; eassumption|].
      eapply in_rbind_later; [reflexivity|].
      eapply in_rbind_later; [eapply metric_block_ok; eassumption|].
      eapply in_rbind_later; [reflexivity|].
      eapply in_rbind_later; [eapply metric_block_ok; eassumption|].
      eapply in_rbind_later; [eapply metric_block_ok; eassumption|].
      eapply in_rbind_later; [eapply metric_block_ok; eassumption|].
      apply in_rbind_now. left. reflexivity.
    - erewrite snd_rbind_ok by (apply lift_ok; exact Hb).
      erewrite snd_rbind_ok by (apply lift_ok; exact Ha).
      erewrite snd_rbind_ok by (apply lift_ok; exact Hbh).
      erewrite snd_rbind_ok by (apply lift_ok; exact Hah).
      erewrite snd_rbind_ok by reflexivity.
      erewrite snd_rbind_ok by reflexivity.
      erewrite snd_rbind_ok by reflexivity.
      erewrite snd_rbind_ok by (eapply metric_block_ok; eassumption).
      erewrite snd_rbind_ok by (eapply metric_block_ok; eassumption).
      erewrite snd_rbind_ok by (eapply metric_block_ok; eassumption).
      erewrite snd_rbind_ok by reflexivity.
      erewrite snd_rbind_ok by (eapply metric_block_ok; eassumption).
      erewrite snd_rbind_ok by reflexivity.
      erewrite snd_rbind_ok by (eapply metric_block_ok; eassumption).
      erewrite snd_rbind_ok by (eapply metric_block_ok; eassumption).
      erewrite snd_rbind_ok by (eapply metric_block_ok; eassumption).
      erewrite snd_rbind_ok by reflexivity.
      cbn [fst snd].
      erewrite snd_rbind_ok by (apply lift_ok; apply number_inr; exact C3).
      erewrite snd_rbind_ok by (apply lift_ok; apply number_inr; exact R3).
      erewrite snd_rbind_ok by (apply lift_ok; apply number_inr; exact C4).
      erewrite snd_rbind_ok by (apply lift_ok; apply number_inr; exact R4).
      unfold CompareResults.percent_change_of.
      destruct (Qeq_bool (CompareResults.report_objective ncb nrb) 0).
      + right. reflexivity.
      + left. reflexivity. }
  split; [split|split].
  - apply assessment_heading_comparable.
  - intros H. exact (proj1 (Hprefix H)).
  - intros H. exact (proj2 (Hprefix H)).
  - intros H. clear Hprefix.
    destruct (CompareResults.print_comparison read bf af) as [out r] eqn:E.
    simpl in H. subst r.
    destruct (print_comparison_inr read bf af out E)
      as (before & after & bh & ah & _ & _ & _ & _ &
          o1 & o2 & o3 & o4 & o5 & o6 & o7 & rmse & corr & p3 & p4 & p5 & p6 & p7 &
          _ & _ & _ & _ & _ & _ & _ &
          bc & br & ac & ar & ch & _ & _ & _ & _ & _ & ->).
    cbn [fst]. repeat (apply in_or_app; right). left. reflexivity.
Qed.

(** An instance on each side: a pair of complete files is compared to the
    end; a baseline with an rmse of zero ends the report before the
    assessment; and a baseline whose objective is zero in exact arithmetic
    is comparable. *)
Example print_comparison_reaches_assessment_examples :
  snd (CompareResults.print_comparison
         (fun p => inr (if String.eqb p "a.json" then testing_file 0.5 0.70
                        else testing_file 0.8 0.65))
         "a.json" "b.json")
  = inr tt /\
  CompareResults.print_comparison
    (fun p => inr (if String.eqb p "a.json" then testing_file 0.5 0
                   else testing_file 0.8 0.65))
    "a.json" "b.json"
  = ([CompareResults.Heading "OPTIMIZATION VALIDATION RESULTS";
      CompareResults.Configuration_changes;
      CompareResults.Heading "ACCURACY METRICS"],
     inl CompareResults.ZeroDivisionError) /\
  comparable (fun p => inr (if String.eqb p "a.json" then testing_file 0.1 1.0
                            else testing_file 0.8 0.65))
             "a.json" "b.json".
Proof.
  split; [reflexivity|]. split; [reflexivity|].
  apply assessment_heading_comparable. vm_compute. tauto.
Qed.

(** ** The files the comparison script picks *)

Lemma insert_sorted_perm (x : string * Q) (l : list (string * Q)) :
  Permutation (CompareResults.insert_sorted x l) (x :: l).
Proof.
  induction l as [|y l IH]; simpl; [reflexivity|].
  destruct (Qltb (snd y) (snd x)); [|reflexivity].
  rewrite IH. apply perm_swap.
Qed.

Lemma insert_sorted_sorted (x : string * Q) (l : list (string * Q)) :
  StronglySorted key_le l ->
  StronglySorted key_le (CompareResults.insert_sorted x l).
Proof.
  induction l as [|y l IH]; intros Hs; simpl.
  - repeat constructor.
  - apply StronglySorted_inv in Hs. destruct Hs as [Hl Hy].
    destruct (Qltb (snd y) (snd x)) eqn:E.
    + apply Qltb_true in E. constructor; [now apply IH|].
      rewrite (insert_sorted_perm x l). constructor; [|exact Hy].
      unfold key_le. now apply Qlt_le_weak.
    + assert (Hle : snd x <= snd y).
      { destruct (Qlt_le_dec (snd y) (snd x)) as [Hlt|Hle]; [|exact Hle].
        apply Qltb_true in Hlt. congruence. }
      constructor; [constructor; assumption|].
      constructor; [exact Hle|].
      eapply Forall_impl; [|exact Hy]. intros z Hz. unfold key_le in *.
      eapply Qle_trans; eassumption.
Qed.

Lemma py_sorted_perm (l : list (string * Q)) :
  Permutation (CompareResults.py_sorted l) l.
Proof.
  induction l as [|x l IH]; simpl; [reflexivity|].
  rewrite insert_sorted_perm. now constructor.
Qed.

Lemma py_sorted_sorted (l : list (string * Q)) :
  StronglySorted key_le (CompareResults.py_sorted l).
Proof.
  induction l as [|x l IH]; simpl; [constructor|].
  now apply insert_sorted_sorted.
Qed.

Lemma strongly_sorted_app (l1 l2 : list (string * Q)) :
  StronglySorted key_le (l1 ++ l2) ->
  StronglySorted key_le l2 /\
  Forall (fun x => Forall (key_le x) l2) l1.
Proof.
  induction l1 as [|x l1 IH]; simpl; intros H.
  - split; [exact H | constructor].
  - apply StronglySorted_inv in H. destruct H as [Hs Hx].
    destruct (IH Hs) as [H2 H1]. split; [exact H2|].
    constructor; [|exact H1]. apply Forall_app in Hx. apply Hx.
Qed.

Lemma with_keys_spec (mtime : string -> result Q) (files : list string)
    (keyed : list (string * Q)) :
  CompareResults.with_keys mtime files = inr keyed ->
  map fst keyed = files /\
  Forall (fun x => mtime (fst x) = inr (snd x)) keyed.
Proof.
  revert keyed. induction files as [|p rest IH]; intros keyed H; simpl in H.
  - injection H as <-. split; [reflexivity | constructor].
  - destruct (mtime p) as [e|k] eqn:Hp; [discriminate|]. simpl in H.
    destruct (CompareResults.with_keys mtime rest) as [e|keyed']; [discriminate|].
    simpl in H. injection H as <-.
    destruct (IH keyed' eq_refl) as [Hf Hm]. simpl. split; [now rewrite Hf|].
    constructor; assumption.
Qed.

(** X15: the comparison script exits with status 1, reading no file, when
    fewer than two files match; otherwise it compares the two most
    recently modified files, the most recent one as "after": every other
    file is at most as recent as the "before" file, which is at most as
    recent as the "after" file.  An error while listing the files or
    reading a modification time ends the script before anything is
    printed. *)
Theorem compare_main_selection :
  forall (d : CompareResults.results_directory),
    match CompareResults.dir_glob d with
    | inl e => CompareResults.main d = ([], CompareResults.Traceback e)
    | inr files =>
        match CompareResults.with_keys (CompareResults.dir_mtime d) files with
        | inl e => CompareResults.main d = ([], CompareResults.Traceback e)
        | inr keyed =>
            map fst keyed = files /\
            Forall (fun x => CompareResults.dir_mtime d (fst x) = inr (snd x))
                   keyed /\
            ((List.length files < 2)%nat ->
             CompareResults.main d
             = ([CompareResults.Need_two_files], CompareResults.SystemExit 1)) /\
            ((2 <= List.length files)%nat ->
             exists before_file after_file kb ka others,
               Permutation keyed
                 (others ++ [(before_file, kb); (after_file, ka)]) /\
               Forall (fun x => snd x <= kb) others /\ kb <= ka /\
               fst (CompareResults.main d)
               = CompareResults.Comparing before_file after_file
                 :: fst (CompareResults.print_comparison
                           (CompareResults.dir_read d) before_file after_file) /\
               snd (CompareResults.main d)
               = match snd (CompareResults.print_comparison
                              (CompareResults.dir_read d) before_file after_file)
                 with
                 | inl e => CompareResults.Traceback e
                 | inr _ => CompareResults.Completed
                 end)
        end
    end.
Proof.
  intros d. unfold CompareResults.main.
  destruct (CompareResults.dir_glob d) as [e|files]; [reflexivity|]. simpl.
  destruct (CompareResults.with_keys (CompareResults.dir_mtime d) files)
    as [e|keyed] eqn:Hk; [reflexivity|].
  destruct (with_keys_spec _ _ _ Hk) as [Hfst Hm].
  split; [exact Hfst|]. split; [exact Hm|].
  assert (Hlen : List.length (map fst (CompareResults.py_sorted keyed))
                 = List.length files).
  { rewrite length_map, (Permutation_length (py_sorted_perm keyed)), <- Hfst.
    now rewrite length_map. }
  rewrite Hlen. split.
  - intros Hlt. apply Nat.ltb_lt in Hlt. now rewrite Hlt.
  - intros Hge.
    assert (Hnlt : (List.length files <? 2)%nat = false)
      by (apply Nat.ltb_ge; exact Hge).
    rewrite Hnlt. rewrite <- map_rev.
    destruct (rev (CompareResults.py_sorted keyed))
      as [|[af ka] [|[bf kb] r]] eqn:Hrev.
    + apply (f_equal (@List.length _)) in Hrev.
      rewrite length_rev, (Permutation_length (py_sorted_perm keyed)) in Hrev.
      rewrite <- Hfst, length_map in Hge. simpl in Hrev. lia.
    + apply (f_equal (@List.length _)) in Hrev.
      rewrite length_rev, (Permutation_length (py_sorted_perm keyed)) in Hrev.
      rewrite <- Hfst, length_map in Hge. simpl in Hrev. lia.
    + assert (Hsorted : CompareResults.py_sorted keyed
                        = rev r ++ [(bf, kb); (af, ka)]).
      { rewrite <- (rev_involutive (CompareResults.py_sorted keyed)), Hrev.
        simpl. now rewrite <- app_assoc. }
      pose proof (py_sorted_sorted keyed) as Hs. rewrite Hsorted in Hs.
      apply strongly_sorted_app in Hs. destruct Hs as [Hs2 Hs1].
      apply StronglySorted_inv in Hs2. destruct Hs2 as [_ Hba].
      exists bf, af, kb, ka, (rev r).
      split; [rewrite <- Hsorted; symmetry; apply py_sorted_perm|].
      split; [|split].
      * eapply Forall_impl; [|exact Hs1]. intros x Hx.
        inversion Hx; subst. assumption.
      * inversion Hba; subst. assumption.
      * simpl.
        destruct (CompareResults.print_comparison
                    (CompareResults.dir_read d) bf af) as [out res].
        split; reflexivity.
Qed.

(** With three files the two most recent ones are compared, whatever the
    order in which they are listed. *)
Example compare_main_three_files :
  fst (CompareResults.main three_results)
  = CompareResults.Comparing "a.json" "b.json"
    :: fst (CompareResults.print_comparison
              (CompareResults.dir_read three_results) "a.json" "b.json") /\
  snd (CompareResults.main three_results) = CompareResults.Completed /\
  In (CompareResults.Status CompareResults.SIGNIFICANT_IMPROVEMENT)
     (fst (CompareResults.main three_results)).
Proof.
  split; [reflexivity|]. split; [reflexivity|].
  vm_compute. repeat (first [left; reflexivity | right]).
Qed.

(** ** The no-improvement counter *)

Lemma head_counter (patience : nat) (w : world) (k n_initial : nat)
    (s : loop_state) :
  (0 < patience)%nat ->
  optimization_loop patience w k n_initial = Finished STOPPED_BUDGET s ->
  (no_improvement_count s < patience)%nat.
Proof.
  intros Hpos Hrun.
  pose proof (optimization_loop_shape patience w k n_initial) as Hsh.
  rewrite Hrun in Hsh. destruct Hsh as [_ [-> | Hlt]]; [|exact Hlt].
  unfold optimization_loop in Hrun. simpl in Hrun. injection Hrun as <-.
  exact Hpos.
Qed.

(** X16: in the state a run ends in, [no_improvement_count] is the number
    of trials recorded after the best one (of all trials while there is no
    best), none of which exceeds [best_objective]; and with a positive
    patience it never exceeds the patience, so the loop never makes more
    than [patience] consecutive trials without an improvement. *)
Theorem counter_counts_trials_since_best :
  forall (patience : nat) (w : world) (n_iter n_initial : nat),
    (exists before recent,
        all_results (final_state (optimization_loop patience w n_iter n_initial))
          = before ++ recent /\
        List.length recent
          = no_improvement_count
              (final_state (optimization_loop patience w n_iter n_initial)) /\
        Forall (fun t =>
                  objective t
                  <= best_objective
                       (final_state
                          (optimization_loop patience w n_iter n_initial)))
               recent /\
        match best_metrics
                (final_state (optimization_loop patience w n_iter n_initial))
        with
        | Some t => exists earlier, before = earlier ++ [t]
        | None => before = []
        end) /\
    ((0 < patience)%nat ->
     (no_improvement_count
        (final_state (optimization_loop patience w n_iter n_initial))
      <= patience)%nat).
Proof.
  intros patience w n_iter n_initial. split.
  - pose proof (optimization_loop_best_tracking patience w n_iter n_initial)
      as Hbt.
    set (s := final_state (optimization_loop patience w n_iter n_initial)) in *.
    destruct Hbt as [(_ & Hm & Hb & Hall & Hn)
                    |(l1 & t & l2 & Ha & Hm & _ & Hb & _ & _ & H2 & Hn)].
    + exists [], (all_results s). rewrite Hm, Hb.
      repeat split; [now symmetry | exact Hall].
    + exists (l1 ++ [t]), l2. rewrite Hm, Hb.
      split; [rewrite Ha, <- app_assoc; reflexivity|].
      split; [now symmetry|]. split; [exact H2 | now exists l1].
  - intros Hpos.
    destruct (final_state_cases patience w n_iter n_initial)
      as [(s & Hrun & _)
         |(k & s_k & [(_ & Hk & _ & s & Hb & Hrun)
                     |(_ & Hk & _ & e & s & Hb & Hrun)])];
      rewrite Hrun; simpl.
    + apply Nat.lt_le_incl. exact (head_counter _ _ _ _ _ Hpos Hrun).
    + pose proof (head_counter _ _ _ _ _ Hpos Hk) as Hlt.
      destruct (loop_body_recorded patience w k s_k)
        as [(evs & e & _ & Hr)|(evs & y & _ & (_ & _ & _ & _ & _ & Hn))].
      * rewrite Hr in Hb. discriminate.
      * rewrite Hb in Hn. simpl in Hn. rewrite Hn.
        destruct (record_trial_results k s_k (ask w (optimizer s_k)) evs y)
          as (_ & _ & Hle). lia.
    + pose proof (head_counter _ _ _ _ _ Hpos Hk) as Hlt.
      destruct (loop_body_recorded patience w k s_k)
        as [(evs & e' & _ & Hr)|(evs & y & _ & (_ & _ & _ & _ & _ & Hn))].
      * rewrite Hr in Hb. injection Hb as _ <-. simpl. lia.
      * rewrite Hb in Hn. simpl in Hn. rewrite Hn.
        destruct (record_trial_results k s_k (ask w (optimizer s_k)) evs y)
          as (_ & _ & Hle). lia.
Qed.
